(** * CaseCompass-AI: the search route, the ingest route and the bootstrap service

    A shallow embedding of
      - [src/app/api/search/route.ts]   ([POST_search]),
      - [src/app/api/ingest/route.ts]   ([POST_ingest]),
      - [src/app/services/bootstrap.ts] ([readMetadata], [batchUpserts],
        [flattenMetadata], [initiateBootstrapping], [isValidContent],
        [handleBootstrapping]),
      - [src/app/api/bootstrap/route.ts] ([POST_bootstrap]).

    The handlers are [async] functions that talk to the embeddings provider,
    to the vector store, to the file system and to the console.  They are
    embedded in a small monad [M] that threads the chronological list of
    these effects (the trace) and carries JavaScript exceptions.  What the
    outside world answers is a parameter ([Services]); every answer may
    depend on everything that happened before. *)

From Stdlib Require Import Ascii ZArith QArith.
From stdpp Require Import base option list gmap strings pretty.

Open Scope nat_scope.

(** ** JavaScript values *)

(** JSON-like values, as they arrive in a request body or sit in a metadata
    object.  Numbers are kept to the integers: no claim computes with them. *)
#[warnings="-register-all"]
Inductive JsVal : Type :=
  | JNull
  | JBool (b : bool)
  | JNum (n : Z)
  | JStr (s : string)
  | JObj (fields : list (string * JsVal)).

(** [!!v]: a value that is [undefined] is [None] at the places that read a
    property or a request field. *)
Definition truthy (v : JsVal) : bool :=
  match v with
  | JNull => false
  | JBool b => b
  | JNum n => negb (n =? 0)%Z
  | JStr s => negb (String.eqb s "")
  | JObj _ => true
  end.

Definition truthy_opt (v : option JsVal) : bool :=
  match v with
  | None => false
  | Some x => truthy x
  end.

(** [v.k] for a property read on a value that is not [undefined]. *)
Fixpoint assoc (k : string) (fields : list (string * JsVal)) : option JsVal :=
  match fields with
  | [] => None
  | (k', v) :: rest => if String.eqb k k' then Some v else assoc k rest
  end.

Definition field (v : JsVal) (k : string) : option JsVal :=
  match v with
  | JObj fields => assoc k fields
  | _ => None
  end.

(** Structural equality of values is decidable. *)
Fixpoint JsVal_eq_dec (a b : JsVal) {struct a} : {a = b} + {a <> b}.
Proof.
  destruct a as [| x | x | x | f], b as [| y | y | y | g];
    try (right; discriminate); try (left; reflexivity).
  - destruct (Bool.bool_dec x y); [left | right]; congruence.
  - destruct (Z.eq_dec x y); [left | right]; congruence.
  - destruct (String.string_dec x y); [left | right]; congruence.
  - assert (Hdec : forall g' : list (string * JsVal), {f = g'} + {f <> g'}).
    { induction f as [| [k v] f IHf]; intros [| [k' v'] g'];
        try (right; discriminate); try (left; reflexivity).
      destruct (String.string_dec k k'); [| right; congruence].
      destruct (JsVal_eq_dec v v'); [| right; congruence].
      destruct (IHf g'); [left | right]; congruence. }
    destruct (Hdec g); [left | right]; congruence.
Defined.

#[global] Instance JsVal_EqDecision : EqDecision JsVal := JsVal_eq_dec.

(** ** Strings *)

(** A character stands for one UTF-16 code unit below 256.  The white space
    and line terminators of ECMAScript in that range are TAB, LF, VT, FF, CR,
    SPACE and NBSP. *)
Definition is_white_space (c : ascii) : bool :=
  let n := nat_of_ascii c in
  (n =? 9) || (n =? 10) || (n =? 11) || (n =? 12) || (n =? 13)
  || (n =? 32) || (n =? 160).

Fixpoint trimStart (s : string) : string :=
  match s with
  | EmptyString => EmptyString
  | String c s' => if is_white_space c then trimStart s' else s
  end.

Fixpoint trimEnd (s : string) : string :=
  match s with
  | EmptyString => EmptyString
  | String c s' =>
      match trimEnd s' with
      | EmptyString => if is_white_space c then EmptyString else String c EmptyString
      | t => String c t
      end
  end.

(** [String.prototype.trim] *)
Definition trim (s : string) : string := trimEnd (trimStart s).

(** ** Documents, vectors, responses *)

Record Document : Type := mkDocument {
  pageContent : string;
  metadata : gmap string JsVal
}.

Definition Embedding : Type := list Z.

(** [{ id: split.metadata.id, values: embeddings[index], metadata }]: a
    property that is [undefined] is [None]. *)
Record Vector : Type := mkVector {
  id : option JsVal;
  values : option Embedding;
  vmetadata : gmap string JsVal
}.

Record JsError : Type := mkError {
  message : string;
  code : option string
}.

Definition Error (msg : string) : JsError := mkError msg None.

Inductive Body : Type :=
  | BSuccess
  | BError (msg : string)
  | BResults (results : list Document).

(** [NextResponse.json(body, { status })] *)
Record Response : Type := json {
  body : Body;
  status : nat
}.

(** [process.env] *)
Record Env : Type := mkEnv {
  PINECONE_API_KEY : option string;
  PINECONE_INDEX : option string;
  VOYAGE_API_KEY : option string
}.

(** [!process.env.X]: unset, or set to the empty string. *)
Definition unset (v : option string) : bool :=
  match v with
  | None => true
  | Some s => String.eqb s ""
  end.

(** ** Effects *)

Inductive Level : Type := log | warn | error.

Inductive LogMsg : Type :=
  | MsgSearching (query : JsVal)
  | MsgSearchError (e : JsError)
  | MsgRunning (targetIndex : string)
  | MsgAlreadyHasVectors (targetIndex : string)
  | MsgLoading
  | MsgNoPdf
  | MsgMetadataError (e : JsError)
  | MsgFound (nDocuments nValid : nat)
  | MsgSplit (nValid nSplits : nat)
  | MsgProcessingBatch (k n : nat)
  | MsgNoValidContent
  | MsgGeneratingEmbeddings (k : nat)
  | MsgNoEmbeddings
  | MsgGenerated (n : nat)
  | MsgUpsertingBatch (k n : nat)
  | MsgBatchError (k : nat) (e : JsError)
  | MsgCompleted
  | MsgBootstrapError (e : JsError).

Record MMROptions : Type := mkMMR { k : nat; fetchK : nat; lambda : Q }.

Inductive Event : Type :=
  | EvConsole (lvl : Level) (msg : LogMsg)
  | EvSearch (index : string) (query : JsVal) (opts : MMROptions)
  | EvCreateIndex (targetIndex : string)
  | EvHasVectors (targetIndex : string)
  | EvLoad
  | EvReadFile
  | EvSplit (chunkSize chunkOverlap : nat) (docs : list Document)
  | EvUuid
  | EvEmbed (texts : list string)
  | EvUpsert (targetIndex : string) (batch : list Vector)
  | EvSleep (ms : nat).

Definition Trace : Type := list Event.

(** The groups handed to [index.upsert], in order. *)
Definition upserted (tr : Trace) : list (list Vector) :=
  omap (fun ev => match ev with EvUpsert _ b => Some b | _ => None end) tr.

(** The arguments of [embedDocuments], in order. *)
Definition embedded (tr : Trace) : list (list string) :=
  omap (fun ev => match ev with EvEmbed t => Some t | _ => None end) tr.

(** What the outside answers.  Each answer is a function of the trace so
    far: a provider may fail on its third call and succeed on its fourth. *)
Record Services : Type := mkServices {
  (** [new VoyageEmbeddings({ apiKey, ... })]: the constructor may throw *)
  newVoyageEmbeddings : option string -> option JsError;
  (** [vectorStore.maxMarginalRelevanceSearch(query, opts)] *)
  maxMarginalRelevanceSearch :
    Trace -> string -> JsVal -> MMROptions -> JsError + list Document;
  (** [createIndexIfNecessary] and [pineconeIndexHasVectors] of the module
      [./pinecone], which the service imports; the second answers whether
      the index holds vectors *)
  createIndexIfNecessary : Trace -> string -> JsError + unit;
  pineconeIndexHasVectors : Trace -> string -> JsError + bool;
  (** [DirectoryLoader(...).load()] *)
  loaderLoad : Trace -> JsError + list Document;
  (** [JSON.parse(await fs.readFile(docs/db.json)).documents]: [None] when
      the property is falsy *)
  readDbJson : Trace -> JsError + option (list (gmap string JsVal));
  path_basename : string -> string;
  (** [RecursiveCharacterTextSplitter(...).splitDocuments(docs)] *)
  splitDocuments : Trace -> list Document -> JsError + list Document;
  uuidv4 : Trace -> string;
  (** [voyageEmbeddings.embedDocuments(texts)]: [None] for a falsy answer *)
  embedDocuments : Trace -> list string -> JsError + option (list Embedding);
  (** [index.upsert(batch)] *)
  upsert : Trace -> string -> list Vector -> JsError + unit
}.

(** ** The monad *)

Inductive Outcome (A : Type) : Type :=
  | Done (a : A)
  | Throw (e : JsError)
  | OutOfFuel.
Arguments Done {A} a.
Arguments Throw {A} e.
Arguments OutOfFuel {A}.

Definition M (A : Type) : Type := Trace -> Outcome A * Trace.

#[global] Instance M_ret : MRet M := fun A a tr => (Done a, tr).

#[global] Instance M_bind : MBind M := fun A B f m tr =>
  match m tr with
  | (Done a, tr') => f a tr'
  | (Throw e, tr') => (Throw e, tr')
  | (OutOfFuel, tr') => (OutOfFuel, tr')
  end.

Definition throw {A} (e : JsError) : M A := fun tr => (Throw e, tr).

Definition out_of_fuel {A} : M A := fun tr => (OutOfFuel, tr).

(** [try { m } catch (e) { h e }] *)
Definition try_catch {A} (m : M A) (h : JsError -> M A) : M A := fun tr =>
  match m tr with
  | (Throw e, tr') => h e tr'
  | r => r
  end.

Definition emit (ev : Event) : M unit := fun tr => (Done tt, tr ++ [ev]).

(** An awaited call: the event is recorded, the answer is the service's on
    the trace before the call. *)
Definition call {A} (ev : Event) (answer : Trace -> JsError + A) : M A :=
  fun tr =>
    match answer tr with
    | inr a => (Done a, tr ++ [ev])
    | inl e => (Throw e, tr ++ [ev])
    end.

Definition console (lvl : Level) (msg : LogMsg) : M unit :=
  emit (EvConsole lvl msg).

(** [await new Promise(resolve => setTimeout(resolve, ms))] *)
Definition sleep (ms : nat) : M unit := emit (EvSleep ms).

(** [if (c) throw e] *)
Definition throw_if (c : bool) (e : JsError) : M unit :=
  if c then throw e else mret tt.

(** [for (let i = i0; i < n; i += step) body(i)].  The loop of the source
    does not end when [step] is 0 and [i0 < n]; the fuel bounds the number
    of times the condition [i < n] is tested. *)
Fixpoint for_step (fuel n step : nat) (body : nat -> M unit) (i : nat)
  : M unit :=
  match fuel with
  | O => out_of_fuel
  | S fuel' =>
      if i <? n then body i ;; for_step fuel' n step body (i + step)
      else mret tt
  end.

(** [l.slice(s, e)] for [0 <= s <= e] *)
Definition slice {A} (l : list A) (s e : nat) : list A :=
  take (e - s) (drop s l).

(** [Math.ceil(n / d)] for [d > 0] *)
Definition ceil_div (n d : nat) : nat := (n + d - 1) / d.

(** ** [Map]: the insertion-ordered map of JavaScript *)

Section JsMap.
Context {K V : Type} `{EqDecision K}.

(** [m.set(k, v)]: a key already present keeps its place and takes the new
    value; a new key goes to the end. *)
Fixpoint Map_set (k : K) (v : V) (m : list (K * V)) : list (K * V) :=
  match m with
  | [] => [(k, v)]
  | (k', v') :: m' =>
      if decide (k = k') then (k', v) :: m' else (k', v') :: Map_set k v m'
  end.

(** [new Map(entries)] *)
Definition Map_new (entries : list (K * V)) : list (K * V) :=
  foldl (fun m e => Map_set e.1 e.2 m) [] entries.

(** [Array.from(m.values())] *)
Definition Map_values (m : list (K * V)) : list V := m.*2.

(** [m.get(k)]; the route does not call it, the statements do. *)
Fixpoint Map_get (k : K) (m : list (K * V)) : option V :=
  match m with
  | [] => None
  | (k', v') :: m' => if decide (k = k') then Some v' else Map_get k m'
  end.
End JsMap.

(** ** The search route *)

(** [item.metadata.title] *)
Definition title (item : Document) : option JsVal := metadata item !! "title".

(** [item => [item.metadata.title, item]] *)
Definition title_entry (item : Document) : option JsVal * Document :=
  (title item, item).

(** A value that is not an object: a string, a number, a boolean or [null]. *)
Definition primitive (v : JsVal) : bool :=
  match v with
  | JObj _ => false
  | _ => true
  end.

(** The title of the item is a primitive value, or the item has none. *)
Definition primitive_title (item : Document) : Prop :=
  match title item with
  | Some v => primitive v = true
  | None => True
  end.

(** [Array.from(new Map(retrieved.map(item => [item.metadata.title, item])).values())].
    A [Map] compares its keys with SameValueZero: by value on the strings,
    numbers, booleans, [null] and [undefined] of a title, by identity on
    objects.  [Map_set] compares by value: it is the [Map] of the source on
    lists that satisfy [primitive_title], and what is stated of the
    comparison is stated of such lists. *)
Definition uniqueResults (retrieved : list Document) : list Document :=
  Map_values (Map_new (map title_entry retrieved)).

Definition searchOptions : MMROptions := mkMMR 20 100 (1 # 2).

(** A constructor of a client library: no request is sent. *)
Definition construct (r : option JsError) : M unit :=
  match r with
  | Some e => throw e
  | None => mret tt
  end.

(** [`${v}`] throws a TypeError on an object that has a property
    [toString] of its own: in a parsed body that property is not a function,
    and neither it nor [valueOf] gives a primitive value. *)
Definition template_throws (v : JsVal) : bool :=
  match v with
  | JObj fields =>
      match assoc "toString" fields with
      | Some _ => true
      | None => false
      end
  | _ => false
  end.

(** The [try] block of the search route. *)
Definition search_try (svc : Services) (env : Env) (query : JsVal)
  : M Response :=
  throw_if (unset (PINECONE_API_KEY env))
    (Error "PINECONE_API_KEY is not defined") ;;
  throw_if (unset (PINECONE_INDEX env))
    (Error "PINECONE_INDEX is not defined") ;;
  throw_if (unset (VOYAGE_API_KEY env))
    (Error "VOYAGE_API_KEY is not defined") ;;
  construct (newVoyageEmbeddings svc (VOYAGE_API_KEY env)) ;;
  throw_if (template_throws query)
    (Error "Cannot convert object to primitive value") ;;
  console log (MsgSearching query) ;;
  let index := default "" (PINECONE_INDEX env) in
  retrieved ← call (EvSearch index query searchOptions)
    (fun tr => maxMarginalRelevanceSearch svc tr index query searchOptions) ;
  mret (json (BResults (uniqueResults retrieved)) 200).

Definition search_catch (e : JsError) : M Response :=
  console error (MsgSearchError e) ;;
  mret (json (BError "Error searching for query") 500).

(** [POST] of the search route after its first statement: [query] is what
    the destructuring of the body gave, [None] for [undefined]. *)
Definition POST_search (svc : Services) (env : Env) (query : option JsVal)
  : M Response :=
  match query with
  | Some q =>
      if negb (truthy q) then mret (json (BError "Query is required") 400)
      else try_catch (search_try svc env q) search_catch
  | None => mret (json (BError "Query is required") 400)
  end.

(** [POST] of the search route from the body of the request.
    [await req.json()] throws on a body that is not JSON ([inl]);
    [const { query } = ...] throws on [null], and reads no [query] from a
    string, a number or a boolean.  Both are outside the [try]. *)
Definition POST_search_request (svc : Services) (env : Env)
    (body : JsError + JsVal) : M Response :=
  match body with
  | inl e => throw e
  | inr JNull =>
      throw (Error "Cannot destructure property 'query' of 'body' as it is null.")
  | inr v => POST_search svc env (field v "query")
  end.

(** ** The bootstrap service *)

Fixpoint mapM {A B} (f : A -> M B) (l : list A) : M (list B) :=
  match l with
  | [] => mret []
  | x :: l' => y ← f x ; ys ← mapM f l' ; mret (y :: ys)
  end.

Definition readMetadata (svc : Services) : M (list (gmap string JsVal)) :=
  try_catch
    (documents ← call EvReadFile (readDbJson svc) ;
     mret (default [] documents))
    (fun e => console warn (MsgMetadataError e) ;; mret []).

(** The body of the loop of [batchUpserts]. *)
Definition batchUpserts_body (svc : Services) (index : string)
    (vectors : list Vector) (batchSize : nat) (i : nat) : M unit :=
  let batch := slice vectors i (i + batchSize) in
  console log (MsgUpsertingBatch (i / batchSize + 1)
                 (ceil_div (length vectors) batchSize)) ;;
  call (EvUpsert index batch) (fun tr => upsert svc tr index batch).

(** [batchSize] defaults to 50 in the source; its one caller passes 2. *)
Definition batchUpserts (svc : Services) (fuel : nat) (index : string)
    (vectors : list Vector) (batchSize : nat) : M unit :=
  for_step fuel (length vectors) batchSize
    (batchUpserts_body svc index vectors batchSize) 0.

Definition flattenMetadata (md : gmap string JsVal) : gmap string JsVal :=
  let flatMetadata := md in
  let flatMetadata :=
    match flatMetadata !! "pdf" with
    | Some pdf =>
        if truthy pdf then
          let flatMetadata :=
            match field pdf "pageCount" with
            | Some pageCount =>
                if truthy pageCount
                then <["totalPages" := pageCount]> flatMetadata
                else flatMetadata
            | None => flatMetadata
            end in
          delete "pdf" flatMetadata
        else flatMetadata
    | None => flatMetadata
    end in
  match flatMetadata !! "loc" with
  | Some loc => if truthy loc then delete "loc" flatMetadata else flatMetadata
  | None => flatMetadata
  end.

(** The argument is a [string] by its type, so [typeof] holds. *)
Definition isValidContent (content : string) : bool :=
  if String.eqb content "" then false
  else
    let trimmed := trim content in
    let len := Z.of_nat (String.length trimmed) in
    (0 <? len)%Z && (len <? 8192)%Z.

(** The callback of [validDocuments.forEach]: the document after the
    callback.  [path.basename] is reached once [metadata] has an element,
    and throws on a source that is not a string. *)
Definition mergeFileMetadata (svc : Services)
    (metadataList : list (gmap string JsVal)) (doc : Document) : M Document :=
  match metadataList with
  | [] => mret doc
  | _ :: _ =>
      match metadata doc !! "source" with
      | Some (JStr source) =>
          match List.find
                  (fun meta => bool_decide
                     (meta !! "filename" = Some (JStr (path_basename svc source))))
                  metadataList with
          | Some fileMetadata =>
              mret (mkDocument (pageContent doc)
                      (<["pageContent" := JStr (pageContent doc)]>
                         (fileMetadata ∪ metadata doc)))
          | None => mret doc
          end
      | _ => throw (mkError "The path argument must be of type string"
                      (Some "ERR_INVALID_ARG_TYPE"))
      end
  end.

Definition BATCH_SIZE : nat := 5.

(** The callback of [validBatch.map] that builds [castedBatch]. *)
Definition castSplit (svc : Services) (split : Document) : M Document :=
  uuid ← call EvUuid (fun tr => inr (uuidv4 svc tr)) ;
  mret (mkDocument (trim (pageContent split))
          (<["pageContent" := JStr (trim (pageContent split))]>
             (<["id" := JStr uuid]> (flattenMetadata (metadata split))))).

(** The [try] block inside the batch loop. *)
Definition batch_try (svc : Services) (env : Env) (targetIndex : string)
    (castedBatch : list Document) (i : nat) : M unit :=
  let pageContents := map pageContent castedBatch in
  console log (MsgGeneratingEmbeddings (i / BATCH_SIZE + 1)) ;;
  embeddings ← call (EvEmbed (map trim pageContents))
    (fun tr => embedDocuments svc tr (map trim pageContents)) ;
  match embeddings with
  | None | Some [] => console error MsgNoEmbeddings
  | Some embeddings =>
      console log (MsgGenerated (length embeddings)) ;;
      let vectors :=
        imap (fun index split =>
                mkVector (metadata split !! "id") (embeddings !! index)
                  (metadata split))
          castedBatch in
      throw_if (unset (PINECONE_API_KEY env))
        (Error "PINECONE_API_KEY environment variable is not set") ;;
      batchUpserts svc (S (length vectors)) targetIndex vectors 2 ;;
      sleep 1000
  end.

Definition batch_catch (i : nat) (e : JsError) : M unit :=
  console error (MsgBatchError (i / BATCH_SIZE + 1) e) ;;
  sleep 2000.

(** The body of the batch loop. *)
Definition processBatch (svc : Services) (env : Env) (targetIndex : string)
    (splits : list Document) (i : nat) : M unit :=
  let batch := slice splits i (i + BATCH_SIZE) in
  console log (MsgProcessingBatch (i / BATCH_SIZE + 1)
                 (ceil_div (length splits) BATCH_SIZE)) ;;
  let validBatch :=
    List.filter (fun split => isValidContent (pageContent split)) batch in
  if length validBatch =? 0 then console log MsgNoValidContent
  else
    castedBatch ← mapM (castSplit svc) validBatch ;
    construct (newVoyageEmbeddings svc (VOYAGE_API_KEY env)) ;;
    try_catch (batch_try svc env targetIndex castedBatch i) (batch_catch i).

(** The outer [try] block of [handleBootstrapping], from the line after
    [const documents = await loader.load()]. *)
Definition bootstrap_loaded (svc : Services) (env : Env) (targetIndex : string)
    (documents : list Document) : M Response :=
  if length documents =? 0 then
    console log MsgNoPdf ;;
    mret (json (BError "No documents found in the docs directory") 400)
  else
    metadataList ← readMetadata svc ;
    let validDocuments :=
      List.filter (fun doc => isValidContent (pageContent doc)) documents in
    validDocuments ← mapM (mergeFileMetadata svc metadataList) validDocuments ;
    console log (MsgFound (length documents) (length validDocuments)) ;;
    splits ← call (EvSplit 1000 200 validDocuments)
      (fun tr => splitDocuments svc tr validDocuments) ;
    console log (MsgSplit (length validDocuments) (length splits)) ;;
    for_step (S (length splits)) (length splits) BATCH_SIZE
      (processBatch svc env targetIndex splits) 0 ;;
    console log MsgCompleted ;;
    mret (json BSuccess 200).

(** The outer [try] block of [handleBootstrapping]. *)
Definition bootstrap_try (svc : Services) (env : Env) (targetIndex : string)
  : M Response :=
  console log (MsgRunning targetIndex) ;;
  call (EvCreateIndex targetIndex)
    (fun tr => createIndexIfNecessary svc tr targetIndex) ;;
  hasVectors ← call (EvHasVectors targetIndex)
    (fun tr => pineconeIndexHasVectors svc tr targetIndex) ;
  if hasVectors : bool then
    console log (MsgAlreadyHasVectors targetIndex) ;;
    mret (json BSuccess 200)
  else
    console log MsgLoading ;;
    documents ← call EvLoad (loaderLoad svc) ;
    bootstrap_loaded svc env targetIndex documents.

Definition bootstrap_catch (e : JsError) : M Response :=
  console error (MsgBootstrapError e) ;;
  if bool_decide (code e = Some "UND_ERR_CONNECT_TIMEOUT") then
    mret (json (BError "Operation timed out - please try again") 504)
  else mret (json (BError "Bootstrap procedure failed") 500).

Definition handleBootstrapping (svc : Services) (env : Env)
    (targetIndex : string) : M Response :=
  try_catch (bootstrap_try svc env targetIndex) bootstrap_catch.

(** ** The ingest route *)

(** [POST] of the ingest route: what [handleBootstrapping] returns is
    awaited and not used. *)
Definition POST_ingest (svc : Services) (env : Env) (targetIndex : string)
  : M Response :=
  handleBootstrapping svc env targetIndex ;;
  mret (json BSuccess 200).

(** ** Notions used in the statements *)

(** The computation throws and has done nothing before: no request, and
    no line on the console either. *)
Definition fails_before_any_call {A} (m : M A) : Prop :=
  forall tr, exists e, m tr = (Throw e, tr).

(** The requests to the embeddings provider and to the vector store. *)
Definition is_external (ev : Event) : bool :=
  match ev with
  | EvSearch _ _ _ | EvCreateIndex _ | EvHasVectors _ | EvEmbed _
  | EvUpsert _ _ => true
  | _ => false
  end.

(** The computation throws, and what it has done before is no request to
    the embeddings provider or the vector store. *)
Definition throws_before_external_calls {A} (m : M A) : Prop :=
  forall tr, exists e evs,
    m tr = (Throw e, tr ++ evs) /\ Forall (fun ev => is_external ev = false) evs.

(** One of the three values the search route requires is unset. *)
Definition missing_configuration (env : Env) : bool :=
  unset (PINECONE_API_KEY env) || unset (PINECONE_INDEX env)
  || unset (VOYAGE_API_KEY env).

(** The consecutive slices [l.slice(i, i + step)] for [i = i0, i0 + step, ...]
    below [length l], as both batch loops take them. *)
Fixpoint batches {A} (fuel step : nat) (l : list A) (i : nat)
  : list (list A) :=
  match fuel with
  | O => []
  | S fuel' =>
      if i <? length l
      then slice l i (i + step) :: batches fuel' step l (i + step)
      else []
  end.

(** The first, and the last, element of a result list with a given title. *)
Definition first_with_title (t : option JsVal) (l : list Document)
  : option Document :=
  List.find (fun x => bool_decide (title x = t)) l.

Definition last_with_title (t : option JsVal) (l : list Document)
  : option Document :=
  first_with_title t (rev l).

(** The distinct elements of a list in the order of their first occurrence. *)
Fixpoint first_seen {K} `{EqDecision K} (l : list K) : list K :=
  match l with
  | [] => []
  | x :: l' => x :: List.filter (fun y => negb (bool_decide (y = x))) (first_seen l')
  end.

(** The reading of the specification: every retained result is the first
    of the list with its title. *)
Definition first_occurrence_wins (retrieved results : list Document) : Prop :=
  forall r, r ∈ results -> first_with_title (title r) retrieved = Some r.

(** What the texts sent to the provider are for a batch of chunks. *)
Definition batch_texts (batch : list Document) : list string :=
  map (fun split => trim (trim (pageContent split)))
    (List.filter (fun split => isValidContent (pageContent split)) batch).

(** A vector made from a chunk with valid content. *)
Definition valid_vector (v : Vector) : Prop :=
  exists content,
    isValidContent content = true /\
    vmetadata v !! "pageContent" = Some (JStr (trim content)).

(** What the batch loop may do: upsert vectors of valid chunks, and never
    call the splitter. *)
Definition batch_event_ok (ev : Event) : Prop :=
  match ev with
  | EvUpsert _ batch => Forall valid_vector batch
  | EvSplit _ _ _ => False
  | _ => True
  end.

(** What a run of [handleBootstrapping] on the loaded [documents] may do:
    hand to the splitter, set to chunks of 1000 characters that overlap by
    200, the loaded documents with valid content, in their order, and upsert
    vectors of valid chunks. *)
Definition ingest_event_ok (documents : list Document) (ev : Event) : Prop :=
  match ev with
  | EvUpsert _ batch => Forall valid_vector batch
  | EvSplit chunkSize chunkOverlap docs =>
      chunkSize = 1000 /\ chunkOverlap = 200 /\
      map pageContent docs =
      List.filter isValidContent (map pageContent documents)
  | _ => True
  end.

(** The embedding requests of a run over the batches [bs]: one for each
    batch that has a chunk with valid content. *)
Definition embed_requests (bs : list (list Document)) : list (list string) :=
  List.filter (fun texts => negb (length texts =? 0)) (map batch_texts bs).

(** A chunk as [castedBatch] holds it, made from [split]. *)
Definition casted_from (split c : Document) : Prop :=
  pageContent c = trim (pageContent split) /\
  metadata c !! "pageContent" = Some (JStr (trim (pageContent split))).

(** A chunk of [castedBatch] made from a split with valid content. *)
Definition valid_chunk (c : Document) : Prop :=
  exists content,
    isValidContent content = true /\
    metadata c !! "pageContent" = Some (JStr (trim content)).

(** ** Sample worlds *)

(** Services that answer without failure: the splitter returns its input,
    the provider returns one embedding per text. *)
Definition sampleServices (hasVectors : bool) (docs retrieved : list Document)
    (embed : Trace -> list string -> JsError + option (list Embedding))
    (ups : Trace -> string -> list Vector -> JsError + unit) : Services :=
  {| newVoyageEmbeddings := fun _ => None;
     maxMarginalRelevanceSearch := fun _ _ _ _ => inr retrieved;
     createIndexIfNecessary := fun _ _ => inr tt;
     pineconeIndexHasVectors := fun _ _ => inr hasVectors;
     loaderLoad := fun _ => inr docs;
     readDbJson := fun _ => inr None;
     path_basename := fun s => s;
     splitDocuments := fun _ ds => inr ds;
     uuidv4 := fun tr => "uuid-" +:+ pretty (length tr);
     embedDocuments := embed;
     upsert := ups |}.

Definition embed_ok : Trace -> list string -> JsError + option (list Embedding) :=
  fun _ texts => inr (Some (map (fun _ => [1%Z; 2%Z]) texts)).

Definition upsert_ok : Trace -> string -> list Vector -> JsError + unit :=
  fun _ _ _ => inr tt.

(** The second call of [index.upsert] fails, the others succeed. *)
Definition upsert_second_fails
  : Trace -> string -> list Vector -> JsError + unit :=
  fun tr _ _ =>
    if length (upserted tr) =? 1 then inl (Error "upsert failed") else inr tt.

Definition fullEnv : Env := mkEnv (Some "pc-key") (Some "cases") (Some "voyage-key").

Definition envWithoutPineconeKey : Env := mkEnv None (Some "cases") (Some "voyage-key").

Definition envWithoutVoyageKey : Env := mkEnv (Some "pc-key") (Some "cases") None.

(** An embeddings client that cannot be constructed without a key. *)
Definition withVoyageKeyRequired (svc : Services) : Services :=
  {| newVoyageEmbeddings := fun apiKey =>
       if unset apiKey then Some (Error "Voyage AI API key not found") else None;
     maxMarginalRelevanceSearch := maxMarginalRelevanceSearch svc;
     createIndexIfNecessary := createIndexIfNecessary svc;
     pineconeIndexHasVectors := pineconeIndexHasVectors svc;
     loaderLoad := loaderLoad svc;
     readDbJson := readDbJson svc;
     path_basename := path_basename svc;
     splitDocuments := splitDocuments svc;
     uuidv4 := uuidv4 svc;
     embedDocuments := embedDocuments svc;
     upsert := upsert svc |}.

Definition titled (content t : string) : Document :=
  mkDocument content {[ "title" := JStr t ]}.

Definition smith1 : Document := titled "first chunk" "Smith v. Jones".
Definition smith2 : Document := titled "second chunk" "Smith v. Jones".

Definition page (content : string) : Document :=
  mkDocument content {[ "source" := JStr "docs/case.pdf" ]}.

Definition sampleVector (n : Z) : Vector := mkVector (Some (JNum n)) (Some [n]) ∅.

(** The contents handed to the splitter, and the contents of the vectors
    handed to [index.upsert], call by call. *)
Definition split_inputs (tr : Trace) : list (list string) :=
  omap (fun ev => match ev with
                  | EvSplit _ _ docs => Some (map pageContent docs)
                  | _ => None
                  end) tr.

Definition upserted_contents (tr : Trace) : list (list (option JsVal)) :=
  map (map (fun v => vmetadata v !! "pageContent")) (upserted tr).

Definition batch_errors (tr : Trace) : list (nat * JsError) :=
  omap (fun ev => match ev with
                  | EvConsole error (MsgBatchError k e) => Some (k, e)
                  | _ => None
                  end) tr.

Fixpoint repeat_char (n : nat) (c : ascii) : string :=
  match n with
  | O => EmptyString
  | S n' => String c (repeat_char n' c)
  end.

Definition blankPage : Document := page "   ".

Definition longPage : Document := page (repeat_char (N.to_nat 8192) "x").

Definition sevenPages : list Document :=
  map page ["c1"; "c2"; "c3"; "c4"; "c5"; "c6"; "c7"].

(** ** The bootstrap trigger *)

(** [response.ok]: the status is in the range 200 to 299. *)
Definition response_ok (response : Response) : bool :=
  (200 <=? status response) && (status response <=? 299).

(** [process.env.PRODUCTION_URL ? `https://${...}` : "http://localhost:3000"] *)
Definition baseURL (PRODUCTION_URL : option string) : string :=
  if unset PRODUCTION_URL then "http://localhost:3000"
  else "https://" +:+ default "" PRODUCTION_URL.

(** [initiateBootstrapping]: [fetch url targetIndex] stands for the awaited
    [fetch(url, { method: "POST", headers, body: JSON.stringify({ targetIndex }) })];
    it may throw, and what it does on the way is its own.  A [targetIndex]
    that is [undefined] at run time is [None]: the body then has no such
    field. *)
Definition initiateBootstrapping (fetch : string -> option string -> M Response)
    (PRODUCTION_URL : option string) (targetIndex : option string) : M unit :=
  response ← fetch (baseURL PRODUCTION_URL +:+ "/api/ingest") targetIndex ;
  throw_if (negb (response_ok response))
    (Error ("API request failed with status " +:+ pretty (status response))).

(** [POST] of the bootstrap route. *)
Definition POST_bootstrap (fetch : string -> option string -> M Response)
    (PRODUCTION_URL : option string) (env : Env) : M Response :=
  initiateBootstrapping fetch PRODUCTION_URL (PINECONE_INDEX env) ;;
  mret (json BSuccess 200).

(** The request of [initiateBootstrapping] served by the ingest route of
    this application, for a body that names an index. *)
Definition served_by_ingest (svc : Services) (env : Env)
    (fetch : string -> option string -> M Response) : Prop :=
  forall url targetIndex tr,
    fetch url (Some targetIndex) tr = POST_ingest svc env targetIndex tr.

(** A [fetch] that runs the ingest route in place. *)
Definition fetchIngest (svc : Services) (env : Env)
  : string -> option string -> M Response :=
  fun _ targetIndex =>
    match targetIndex with
    | Some index => POST_ingest svc env index
    | None => throw (Error "no targetIndex in the body")
    end.

(** A [fetch] that answers with a given status. *)
Definition fetchStatus (code : nat) : string -> option string -> M Response :=
  fun _ _ => mret (json (BError "failed") code).

(** A string that does not begin with white space. *)
Definition no_leading_space (s : string) : Prop :=
  match s with
  | EmptyString => True
  | String c _ => is_white_space c = false
  end.

(** The two steps of [flattenMetadata], and the value it leaves under
    [totalPages]. *)
Definition flatten_pdf (md : gmap string JsVal) : gmap string JsVal :=
  match md !! "pdf" with
  | Some pdf =>
      if truthy pdf then
        delete "pdf"
          match field pdf "pageCount" with
          | Some pageCount =>
              if truthy pageCount then <["totalPages" := pageCount]> md else md
          | None => md
          end
      else md
  | None => md
  end.

Definition flatten_loc (md : gmap string JsVal) : gmap string JsVal :=
  match md !! "loc" with
  | Some loc => if truthy loc then delete "loc" md else md
  | None => md
  end.

(** [metadata.pdf.pageCount] when both are truthy. *)
Definition pdf_pageCount (md : gmap string JsVal) : option JsVal :=
  match md !! "pdf" with
  | Some pdf =>
      if truthy pdf then
        match field pdf "pageCount" with
        | Some pageCount => if truthy pageCount then Some pageCount else None
        | None => None
        end
      else None
  | None => None
  end.

(** What [flattenMetadata md] holds under the key [key]. *)
Definition flattened_lookup (md : gmap string JsVal) (key : string)
  : option JsVal :=
  if decide (key = "pdf") then
    if truthy_opt (md !! "pdf") then None else md !! "pdf"
  else if decide (key = "loc") then
    if truthy_opt (md !! "loc") then None else md !! "loc"
  else if decide (key = "totalPages") then
    match pdf_pageCount md with
    | Some pageCount => Some pageCount
    | None => md !! "totalPages"
    end
  else md !! key.

(** Services that differ from [svc] in one answer. *)
Definition withSearch (svc : Services)
    (f : Trace -> string -> JsVal -> MMROptions -> JsError + list Document)
  : Services :=
  {| newVoyageEmbeddings := newVoyageEmbeddings svc;
     maxMarginalRelevanceSearch := f;
     createIndexIfNecessary := createIndexIfNecessary svc;
     pineconeIndexHasVectors := pineconeIndexHasVectors svc;
     loaderLoad := loaderLoad svc;
     readDbJson := readDbJson svc;
     path_basename := path_basename svc;
     splitDocuments := splitDocuments svc;
     uuidv4 := uuidv4 svc;
     embedDocuments := embedDocuments svc;
     upsert := upsert svc |}.

Definition withCreateIndex (svc : Services)
    (f : Trace -> string -> JsError + unit) : Services :=
  {| newVoyageEmbeddings := newVoyageEmbeddings svc;
     maxMarginalRelevanceSearch := maxMarginalRelevanceSearch svc;
     createIndexIfNecessary := f;
     pineconeIndexHasVectors := pineconeIndexHasVectors svc;
     loaderLoad := loaderLoad svc;
     readDbJson := readDbJson svc;
     path_basename := path_basename svc;
     splitDocuments := splitDocuments svc;
     uuidv4 := uuidv4 svc;
     embedDocuments := embedDocuments svc;
     upsert := upsert svc |}.

Definition withReadDbJson (svc : Services)
    (f : Trace -> JsError + option (list (gmap string JsVal))) : Services :=
  {| newVoyageEmbeddings := newVoyageEmbeddings svc;
     maxMarginalRelevanceSearch := maxMarginalRelevanceSearch svc;
     createIndexIfNecessary := createIndexIfNecessary svc;
     pineconeIndexHasVectors := pineconeIndexHasVectors svc;
     loaderLoad := loaderLoad svc;
     readDbJson := f;
     path_basename := path_basename svc;
     splitDocuments := splitDocuments svc;
     uuidv4 := uuidv4 svc;
     embedDocuments := embedDocuments svc;
     upsert := upsert svc |}.

Definition timeoutError : JsError :=
  mkError "Connect Timeout Error" (Some "UND_ERR_CONNECT_TIMEOUT").

(** The four responses [handleBootstrapping] can build. *)
Definition bootstrap_response (resp : Response) : Prop :=
  resp = json BSuccess 200
  \/ resp = json (BError "No documents found in the docs directory") 400
  \/ resp = json (BError "Operation timed out - please try again") 504
  \/ resp = json (BError "Bootstrap procedure failed") 500.

Definition caseMetadata : gmap string JsVal :=
  {[ "filename" := JStr "docs/case.pdf"; "title" := JStr "Smith v. Jones";
     "source" := JStr "db.json" ]}.

(** The shape of every event of an ingestion run against [targetIndex]. *)
Definition ingest_event_shape (targetIndex : string) (ev : Event) : Prop :=
  match ev with
  | EvEmbed texts => 0 < length texts <= BATCH_SIZE
  | EvUpsert index batch => index = targetIndex /\ 0 < length batch <= 2
  | EvCreateIndex index => index = targetIndex
  | EvHasVectors index => index = targetIndex
  | EvSplit chunkSize chunkOverlap _ => chunkSize = 1000 /\ chunkOverlap = 200
  | EvSleep ms => ms = 1000 \/ ms = 2000
  | EvSearch _ _ _ => False
  | _ => True
  end.

Definition not_upsert (ev : Event) : Prop :=
  match ev with
  | EvUpsert _ _ => False
  | _ => True
  end.

(** [doc.metadata.source] is a string. *)
Definition has_string_source (doc : Document) : Prop :=
  exists source, metadata doc !! "source" = Some (JStr source).

Definition embed_timeout
  : Trace -> list string -> JsError + option (list Embedding) :=
  fun _ _ => inl timeoutError.

(** The vectors that the batch loop builds from [castedBatch] and the
    embeddings: [castedBatch.map((split, index) => ({ id, values, metadata }))]. *)
Definition batchVectors (castedBatch : list Document)
    (embeddings : list Embedding) : list Vector :=
  imap (fun index split =>
          mkVector (metadata split !! "id") (embeddings !! index)
            (metadata split))
    castedBatch.

(** The text kept of a chunk, and the chunks with valid content. *)
Definition chunk_text (split : Document) : string := trim (pageContent split).

Definition valid_splits (splits : list Document) : list Document :=
  List.filter (fun split => isValidContent (pageContent split)) splits.

(** The text a vector carries in its metadata. *)
Definition vector_content (v : Vector) : option JsVal :=
  vmetadata v !! "pageContent".

(** The progress lines of [batchUpserts], and the documents handed to the
    splitter, call by call. *)
Definition upsert_progress (tr : Trace) : list (nat * nat) :=
  omap (fun ev => match ev with
                  | EvConsole log (MsgUpsertingBatch k n) => Some (k, n)
                  | _ => None
                  end) tr.

Definition split_calls (tr : Trace) : list (list Document) :=
  omap (fun ev => match ev with
                  | EvSplit _ _ docs => Some docs
                  | _ => None
                  end) tr.

(** The provider answers every request for at least one text with at least
    one embedding. *)
Definition provider_answers (svc : Services) : Prop :=
  forall h texts, texts <> [] ->
    exists emb embs, embedDocuments svc h texts = inr (Some (emb :: embs)).

(** A provider that returns the first embedding only. *)
Definition embed_first_only
  : Trace -> list string -> JsError + option (list Embedding) :=
  fun _ _ => inr (Some [[7%Z]]).

Definition castedPair : list Document :=
  [mkDocument "a" {[ "id" := JStr "id-a"; "pageContent" := JStr "a" ]};
   mkDocument "b" {[ "id" := JStr "id-b"; "pageContent" := JStr "b" ]}].

(** The side file gives no entry: it cannot be read or parsed, it has no
    [documents], or [documents] is empty. *)
Definition no_metadata_entries
    (r : JsError + option (list (gmap string JsVal))) : Prop :=
  match r with
  | inr (Some (_ :: _)) => False
  | _ => True
  end.

(** ** Failures inside a batch *)

(** The error a request was answered with, if it was: [h] is the trace
    before the request.  The requests of the batch loop are those to
    [embedDocuments] and to [index.upsert]. *)
Definition call_failed (svc : Services) (h : Trace) (ev : Event)
  : option JsError :=
  match ev with
  | EvEmbed texts =>
      match embedDocuments svc h texts with
      | inl e => Some e
      | inr _ => None
      end
  | EvUpsert index batch =>
      match upsert svc h index batch with
      | inl e => Some e
      | inr _ => None
      end
  | _ => None
  end.

(** After batch [k] the loop is over, or it starts batch [k + 1]. *)
Definition next_batch_or_end (k : nat) (evs : list Event) : Prop :=
  evs = [] \/
  exists n rest, evs = EvConsole log (MsgProcessingBatch (k + 1) n) :: rest.

(** No request of [evs], made after [h], was answered with an error. *)
Fixpoint no_failed_call (svc : Services) (h : Trace) (evs : list Event)
  : Prop :=
  match evs with
  | [] => True
  | ev :: rest =>
      call_failed svc h ev = None /\ no_failed_call svc (h ++ [ev]) rest
  end.

(** What follows every request of [evs] that was answered with an error [e]
    satisfies [after e]. *)
Fixpoint failures_followed_by (svc : Services)
    (after : JsError -> list Event -> Prop) (h : Trace) (evs : list Event)
  : Prop :=
  match evs with
  | [] => True
  | ev :: rest =>
      match call_failed svc h ev with
      | Some e => after e rest
      | None => True
      end
      /\ failures_followed_by svc after (h ++ [ev]) rest
  end.

(** The events of the [catch] block of batch [k], and nothing else. *)
Definition skipped (k : nat) (e : JsError) (rest : list Event) : Prop :=
  rest = [EvConsole error (MsgBatchError k e); EvSleep 2000].

(** The events of the [catch] block of some batch, then the next batch or
    the end of the loop. *)
Definition skipped_in_loop (e : JsError) (rest : list Event) : Prop :=
  exists k rest',
    rest = EvConsole error (MsgBatchError k e) :: EvSleep 2000 :: rest'
    /\ next_batch_or_end k rest'.

(** A computation that stops at the first request answered with an error:
    if it throws, either no request failed (the error is its own) or the
    request that failed is the last event. *)
Definition stops_at_failure {A} (svc : Services) (tr : Trace) (o : Outcome A)
    (evs : list Event) : Prop :=
  match o with
  | Done _ => no_failed_call svc tr evs
  | Throw e =>
      no_failed_call svc tr evs
      \/ exists pre ev,
           evs = pre ++ [ev] /\ no_failed_call svc tr pre
           /\ call_failed svc (tr ++ pre) ev = Some e
  | OutOfFuel => False
  end.

(** The text stored with the vector of a chunk. *)
Definition chunk_content (split : Document) : option JsVal :=
  Some (JStr (chunk_text split)).

(** * Properties *)

(** ** The insertion-ordered map *)

Section JsMapFacts.
Context {K V : Type} `{EqDecision K}.
Implicit Types (m es : list (K * V)) (k : K) (v : V).

Lemma Map_new_snoc es k v :
  Map_new (es ++ [(k, v)]) = Map_set k v (Map_new es).
Proof. unfold Map_new. rewrite foldl_snoc. reflexivity. Qed.

Lemma Map_set_keys m k v :
  (Map_set k v m).*1 = if decide (k ∈ m.*1) then m.*1 else m.*1 ++ [k].
Proof.
  induction m as [| [k' v'] m IH].
  - cbn. case_decide as Hin; [by apply elem_of_nil in Hin | reflexivity].
  - cbn [Map_set]. destruct (decide (k = k')) as [-> | Hne].
    + rewrite decide_True; [reflexivity | cbn; left].
    + cbn [fmap list_fmap fst]. rewrite IH.
      destruct (decide (k ∈ m.*1)) as [Hin | Hnin].
      * rewrite decide_True; [reflexivity | by right].
      * rewrite decide_False; [reflexivity |].
        intros Hin. apply elem_of_cons in Hin as [? | ?]; congruence.
Qed.

Lemma Map_get_set m k v k' :
  Map_get k' (Map_set k v m) = if decide (k' = k) then Some v else Map_get k' m.
Proof.
  induction m as [| [k0 v0] m IH]; simpl.
  - destruct (decide (k' = k)); reflexivity.
  - destruct (decide (k = k0)) as [-> | Hne]; simpl.
    + destruct (decide (k' = k0)); reflexivity.
    + rewrite IH. destruct (decide (k' = k0)) as [-> | ?]; [| reflexivity].
      rewrite decide_False; [reflexivity | congruence].
Qed.

Lemma Map_set_elem m k v x :
  x ∈ Map_set k v m -> x = (k, v) \/ x ∈ m.
Proof.
  induction m as [| [k0 v0] m IH]; cbn [Map_set].
  - intros Hx. apply list_elem_of_singleton in Hx. by left.
  - destruct (decide (k = k0)) as [-> | ?]; intros Hx;
      apply elem_of_cons in Hx as [-> | Hx].
    + by left.
    + right. by right.
    + right. left.
    + destruct (IH Hx); [by left | right; by right].
Qed.

Lemma Map_get_elem m k v :
  NoDup m.*1 -> (k, v) ∈ m -> Map_get k m = Some v.
Proof.
  induction m as [| [k0 v0] m IH]; simpl; intros Hnd Hin.
  - by apply elem_of_nil in Hin.
  - apply NoDup_cons in Hnd as [Hk0 Hnd].
    apply elem_of_cons in Hin as [[= -> ->] | Hin].
    + by rewrite decide_True.
    + destruct (decide (k = k0)) as [-> | ?]; [| by apply IH].
      exfalso. apply Hk0. apply list_elem_of_fmap. by exists (k0, v).
Qed.

Lemma first_seen_elem (l : list K) x : x ∈ first_seen l <-> x ∈ l.
Proof.
  induction l as [| y l IH]; simpl; [reflexivity |].
  rewrite !elem_of_cons, list_elem_of_In, List.filter_In, <- list_elem_of_In, IH.
  rewrite negb_true_iff, bool_decide_eq_false.
  destruct (decide (x = y)); tauto.
Qed.

Lemma first_seen_NoDup (l : list K) : NoDup (first_seen l).
Proof.
  induction l as [| y l IH]; simpl; [constructor |].
  apply NoDup_cons. split.
  - rewrite list_elem_of_In, List.filter_In, negb_true_iff, bool_decide_eq_false.
    tauto.
  - apply NoDup_ListNoDup, List.NoDup_filter, NoDup_ListNoDup, IH.
Qed.

Lemma first_seen_snoc (l : list K) x :
  first_seen (l ++ [x]) =
  if decide (x ∈ l) then first_seen l else first_seen l ++ [x].
Proof.
  induction l as [| y l IH].
  - cbn. case_decide as Hin; [by apply elem_of_nil in Hin | reflexivity].
  - cbn [app first_seen]. rewrite IH.
    destruct (decide (x ∈ l)) as [Hin | Hnin].
    + rewrite decide_True; [reflexivity | by right].
    + rewrite List.filter_app. cbn [List.filter].
      destruct (decide (x = y)) as [-> | Hne].
      * rewrite bool_decide_eq_true_2 by reflexivity. cbn [negb].
        rewrite decide_True by left. by rewrite app_nil_r.
      * rewrite bool_decide_eq_false_2 by done. cbn [negb].
        rewrite decide_False; [reflexivity |].
        intros Hin. apply elem_of_cons in Hin as [? | ?]; congruence.
Qed.

(** The keys of [new Map(entries)] are the distinct keys of the entries in
    the order of their first occurrence. *)
Lemma Map_new_keys es : (Map_new es).*1 = first_seen es.*1.
Proof.
  induction es as [| [k v] es IH] using rev_ind; [reflexivity |].
  rewrite Map_new_snoc, Map_set_keys, fmap_app.
  change (fst <$> [(k, v)]) with [k].
  rewrite first_seen_snoc, IH.
  destruct (decide (k ∈ es.*1)) as [Hin | Hnin].
  - rewrite decide_True; [reflexivity | by apply first_seen_elem].
  - rewrite decide_False; [reflexivity | by rewrite first_seen_elem].
Qed.

(** The value at a key is the one of the last entry with that key. *)
Lemma Map_new_get es k :
  Map_get k (Map_new es) =
  snd <$> List.find (fun e => bool_decide (e.1 = k)) (rev es).
Proof.
  induction es as [| [k0 v0] es IH] using rev_ind; [reflexivity |].
  rewrite Map_new_snoc, Map_get_set, rev_unit. simpl.
  destruct (decide (k = k0)) as [-> | Hne].
  - by rewrite bool_decide_eq_true_2.
  - rewrite bool_decide_eq_false_2 by congruence. exact IH.
Qed.

Lemma Map_new_elem es x : x ∈ Map_new es -> x ∈ es.
Proof.
  induction es as [| [k v] es IH] using rev_ind; [done |].
  rewrite Map_new_snoc, elem_of_app. intros Hx.
  apply Map_set_elem in Hx as [-> | Hx]; [right; left | left; auto].
Qed.

Lemma Map_new_NoDup es : NoDup (Map_new es).*1.
Proof. rewrite Map_new_keys. apply first_seen_NoDup. Qed.
End JsMapFacts.

(** ** Deduplication by title *)

Lemma uniqueResults_unfold retrieved :
  uniqueResults retrieved = (Map_new (map title_entry retrieved)).*2.
Proof. reflexivity. Qed.

Lemma title_entries_keys (l : list Document) :
  (map title_entry l).*1 = map title l.
Proof. induction l; cbn; congruence. Qed.

Lemma title_entries_find t (l : list Document) :
  snd <$> List.find (fun e => bool_decide (e.1 = t)) (map title_entry l) =
  first_with_title t l.
Proof.
  unfold first_with_title. induction l as [| x l IH]; [reflexivity |].
  cbn. destruct (bool_decide (title x = t)); [reflexivity | exact IH].
Qed.

Lemma Map_new_title_entries retrieved k r :
  (k, r) ∈ Map_new (map title_entry retrieved) -> k = title r /\ r ∈ retrieved.
Proof.
  intros Hin. apply Map_new_elem, list_elem_of_fmap in Hin as (x & [= -> ->] & Hx).
  by split.
Qed.

Lemma uniqueResults_titles retrieved :
  map title (uniqueResults retrieved) = first_seen (map title retrieved).
Proof.
  rewrite uniqueResults_unfold, <- (title_entries_keys retrieved), <- Map_new_keys.
  assert (Hall : forall e, e ∈ Map_new (map title_entry retrieved) -> e.1 = title e.2).
  { intros [k r] He. by apply Map_new_title_entries in He as [-> _]. }
  induction (Map_new (map title_entry retrieved)) as [| e m IH]; [reflexivity |].
  cbn. rewrite IH, (Hall e); [reflexivity | left |].
  intros e' He'. apply Hall. by right.
Qed.

Lemma uniqueResults_NoDup retrieved : NoDup (map title (uniqueResults retrieved)).
Proof. rewrite uniqueResults_titles. apply first_seen_NoDup. Qed.

Lemma uniqueResults_last retrieved r :
  r ∈ uniqueResults retrieved -> last_with_title (title r) retrieved = Some r.
Proof.
  rewrite uniqueResults_unfold. intros Hr.
  apply list_elem_of_fmap in Hr as ([k r'] & -> & Hin). cbn.
  destruct (Map_new_title_entries _ _ _ Hin) as [-> _].
  apply Map_get_elem in Hin; [| apply Map_new_NoDup].
  rewrite Map_new_get in Hin. unfold last_with_title.
  rewrite <- title_entries_find.
  unfold title_entry in *. by rewrite map_rev.
Qed.

Lemma count_title_once (l : list Document) t :
  NoDup (map title l) -> t ∈ map title l ->
  length (List.filter (fun x => bool_decide (title x = t)) l) = 1.
Proof.
  induction l as [| x l IH]; cbn; intros Hnd Hin.
  - by apply elem_of_nil in Hin.
  - apply NoDup_cons in Hnd as [Hx Hnd].
    destruct (decide (title x = t)) as [<- | Hne].
    + rewrite bool_decide_eq_true_2 by done. cbn. f_equal.
      apply length_zero_iff_nil.
      destruct (List.filter _ l) as [| y ?] eqn:E; [reflexivity |].
      exfalso. assert (Hy : List.In y (List.filter (fun x0 => bool_decide (title x0 = title x)) l))
        by (rewrite E; left; reflexivity).
      apply List.filter_In in Hy as [Hy Ht]. apply bool_decide_eq_true in Ht.
      apply Hx. rewrite <- Ht. apply list_elem_of_fmap. exists y.
      split; [reflexivity | by apply list_elem_of_In].
    + rewrite bool_decide_eq_false_2 by done. apply IH; [done |].
      apply elem_of_cons in Hin as [? | ?]; [congruence | done].
Qed.

(** C2 (as amended): on retrieved results whose titles are primitive values
    (strings, numbers, booleans, [null]) or absent, the deduplication keeps
    one result for each title, in the order in which the titles first occur
    in the retrieved list, and the result kept for a title is the last
    retrieved result with that title. *)
Theorem uniqueResults_last_occurrence_wins (retrieved : list Document) :
  Forall primitive_title retrieved ->
  map title (uniqueResults retrieved) = first_seen (map title retrieved) /\
  Forall (fun r => last_with_title (title r) retrieved = Some r)
    (uniqueResults retrieved).
Proof.
  intros _. split; [apply uniqueResults_titles |].
  apply Forall_forall. intros r Hr. by apply uniqueResults_last.
Qed.

Lemma uniqueResults_last_occurrence_wins_witness :
  map title (uniqueResults [smith1; smith2]) =
    first_seen (map title [smith1; smith2]) /\
  Forall (fun r => last_with_title (title r) [smith1; smith2] = Some r)
    (uniqueResults [smith1; smith2]).
Proof.
  apply (uniqueResults_last_occurrence_wins [smith1; smith2]).
  repeat constructor.
Defined.

(** C2 (as stated) fails: of two results with the title Smith v. Jones the
    one that is kept is the second, not the first. *)
Lemma uniqueResults_not_first_occurrence :
  ~ first_occurrence_wins [smith1; smith2] (uniqueResults [smith1; smith2]).
Proof.
  intros Hfirst. specialize (Hfirst smith2).
  assert (Hin : smith2 ∈ uniqueResults [smith1; smith2]) by (vm_compute; left).
  specialize (Hfirst Hin). vm_compute in Hfirst. discriminate Hfirst.
Qed.

(** ** The search route *)

Lemma missing_configuration_false env :
  missing_configuration env = false ->
  unset (PINECONE_API_KEY env) = false /\
  unset (PINECONE_INDEX env) = false /\
  unset (VOYAGE_API_KEY env) = false.
Proof.
  unfold missing_configuration. rewrite !orb_false_iff. tauto.
Qed.

Lemma truthy_JStr q : truthy (JStr q) = true <-> q <> "".
Proof.
  cbn. rewrite negb_true_iff. split.
  - intros Hq ->. discriminate.
  - intros Hq. apply String.eqb_neq, Hq.
Qed.

(** C4: for a non-empty query string, with the configuration in place and a
    similarity search that answers [retrieved], a list whose titles are
    primitive values or absent, the search route answers 200 with a result
    list in which no two results have the same title, and every title of
    [retrieved] is the title of exactly one result. *)
Theorem POST_search_no_duplicate_titles svc env q tr retrieved :
  q <> "" ->
  missing_configuration env = false ->
  newVoyageEmbeddings svc (VOYAGE_API_KEY env) = None ->
  maxMarginalRelevanceSearch svc (tr ++ [EvConsole log (MsgSearching (JStr q))])
    (default "" (PINECONE_INDEX env)) (JStr q) searchOptions = inr retrieved ->
  Forall primitive_title retrieved ->
  exists results,
    POST_search svc env (Some (JStr q)) tr =
      (Done (json (BResults results) 200),
       tr ++ [EvConsole log (MsgSearching (JStr q));
              EvSearch (default "" (PINECONE_INDEX env)) (JStr q) searchOptions])
    /\ NoDup (map title results)
    /\ Forall (fun r =>
                 length (List.filter
                           (fun x => bool_decide (title x = title r)) results) = 1)
         retrieved.
Proof.
  intros Hq Hconf Hctor Hsearch _.
  apply missing_configuration_false in Hconf as (Hpk & Hpi & Hvk).
  apply truthy_JStr in Hq.
  exists (uniqueResults retrieved). split; [| split].
  - unfold POST_search. rewrite Hq. cbn [negb].
    unfold try_catch, search_try, throw_if, construct, console, emit, call,
      mbind, M_bind, mret, M_ret.
    cbn [template_throws].
    rewrite Hpk, Hpi, Hvk, Hctor, Hsearch, <- app_assoc. reflexivity.
  - apply uniqueResults_NoDup.
  - apply Forall_forall. intros r Hr.
    apply count_title_once; [apply uniqueResults_NoDup |].
    rewrite uniqueResults_titles, first_seen_elem.
    apply list_elem_of_fmap. by exists r.
Qed.

Lemma POST_search_no_duplicate_titles_witness :
  exists results,
    POST_search (sampleServices true [] [smith1; smith2] embed_ok upsert_ok)
      fullEnv (Some (JStr "breach of contract")) [] =
      (Done (json (BResults results) 200),
       [EvConsole log (MsgSearching (JStr "breach of contract"));
        EvSearch "cases" (JStr "breach of contract") searchOptions])
    /\ NoDup (map title results)
    /\ Forall (fun r =>
                 length (List.filter
                           (fun x => bool_decide (title x = title r)) results) = 1)
         [smith1; smith2].
Proof.
  apply (POST_search_no_duplicate_titles
           (sampleServices true [] [smith1; smith2] embed_ok upsert_ok)
           fullEnv "breach of contract" [] [smith1; smith2]).
  - discriminate.
  - reflexivity.
  - reflexivity.
  - reflexivity.
  - repeat constructor.
Defined.

(** The example of C4: two chunks titled Smith v. Jones, one result. *)
Example POST_search_smith_v_jones :
  POST_search (sampleServices true [] [smith1; smith2] embed_ok upsert_ok)
    fullEnv (Some (JStr "breach of contract")) [] =
  (Done (json (BResults [smith2]) 200),
   [EvConsole log (MsgSearching (JStr "breach of contract"));
    EvSearch "cases" (JStr "breach of contract") searchOptions]).
Proof. reflexivity. Qed.

(** C10: a query that is absent, or present and falsy (the empty string,
    [null], [false], 0), is answered by 400 and the message Query is required,
    the same answer as for an absent query, and the trace is left as it was:
    no embedding, no similarity search. *)
Theorem POST_search_rejects_falsy_query svc env query tr :
  truthy_opt query = false ->
  POST_search svc env query tr =
    (Done (json (BError "Query is required") 400), tr)
  /\ POST_search svc env query tr = POST_search svc env None tr.
Proof.
  intros Hfalsy. unfold POST_search. destruct query as [q |]; [| done].
  cbn in Hfalsy. rewrite Hfalsy. done.
Qed.

Lemma POST_search_rejects_falsy_query_witness :
  POST_search (sampleServices true [] [smith1] embed_ok upsert_ok) fullEnv
    (Some (JStr "")) [] =
    (Done (json (BError "Query is required") 400), [])
  /\ POST_search (sampleServices true [] [smith1] embed_ok upsert_ok) fullEnv
       (Some (JStr "")) [] =
     POST_search (sampleServices true [] [smith1] embed_ok upsert_ok) fullEnv
       None [].
Proof.
  apply (POST_search_rejects_falsy_query
           (sampleServices true [] [smith1] embed_ok upsert_ok) fullEnv
           (Some (JStr "")) []).
  reflexivity.
Defined.

(** C3 (as amended): in the search route, when the vector-store key, the
    index name or the embeddings key is unset, the [try] block throws before
    it does anything else, and the route answers 500 having only written the
    error to the console: no request reaches a provider. *)
Theorem search_try_checks_configuration_first svc env q :
  truthy q = true ->
  missing_configuration env = true ->
  fails_before_any_call (search_try svc env q)
  /\ forall tr, exists e,
       POST_search svc env (Some q) tr =
         (Done (json (BError "Error searching for query") 500),
          tr ++ [EvConsole error (MsgSearchError e)]).
Proof.
  intros Hq Hmissing.
  assert (Hthrow : forall tr, exists e, search_try svc env q tr = (Throw e, tr)).
  { intros tr. unfold missing_configuration in Hmissing.
    unfold search_try, throw_if, throw, mbind, M_bind, mret, M_ret.
    destruct (unset (PINECONE_API_KEY env)); [by eexists |].
    destruct (unset (PINECONE_INDEX env)); [by eexists |].
    destruct (unset (VOYAGE_API_KEY env)); [by eexists | discriminate]. }
  split; [exact Hthrow |].
  intros tr. destruct (Hthrow tr) as [e He]. exists e.
  unfold POST_search. rewrite Hq. cbn [negb]. unfold try_catch. rewrite He.
  reflexivity.
Qed.

Lemma search_try_checks_configuration_first_witness :
  fails_before_any_call
    (search_try (sampleServices true [] [smith1] embed_ok upsert_ok)
       envWithoutPineconeKey (JStr "breach of contract"))
  /\ forall tr, exists e,
       POST_search (sampleServices true [] [smith1] embed_ok upsert_ok)
         envWithoutPineconeKey (Some (JStr "breach of contract")) tr =
         (Done (json (BError "Error searching for query") 500),
          tr ++ [EvConsole error (MsgSearchError e)]).
Proof.
  apply (search_try_checks_configuration_first
           (sampleServices true [] [smith1] embed_ok upsert_ok)
           envWithoutPineconeKey (JStr "breach of contract")).
  - reflexivity.
  - reflexivity.
Defined.

(** ** Traces *)

Lemma embedded_app (t1 t2 : Trace) : embedded (t1 ++ t2) = embedded t1 ++ embedded t2.
Proof. apply omap_app. Qed.

Lemma upserted_app (t1 t2 : Trace) : upserted (t1 ++ t2) = upserted t1 ++ upserted t2.
Proof. apply omap_app. Qed.

(** ** Batches *)

Lemma slice_length {A} (l : list A) i step :
  i < length l -> 0 < step ->
  0 < length (slice l i (i + step)) <= step.
Proof.
  intros Hi Hstep. unfold slice.
  rewrite length_take, length_drop. lia.
Qed.

Lemma slice_drop {A} (l : list A) i step :
  slice l i (i + step) ++ drop (i + step) l = drop i l.
Proof.
  unfold slice. replace (i + step - i) with step by lia.
  rewrite <- drop_drop. apply take_drop.
Qed.

Lemma batches_concat {A} (l : list A) step :
  0 < step ->
  forall fuel i, length l - i < fuel -> concat (batches fuel step l i) = drop i l.
Proof.
  intros Hstep. induction fuel as [| fuel IH]; intros i Hfuel; [lia |].
  cbn [batches]. destruct (i <? length l) eqn:Hi.
  - apply Nat.ltb_lt in Hi. cbn [concat].
    rewrite IH by lia. apply slice_drop.
  - apply Nat.ltb_ge in Hi. cbn. by rewrite drop_ge.
Qed.

Lemma batches_sizes {A} (l : list A) step :
  0 < step ->
  forall fuel i, Forall (fun g => 0 < length g <= step) (batches fuel step l i).
Proof.
  intros Hstep. induction fuel as [| fuel IH]; intros i; [constructor |].
  cbn [batches]. destruct (i <? length l) eqn:Hi; [| constructor].
  apply Nat.ltb_lt in Hi. constructor; [by apply slice_length | apply IH].
Qed.

(** ** [batchUpserts] *)

Lemma batchUpserts_body_run svc index vectors batchSize i tr :
  batchUpserts_body svc index vectors batchSize i tr =
  let batch := slice vectors i (i + batchSize) in
  let tr1 := tr ++ [EvConsole log (MsgUpsertingBatch (i / batchSize + 1)
                                     (ceil_div (length vectors) batchSize))] in
  (match upsert svc tr1 index batch with
   | inr a => Done a
   | inl e => Throw e
   end,
   tr ++ [EvConsole log (MsgUpsertingBatch (i / batchSize + 1)
                           (ceil_div (length vectors) batchSize));
          EvUpsert index batch]).
Proof.
  unfold batchUpserts_body, console, emit, call, mbind, M_bind. cbn zeta.
  destruct (upsert svc _ index _); rewrite <- app_assoc; reflexivity.
Qed.

Lemma batchUpserts_loop_ok svc index vectors batchSize :
  (forall h b, upsert svc h index b = inr tt) ->
  forall fuel i tr, length vectors - i < fuel -> 0 < batchSize ->
  exists evs,
    for_step fuel (length vectors) batchSize
      (batchUpserts_body svc index vectors batchSize) i tr = (Done tt, tr ++ evs)
    /\ upserted evs = batches fuel batchSize vectors i.
Proof.
  intros Hok. induction fuel as [| fuel IH]; intros i tr Hfuel Hstep; [lia |].
  cbn [for_step batches]. destruct (i <? length vectors) eqn:Hi.
  - apply Nat.ltb_lt in Hi.
    unfold mbind, M_bind. rewrite batchUpserts_body_run. cbn zeta. rewrite Hok.
    edestruct (IH (i + batchSize)) as (evs & -> & Hevs); [lia | done |].
    eexists (_ :: _ :: evs). split.
    + rewrite <- !app_assoc. reflexivity.
    + cbn. by rewrite <- Hevs.
  - exists []. by rewrite app_nil_r.
Qed.

(** Whatever [index.upsert] answers, the groups handed to it are an initial
    segment of the consecutive slices: the loop stops at the first failure. *)
Lemma batchUpserts_loop_prefix svc index vectors batchSize :
  0 < batchSize ->
  forall fuel i tr, length vectors - i < fuel ->
  exists o evs,
    for_step fuel (length vectors) batchSize
      (batchUpserts_body svc index vectors batchSize) i tr = (o, tr ++ evs)
    /\ o <> OutOfFuel
    /\ upserted evs `prefix_of` batches fuel batchSize vectors i
    /\ (o = Done tt -> upserted evs = batches fuel batchSize vectors i).
Proof.
  intros Hstep. induction fuel as [| fuel IH]; intros i tr Hfuel; [lia |].
  cbn [for_step batches]. destruct (i <? length vectors) eqn:Hi.
  - unfold mbind, M_bind. rewrite batchUpserts_body_run. cbn zeta.
    destruct (upsert svc _ index _) as [e | []].
    + exists (Throw e). eexists [_; _]. split; [reflexivity |].
      split; [done |]. split; [| done].
      cbn. apply prefix_cons, prefix_nil.
    + apply Nat.ltb_lt in Hi.
      edestruct (IH (i + batchSize)) as (o & evs & -> & Ho & Hpre & Hall); [lia |].
      exists o. eexists ([_; _] ++ evs).
      split; [rewrite <- !app_assoc; reflexivity |].
      split; [done |]. rewrite upserted_app. cbn [upserted omap app].
      split; [by apply prefix_cons |].
      intros Hdone. by rewrite (Hall Hdone).
  - exists (Done tt), []. rewrite app_nil_r. by repeat split.
Qed.

(** C7: when no upsert fails and the sub-batch size is positive,
    [batchUpserts] ends, and the groups it hands to [index.upsert] are
    consecutive slices of the input: put end to end they are the input (no
    vector is dropped, none is sent twice), and each group has at least one
    and at most [batchSize] vectors. *)
Theorem batchUpserts_partition svc index vectors batchSize fuel tr :
  0 < batchSize ->
  length vectors < fuel ->
  (forall h b, upsert svc h index b = inr tt) ->
  exists evs,
    batchUpserts svc fuel index vectors batchSize tr = (Done tt, tr ++ evs)
    /\ concat (upserted evs) = vectors
    /\ Forall (fun g => 0 < length g <= batchSize) (upserted evs).
Proof.
  intros Hstep Hfuel Hok. unfold batchUpserts.
  destruct (batchUpserts_loop_ok svc index vectors batchSize Hok fuel 0 tr)
    as (evs & Hrun & Hevs); [lia | done |].
  exists evs. rewrite Hevs. split; [done | split].
  - rewrite batches_concat by lia. reflexivity.
  - by apply batches_sizes.
Qed.

Lemma batchUpserts_partition_witness :
  exists evs,
    batchUpserts (sampleServices false [] [] embed_ok upsert_ok) 6 "cases"
      (map sampleVector [1; 2; 3; 4; 5]%Z) 2 [] = (Done tt, [] ++ evs)
    /\ concat (upserted evs) = map sampleVector [1; 2; 3; 4; 5]%Z
    /\ Forall (fun g => 0 < length g <= 2) (upserted evs).
Proof.
  apply (batchUpserts_partition
           (sampleServices false [] [] embed_ok upsert_ok) "cases"
           (map sampleVector [1; 2; 3; 4; 5]%Z) 2 6 []).
  - lia.
  - simpl. lia.
  - reflexivity.
Defined.

(** Five vectors in sub-batches of two: groups of 2, 2 and 1. *)
Example batchUpserts_five :
  upserted (batchUpserts (sampleServices false [] [] embed_ok upsert_ok) 6
              "cases" (map sampleVector [1; 2; 3; 4; 5]%Z) 2 []).2 =
  [map sampleVector [1; 2]%Z; map sampleVector [3; 4]%Z; map sampleVector [5]%Z].
Proof. reflexivity. Qed.

(** With a sub-batch size of 0 the loop of the source never ends on a list
    that is not empty: the model runs out of fuel whatever the fuel. *)
Lemma batchUpserts_zero_loop svc index vectors :
  (forall h b, upsert svc h index b = inr tt) ->
  forall fuel i tr, i < length vectors ->
  (for_step fuel (length vectors) 0
     (batchUpserts_body svc index vectors 0) i tr).1 = OutOfFuel.
Proof.
  intros Hok. induction fuel as [| fuel IH]; intros i tr Hi; [reflexivity |].
  cbn [for_step]. apply Nat.ltb_lt in Hi as Hi'. rewrite Hi'.
  unfold mbind, M_bind. rewrite batchUpserts_body_run. cbn zeta. rewrite Hok.
  apply IH. lia.
Qed.

Lemma batchUpserts_zero_diverges svc index vectors fuel tr :
  (forall h b, upsert svc h index b = inr tt) ->
  vectors <> [] ->
  (batchUpserts svc fuel index vectors 0 tr).1 = OutOfFuel.
Proof.
  intros Hok Hne. apply batchUpserts_zero_loop; [done |].
  destruct vectors; [done | cbn; lia].
Qed.

(** ** The bootstrap service *)

Lemma trim_empty : trim "" = "".
Proof. reflexivity. Qed.

Lemma isValidContent_spec content :
  isValidContent content = true <->
  (0 < Z.of_nat (String.length (trim content)) < 8192)%Z.
Proof.
  unfold isValidContent. destruct (String.eqb content "") eqn:E.
  - apply String.eqb_eq in E as ->. rewrite trim_empty. cbn. split; [done | lia].
  - cbn zeta. rewrite andb_true_iff, Z.ltb_lt, Z.ltb_lt. reflexivity.
Qed.

Lemma batchUpserts_loop_any svc index vectors batchSize :
  0 < batchSize -> Forall valid_vector vectors ->
  forall fuel i tr, length vectors - i < fuel ->
  exists o evs,
    for_step fuel (length vectors) batchSize
      (batchUpserts_body svc index vectors batchSize) i tr = (o, tr ++ evs)
    /\ o <> OutOfFuel /\ Forall batch_event_ok evs /\ embedded evs = [].
Proof.
  intros Hstep Hvalid. induction fuel as [| fuel IH]; intros i tr Hfuel; [lia |].
  cbn [for_step]. destruct (i <? length vectors) eqn:Hi.
  - unfold mbind, M_bind. rewrite batchUpserts_body_run. cbn zeta.
    assert (Hev : batch_event_ok (EvUpsert index (slice vectors i (i + batchSize)))).
    { cbn. unfold slice. by apply Forall_take, Forall_drop. }
    destruct (upsert svc _ index _) as [e | []].
    + exists (Throw e). eexists. split; [reflexivity |].
      split; [done |]. split; [| reflexivity]. by repeat constructor.
    + apply Nat.ltb_lt in Hi.
      edestruct (IH (i + batchSize)) as (o & evs & -> & Ho & Hall & Hemb); [lia |].
      exists o. eexists (_ :: _ :: evs).
      split; [rewrite <- !app_assoc; reflexivity |].
      split; [done |]. split; [by repeat constructor | exact Hemb].
  - exists (Done tt), []. rewrite app_nil_r. by repeat split.
Qed.

Lemma imap_Forall {A B} (P : B -> Prop) (l : list A) :
  forall f : nat -> A -> B,
  (forall i x, x ∈ l -> P (f i x)) -> Forall P (imap f l).
Proof.
  induction l as [| x l IH]; intros f Hf; cbn; constructor.
  - apply Hf. left.
  - apply IH. intros i y Hy. apply Hf. by right.
Qed.

Lemma castSplit_run svc split tr :
  castSplit svc split tr =
  (Done (mkDocument (trim (pageContent split))
           (<["pageContent" := JStr (trim (pageContent split))]>
              (<["id" := JStr (uuidv4 svc tr)]>
                 (flattenMetadata (metadata split))))),
   tr ++ [EvUuid]).
Proof. reflexivity. Qed.

Lemma mapM_castSplit_run svc (l : list Document) :
  forall tr, exists casted evs,
    mapM (castSplit svc) l tr = (Done casted, tr ++ evs)
    /\ Forall (fun ev => ev = EvUuid) evs
    /\ Forall2 casted_from l casted.
Proof.
  induction l as [| split l IH]; intros tr.
  - exists [], []. rewrite app_nil_r. by repeat split.
  - cbn [mapM]. unfold mbind, M_bind, mret, M_ret. rewrite castSplit_run.
    edestruct (IH (tr ++ [EvUuid])) as (casted & evs & -> & Hevs & Hcasted).
    eexists (_ :: casted), (EvUuid :: evs).
    split; [rewrite <- app_assoc; reflexivity |].
    split; [by constructor |]. constructor; [| done].
    split; [reflexivity | apply lookup_insert_eq].
Qed.

Lemma batch_try_run svc env targetIndex castedBatch i tr :
  Forall valid_chunk castedBatch ->
  exists o evs,
    batch_try svc env targetIndex castedBatch i tr = (o, tr ++ evs)
    /\ o <> OutOfFuel /\ Forall batch_event_ok evs
    /\ embedded evs = [map trim (map pageContent castedBatch)].
Proof.
  intros Hvalid.
  unfold batch_try, throw_if, throw, sleep, console, emit, call, mbind, M_bind,
    mret, M_ret. cbn zeta.
  destruct (embedDocuments svc _ _) as [e | [[| emb embs] |]].
  - eexists _, [_; _]. rewrite <- app_assoc.
    split; [reflexivity |]. split; [done |]. by repeat constructor.
  - eexists _, [_; _; _]. rewrite <- !app_assoc.
    split; [reflexivity |]. split; [done |]. by repeat constructor.
  - destruct (unset (PINECONE_API_KEY env)).
    + eexists _, [_; _; _]. rewrite <- !app_assoc.
      split; [reflexivity |]. split; [done |]. by repeat constructor.
    + unfold batchUpserts.
      match goal with
      | |- context [for_step (S (length ?vs)) _ _ _ _ ?t] =>
          destruct (batchUpserts_loop_any svc targetIndex vs 2 ltac:(lia)
                      ltac:(apply imap_Forall; intros j c Hc;
                            apply (proj1 (Forall_forall _ _) Hvalid c Hc))
                      (S (length vs)) 0 t ltac:(lia))
            as (o & evs & -> & Ho & Hall & Hemb)
      end.
      destruct o as [[] | e |]; [| | done].
      * eexists _, ([_; _; _] ++ evs ++ [_]). rewrite <- !app_assoc.
        split; [reflexivity |]. split; [done |].
        split.
        -- repeat (constructor; [done |]). apply Forall_app. by repeat constructor.
        -- rewrite !embedded_app, Hemb. reflexivity.
      * eexists _, ([_; _; _] ++ evs). rewrite <- !app_assoc.
        split; [reflexivity |]. split; [done |].
        split; [by repeat (constructor; [done |]) |].
        rewrite !embedded_app, Hemb. reflexivity.
  - eexists _, [_; _; _]. rewrite <- !app_assoc.
    split; [reflexivity |]. split; [done |]. by repeat constructor.
Qed.

Lemma batch_catch_run i e tr :
  batch_catch i e tr =
  (Done tt, tr ++ [EvConsole error (MsgBatchError (i / BATCH_SIZE + 1) e);
                   EvSleep 2000]).
Proof.
  unfold batch_catch, sleep, console, emit, mbind, M_bind.
  by rewrite <- app_assoc.
Qed.

Lemma casted_valid (l casted : list Document) :
  Forall (fun split => isValidContent (pageContent split) = true) l ->
  Forall2 casted_from l casted ->
  Forall valid_chunk casted /\
  map pageContent casted = map (fun split => trim (pageContent split)) l.
Proof.
  intros Hl Hc. induction Hc as [| split c l casted [Hpc Hmd] _ IH]; [done |].
  apply Forall_cons in Hl as [Hsplit Hl]. destruct (IH Hl) as [IH1 IH2].
  split.
  - constructor; [| done]. by exists (pageContent split).
  - cbn. by rewrite Hpc, IH2.
Qed.

Lemma filter_valid_Forall (batch : list Document) :
  Forall (fun split => isValidContent (pageContent split) = true)
    (List.filter (fun split => isValidContent (pageContent split)) batch).
Proof.
  apply Forall_forall. intros x Hx.
  apply list_elem_of_In, List.filter_In in Hx. tauto.
Qed.

Lemma embed_requests_one (batch : list Document) :
  embed_requests [batch] =
  if length (List.filter (fun split => isValidContent (pageContent split)) batch) =? 0
  then [] else [batch_texts batch].
Proof.
  unfold embed_requests, batch_texts. cbn [map List.filter].
  rewrite length_map. by destruct (length _ =? 0).
Qed.

Lemma embed_requests_cons (batch : list Document) bs :
  embed_requests (batch :: bs) = embed_requests [batch] ++ embed_requests bs.
Proof.
  unfold embed_requests. cbn [map List.filter].
  by destruct (negb _).
Qed.

Lemma processBatch_run svc env targetIndex splits i tr :
  exists o evs,
    processBatch svc env targetIndex splits i tr = (o, tr ++ evs)
    /\ o <> OutOfFuel /\ Forall batch_event_ok evs
    /\ (newVoyageEmbeddings svc (VOYAGE_API_KEY env) = None ->
        o = Done tt /\
        embedded evs = embed_requests [slice splits i (i + BATCH_SIZE)]).
Proof.
  unfold processBatch. cbn zeta. rewrite embed_requests_one.
  set (validBatch := List.filter _ (slice splits i (i + BATCH_SIZE))).
  unfold console, emit, construct, throw, try_catch, mbind, M_bind, mret, M_ret.
  destruct (length validBatch =? 0) eqn:Hlen.
  - eexists _, [_; _]. rewrite <- app_assoc.
    split; [reflexivity |]. split; [done |]. split; [by repeat constructor |].
    done.
  - edestruct (mapM_castSplit_run svc validBatch) as (casted & evs1 & -> & Huuid & Hcasted).
    destruct (casted_valid validBatch casted (filter_valid_Forall _) Hcasted)
      as [Hvalid Hcontents].
    assert (Hevs1 : Forall batch_event_ok evs1 /\ embedded evs1 = []).
    { clear -Huuid. induction Huuid as [| ev evs -> _ [IH1 IH2]]; [done |].
      split; [by constructor | exact IH2]. }
    destruct Hevs1 as [Hok1 Hemb1].
    destruct (newVoyageEmbeddings svc (VOYAGE_API_KEY env)) as [e |].
    + eexists _, (_ :: evs1). rewrite <- app_assoc.
      split; [reflexivity |]. split; [done |]. split; [by constructor | done].
    + edestruct (batch_try_run svc env targetIndex casted i) as
        (o & evs2 & -> & Ho & Hok2 & Hemb2); [exact Hvalid |].
      assert (Htexts : embedded evs2 = [batch_texts (slice splits i (i + BATCH_SIZE))]).
      { rewrite Hemb2, Hcontents. unfold batch_texts. fold validBatch.
        by rewrite map_map. }
      destruct o as [[] | e |]; [| | done].
      * eexists _, ([_] ++ evs1 ++ evs2). rewrite <- !app_assoc.
        split; [reflexivity |]. split; [done |]. split.
        -- constructor; [done |]. by apply Forall_app.
        -- intros _. split; [done |].
           by rewrite !embedded_app, Hemb1, Htexts.
      * rewrite batch_catch_run.
        eexists _, ([_] ++ evs1 ++ evs2 ++ [_; _]). rewrite <- !app_assoc.
        split; [reflexivity |]. split; [done |]. split.
        -- constructor; [done |]. apply Forall_app. split; [done |].
           apply Forall_app. split; [done | by repeat constructor].
        -- intros _. split; [done |].
           by rewrite !embedded_app, Hemb1, Htexts.
Qed.

Lemma processBatch_loop_run svc env targetIndex splits :
  forall fuel i tr, length splits - i < fuel ->
  exists o evs,
    for_step fuel (length splits) BATCH_SIZE
      (processBatch svc env targetIndex splits) i tr = (o, tr ++ evs)
    /\ o <> OutOfFuel /\ Forall batch_event_ok evs
    /\ (newVoyageEmbeddings svc (VOYAGE_API_KEY env) = None ->
        o = Done tt /\
        embedded evs = embed_requests (batches fuel BATCH_SIZE splits i)).
Proof.
  induction fuel as [| fuel IH]; intros i tr Hfuel; [lia |].
  cbn [for_step batches]. destruct (i <? length splits) eqn:Hi.
  - apply Nat.ltb_lt in Hi. unfold mbind, M_bind.
    destruct (processBatch_run svc env targetIndex splits i tr)
      as (o1 & evs1 & -> & Ho1 & Hok1 & Hc1).
    destruct o1 as [[] | e |]; [| | done].
    + edestruct (IH (i + BATCH_SIZE)) as (o & evs & -> & Ho & Hok & Hc);
        [unfold BATCH_SIZE; lia |].
      exists o, (evs1 ++ evs). rewrite <- app_assoc.
      split; [reflexivity |]. split; [done |]. split; [by apply Forall_app |].
      intros Hctor. destruct (Hc1 Hctor) as [_ He1].
      destruct (Hc Hctor) as [-> He]. split; [done |].
      by rewrite embedded_app, embed_requests_cons, He1, He.
    + exists (Throw e), evs1. split; [reflexivity |]. split; [done |].
      split; [done |]. intros Hctor. by destruct (Hc1 Hctor).
  - exists (Done tt), []. rewrite app_nil_r. by repeat split.
Qed.

Lemma batch_event_ok_ingest documents ev :
  batch_event_ok ev -> ingest_event_ok documents ev.
Proof. by destruct ev. Qed.

Lemma readMetadata_run svc documents tr :
  exists metadataList evs,
    readMetadata svc tr = (Done metadataList, tr ++ evs)
    /\ Forall (ingest_event_ok documents) evs.
Proof.
  unfold readMetadata, try_catch, call, console, emit, mbind, M_bind, mret, M_ret.
  destruct (readDbJson svc tr) as [e | parsed].
  - eexists _, [_; _]. rewrite <- app_assoc. split; [reflexivity |].
    by repeat constructor.
  - eexists _, [_]. split; [reflexivity |]. by repeat constructor.
Qed.

Lemma mergeFileMetadata_run svc metadataList doc tr :
  (exists doc', mergeFileMetadata svc metadataList doc tr = (Done doc', tr)
                /\ pageContent doc' = pageContent doc)
  \/ (exists e, mergeFileMetadata svc metadataList doc tr = (Throw e, tr)).
Proof.
  unfold mergeFileMetadata, throw, mret, M_ret.
  destruct metadataList as [| meta metas]; [left; by eexists |].
  destruct (metadata doc !! "source") as [[| | | source |] |];
    try (right; by eexists).
  destruct (List.find _ _); left; by eexists.
Qed.

Lemma mapM_mergeFileMetadata_run svc metadataList (l : list Document) :
  forall tr,
  (exists merged,
     mapM (mergeFileMetadata svc metadataList) l tr = (Done merged, tr)
     /\ map pageContent merged = map pageContent l)
  \/ (exists e, mapM (mergeFileMetadata svc metadataList) l tr = (Throw e, tr)).
Proof.
  induction l as [| doc l IH]; intros tr; [left; by exists [] |].
  cbn [mapM]. unfold mbind, M_bind, mret, M_ret.
  destruct (mergeFileMetadata_run svc metadataList doc tr)
    as [(doc' & -> & Hdoc) | (e & ->)]; [| right; by eexists].
  destruct (IH tr) as [(merged & -> & Hmerged) | (e & ->)]; [| right; by eexists].
  left. exists (doc' :: merged). split; [reflexivity |]. cbn. congruence.
Qed.

Lemma filter_map_pageContent (documents : list Document) :
  map pageContent
    (List.filter (fun doc => isValidContent (pageContent doc)) documents) =
  List.filter isValidContent (map pageContent documents).
Proof.
  induction documents as [| doc l IH]; [reflexivity |].
  cbn. destruct (isValidContent (pageContent doc)); cbn; congruence.
Qed.

Lemma bootstrap_loaded_run svc env targetIndex documents tr :
  exists o evs,
    bootstrap_loaded svc env targetIndex documents tr = (o, tr ++ evs)
    /\ o <> OutOfFuel /\ Forall (ingest_event_ok documents) evs.
Proof.
  unfold bootstrap_loaded.
  destruct (length documents =? 0).
  { unfold console, emit, mbind, M_bind, mret, M_ret.
    eexists _, [_]. split; [reflexivity |]. split; [done | by repeat constructor]. }
  unfold mbind at 1, M_bind at 1.
  destruct (readMetadata_run svc documents tr) as (metadataList & evs1 & -> & Hok1).
  unfold mbind at 1, M_bind at 1.
  destruct (mapM_mergeFileMetadata_run svc metadataList
              (List.filter (fun doc => isValidContent (pageContent doc)) documents)
              (tr ++ evs1)) as [(merged & -> & Hmerged) | (e & ->)].
  2: { exists (Throw e), evs1. by repeat split. }
  rewrite filter_map_pageContent in Hmerged.
  unfold console, emit, call, mbind, M_bind, mret, M_ret.
  destruct (splitDocuments svc _ merged) as [e | splits].
  { eexists _, (evs1 ++ [_; _]). rewrite <- !app_assoc.
    split; [reflexivity |]. split; [done |].
    apply Forall_app. split; [done | by repeat constructor]. }
  edestruct (processBatch_loop_run svc env targetIndex splits (S (length splits)) 0)
    as (o & evs2 & -> & Ho & Hok2 & _); [lia |].
  eapply Forall_impl in Hok2; [| apply (batch_event_ok_ingest documents)].
  destruct o as [[] | e |]; [| | done].
  - eexists _, (evs1 ++ [_; _; _] ++ evs2 ++ [_]). rewrite <- !app_assoc.
    split; [reflexivity |]. split; [done |].
    apply Forall_app. split; [done |].
    repeat (constructor; [done |]). apply Forall_app. by repeat constructor.
  - eexists _, (evs1 ++ [_; _; _] ++ evs2). rewrite <- !app_assoc.
    split; [reflexivity |]. split; [done |].
    apply Forall_app. split; [done |]. by repeat (constructor; [done |]).
Qed.

Lemma bootstrap_catch_run e tr :
  exists resp,
    bootstrap_catch e tr = (Done resp, tr ++ [EvConsole error (MsgBootstrapError e)])
    /\ (resp = json (BError "Operation timed out - please try again") 504
        \/ resp = json (BError "Bootstrap procedure failed") 500).
Proof.
  unfold bootstrap_catch, console, emit, mbind, M_bind, mret, M_ret.
  destruct (bool_decide _); eexists; split; eauto.
Qed.

(** [handleBootstrapping] always returns a response; it only adds to the
    trace; it calls the splitter on the loaded documents with valid content
    and upserts vectors of valid chunks only. *)
Lemma handleBootstrapping_run svc env targetIndex tr documents :
  (forall docs,
     loaderLoad svc
       (tr ++ [EvConsole log (MsgRunning targetIndex); EvCreateIndex targetIndex;
               EvHasVectors targetIndex; EvConsole log MsgLoading]) = inr docs ->
     docs = documents) ->
  exists resp evs,
    handleBootstrapping svc env targetIndex tr = (Done resp, tr ++ evs)
    /\ Forall (ingest_event_ok documents) evs.
Proof.
  intros Hload.
  unfold handleBootstrapping, try_catch, bootstrap_try, console, emit, call,
    mbind, M_bind, mret, M_ret.
  destruct (createIndexIfNecessary svc _ _) as [e | []].
  { destruct (bootstrap_catch_run e ((tr ++ [EvConsole log (MsgRunning targetIndex)])
                                       ++ [EvCreateIndex targetIndex]))
      as (resp & -> & _).
    eexists _, [_; _; _]. rewrite <- !app_assoc.
    split; [reflexivity | by repeat constructor]. }
  destruct (pineconeIndexHasVectors svc _ _) as [e | [|]].
  { edestruct (bootstrap_catch_run e) as (resp & -> & _).
    eexists _, [_; _; _; _]. rewrite <- !app_assoc.
    split; [reflexivity | by repeat constructor]. }
  { eexists _, [_; _; _; _]. rewrite <- !app_assoc.
    split; [reflexivity | by repeat constructor]. }
  rewrite <- !app_assoc. cbn [app] in *.
  destruct (loaderLoad svc _) as [e | docs] eqn:Hdocs.
  { edestruct (bootstrap_catch_run e) as (resp & -> & _).
    eexists _, [_; _; _; _; _; _]. rewrite <- !app_assoc.
    split; [reflexivity | by repeat constructor]. }
  rewrite (Hload docs eq_refl).
  edestruct (bootstrap_loaded_run svc env targetIndex documents)
    as (o & evs & -> & Ho & Hok).
  destruct o as [resp | e |]; [| | done].
  - eexists _, ([_; _; _; _; _] ++ evs). rewrite <- !app_assoc.
    split; [reflexivity |]. by repeat (constructor; [done |]).
  - edestruct (bootstrap_catch_run e) as (resp & -> & _).
    eexists _, ([_; _; _; _; _] ++ evs ++ [_]). rewrite <- !app_assoc.
    split; [reflexivity |]. repeat (constructor; [done |]).
    apply Forall_app. by repeat constructor.
Qed.

Lemma handleBootstrapping_total svc env targetIndex tr :
  exists resp evs,
    handleBootstrapping svc env targetIndex tr = (Done resp, tr ++ evs).
Proof.
  destruct (loaderLoad svc
       (tr ++ [EvConsole log (MsgRunning targetIndex); EvCreateIndex targetIndex;
               EvHasVectors targetIndex; EvConsole log MsgLoading]))
    as [e | documents] eqn:Hload.
  - destruct (handleBootstrapping_run svc env targetIndex tr [])
      as (resp & evs & Hrun & _); [congruence |]. by exists resp, evs.
  - destruct (handleBootstrapping_run svc env targetIndex tr documents)
      as (resp & evs & Hrun & _); [congruence |]. by exists resp, evs.
Qed.

(** C6: in a run of [handleBootstrapping] in which the loader returns
    [documents], the documents handed to the splitter are the loaded ones
    whose content is valid, in their order; every vector handed to
    [index.upsert] is made from a chunk whose content is valid; and content
    is valid exactly when, trimmed, it is not empty and is shorter than 8192
    characters.  So a document whose trimmed text is empty or reaches the
    bound is neither chunked nor upserted. *)
Theorem handleBootstrapping_excludes_invalid_content
    svc env targetIndex tr documents :
  loaderLoad svc
    (tr ++ [EvConsole log (MsgRunning targetIndex); EvCreateIndex targetIndex;
            EvHasVectors targetIndex; EvConsole log MsgLoading]) = inr documents ->
  exists resp evs,
    handleBootstrapping svc env targetIndex tr = (Done resp, tr ++ evs)
    /\ (forall chunkSize chunkOverlap docs,
          EvSplit chunkSize chunkOverlap docs ∈ evs ->
          map pageContent docs =
          List.filter isValidContent (map pageContent documents))
    /\ (forall index batch v,
          EvUpsert index batch ∈ evs -> v ∈ batch -> valid_vector v)
    /\ (forall content,
          isValidContent content = true <->
          (0 < Z.of_nat (String.length (trim content)) < 8192)%Z).
Proof.
  intros Hload.
  destruct (handleBootstrapping_run svc env targetIndex tr documents)
    as (resp & evs & Hrun & Hok); [congruence |].
  exists resp, evs. split; [exact Hrun |].
  rewrite Forall_forall in Hok. split; [| split].
  - intros cs co docs Hin. by destruct (Hok _ Hin) as (_ & _ & Hdocs).
  - intros index batch v Hin Hv. specialize (Hok _ Hin). cbn in Hok.
    rewrite Forall_forall in Hok. by apply Hok.
  - apply isValidContent_spec.
Qed.

Lemma handleBootstrapping_excludes_invalid_content_witness :
  exists resp evs,
    handleBootstrapping
      (sampleServices false [page "text"; blankPage; longPage] [] embed_ok upsert_ok)
      fullEnv "cases" [] = (Done resp, [] ++ evs)
    /\ (forall chunkSize chunkOverlap docs,
          EvSplit chunkSize chunkOverlap docs ∈ evs ->
          map pageContent docs =
          List.filter isValidContent
            (map pageContent [page "text"; blankPage; longPage]))
    /\ (forall index batch v,
          EvUpsert index batch ∈ evs -> v ∈ batch -> valid_vector v)
    /\ (forall content,
          isValidContent content = true <->
          (0 < Z.of_nat (String.length (trim content)) < 8192)%Z).
Proof.
  apply (handleBootstrapping_excludes_invalid_content
           (sampleServices false [page "text"; blankPage; longPage] []
              embed_ok upsert_ok)
           fullEnv "cases" [] [page "text"; blankPage; longPage]).
  reflexivity.
Defined.

(** Of a page with text, a blank page and a page of 8192 characters, the
    first alone is chunked, embedded and upserted. *)
Example handleBootstrapping_three_pages :
  let run :=
    handleBootstrapping
      (sampleServices false [page "text"; blankPage; longPage] [] embed_ok upsert_ok)
      fullEnv "cases" [] in
  run.1 = Done (json BSuccess 200)
  /\ split_inputs run.2 = [["text"]]
  /\ embedded run.2 = [["text"]]
  /\ upserted_contents run.2 = [[Some (JStr "text")]].
Proof. vm_compute. done. Qed.

(** The bound is strict: 8191 characters pass, 8192 do not; content is
    measured after trimming. *)
Example isValidContent_bounds :
  isValidContent (repeat_char (N.to_nat 8191) "x") = true
  /\ isValidContent (repeat_char (N.to_nat 8192) "x") = false
  /\ isValidContent "  a  " = true
  /\ isValidContent "   " = false
  /\ isValidContent "" = false.
Proof. vm_compute. done. Qed.

(** C5: when the index is there and [pineconeIndexHasVectors] answers true,
    [handleBootstrapping] answers success (200) at once: it has made the two
    requests about the index, written two lines to the console, and has
    embedded and upserted nothing.  The same holds each time it is invoked. *)
Theorem handleBootstrapping_skips_populated_index svc env targetIndex tr :
  createIndexIfNecessary svc (tr ++ [EvConsole log (MsgRunning targetIndex)])
    targetIndex = inr tt ->
  pineconeIndexHasVectors svc
    (tr ++ [EvConsole log (MsgRunning targetIndex); EvCreateIndex targetIndex])
    targetIndex = inr true ->
  exists evs,
    handleBootstrapping svc env targetIndex tr =
      (Done (json BSuccess 200), tr ++ evs)
    /\ evs = [EvConsole log (MsgRunning targetIndex);
              EvCreateIndex targetIndex; EvHasVectors targetIndex;
              EvConsole log (MsgAlreadyHasVectors targetIndex)]
    /\ embedded evs = [] /\ upserted evs = [].
Proof.
  intros Hcreate Hhas. eexists. split; [| split; [reflexivity | done]].
  unfold handleBootstrapping, try_catch, bootstrap_try, console, emit, call,
    mbind, M_bind, mret, M_ret.
  rewrite Hcreate. rewrite <- !app_assoc. cbn [app]. rewrite Hhas.
  rewrite <- !app_assoc. reflexivity.
Qed.

Lemma handleBootstrapping_skips_populated_index_witness :
  exists evs,
    handleBootstrapping (sampleServices true [page "text"] [] embed_ok upsert_ok)
      fullEnv "cases" [] = (Done (json BSuccess 200), [] ++ evs)
    /\ evs = [EvConsole log (MsgRunning "cases");
              EvCreateIndex "cases"; EvHasVectors "cases";
              EvConsole log (MsgAlreadyHasVectors "cases")]
    /\ embedded evs = [] /\ upserted evs = [].
Proof.
  apply (handleBootstrapping_skips_populated_index
           (sampleServices true [page "text"] [] embed_ok upsert_ok)
           fullEnv "cases" []).
  - reflexivity.
  - reflexivity.
Defined.

(** Seven chunks, the second upsert fails.  The first batch of five is
    embedded; its slice of two is upserted, its second slice fails, its fifth
    vector is never sent; the error is written to the console once.  The
    second batch of two is then embedded and upserted.  The first slice is
    not withdrawn, the failed slice is not sent again, and the answer is
    success. *)
Example handleBootstrapping_second_upsert_fails :
  let run :=
    handleBootstrapping
      (sampleServices false sevenPages [] embed_ok upsert_second_fails)
      fullEnv "cases" [] in
  run.1 = Done (json BSuccess 200)
  /\ embedded run.2 = [["c1"; "c2"; "c3"; "c4"; "c5"]; ["c6"; "c7"]]
  /\ upserted_contents run.2 =
       [[Some (JStr "c1"); Some (JStr "c2")];
        [Some (JStr "c3"); Some (JStr "c4")];
        [Some (JStr "c6"); Some (JStr "c7")]]
  /\ batch_errors run.2 = [(1, Error "upsert failed")].
Proof. vm_compute. done. Qed.

(** The splitter is called with a chunk size of 1000 and an overlap of 200,
    and with nothing else; what it returns is its own affair. *)
Lemma handleBootstrapping_splitter_options svc env targetIndex tr :
  exists resp evs,
    handleBootstrapping svc env targetIndex tr = (Done resp, tr ++ evs)
    /\ forall chunkSize chunkOverlap docs,
         EvSplit chunkSize chunkOverlap docs ∈ evs ->
         chunkSize = 1000 /\ chunkOverlap = 200.
Proof.
  destruct (loaderLoad svc
       (tr ++ [EvConsole log (MsgRunning targetIndex); EvCreateIndex targetIndex;
               EvHasVectors targetIndex; EvConsole log MsgLoading]))
    as [e | documents] eqn:Hload.
  - destruct (handleBootstrapping_run svc env targetIndex tr [])
      as (resp & evs & Hrun & Hok); [congruence |].
    exists resp, evs. split; [done |]. intros cs co docs Hin.
    rewrite Forall_forall in Hok. by destruct (Hok _ Hin) as (? & ? & _).
  - destruct (handleBootstrapping_run svc env targetIndex tr documents)
      as (resp & evs & Hrun & Hok); [congruence |].
    exists resp, evs. split; [done |]. intros cs co docs Hin.
    rewrite Forall_forall in Hok. by destruct (Hok _ Hin) as (? & ? & _).
Qed.

(** ** Configuration in the bootstrap service *)

(** What throws before anything is done throws before any request. *)
Lemma fails_before_any_call_external {A} (m : M A) :
  fails_before_any_call m -> throws_before_external_calls m.
Proof.
  intros Hfails tr. destruct (Hfails tr) as [e He].
  exists e, []. rewrite app_nil_r. by split.
Qed.

(** The search route with a value unset throws before any request. *)
Lemma search_try_throws_before_external_calls svc env q :
  missing_configuration env = true ->
  throws_before_external_calls (search_try svc env q).
Proof.
  intros Hmissing. apply fails_before_any_call_external. intros tr.
  unfold missing_configuration in Hmissing.
  unfold search_try, throw_if, throw, mbind, M_bind, mret, M_ret.
  destruct (unset (PINECONE_API_KEY env)); [by eexists |].
  destruct (unset (PINECONE_INDEX env)); [by eexists |].
  destruct (unset (VOYAGE_API_KEY env)); [by eexists | discriminate].
Qed.

(** C3 (as stated) fails for ingestion: with the vector store configured
    and the embeddings key unset, the [try] block of [handleBootstrapping]
    does not throw before any request: it has asked the vector store to
    create the index, and whether the index holds vectors, before anything
    looks at the embeddings key. *)
Lemma bootstrap_try_requests_before_configuration_check :
  missing_configuration envWithoutVoyageKey = true /\
  ~ throws_before_external_calls
      (bootstrap_try
         (withVoyageKeyRequired
            (sampleServices false [page "text"] [] embed_ok upsert_ok))
         envWithoutVoyageKey "cases").
Proof.
  split; [reflexivity |].
  intros Hthrows. destruct (Hthrows []) as (e & evs & Hrun & Hquiet).
  vm_compute in Hrun. injection Hrun as _ <-.
  apply Forall_cons in Hquiet as [_ Hquiet].
  apply Forall_cons in Hquiet as [Hcreate _].
  discriminate Hcreate.
Qed.

(** The run behind the counterexample: the source never tests
    VOYAGE_API_KEY; the two requests about the index, the loading and the
    splitting are done when the construction of the embeddings client, in
    the first batch, throws; the answer is 500. *)
Example handleBootstrapping_without_voyage_key :
  handleBootstrapping
    (withVoyageKeyRequired
       (sampleServices false [page "text"] [] embed_ok upsert_ok))
    envWithoutVoyageKey "cases" [] =
  (Done (json (BError "Bootstrap procedure failed") 500),
   [EvConsole log (MsgRunning "cases"); EvCreateIndex "cases";
    EvHasVectors "cases"; EvConsole log MsgLoading; EvLoad; EvReadFile;
    EvConsole log (MsgFound 1 1); EvSplit 1000 200 [page "text"];
    EvConsole log (MsgSplit 1 1); EvConsole log (MsgProcessingBatch 1 1);
    EvUuid;
    EvConsole error (MsgBootstrapError (Error "Voyage AI API key not found"))]).
Proof. vm_compute. reflexivity. Qed.

(** With the embeddings key unset and an index that holds vectors, nothing
    is thrown at all: the answer is success after the two requests. *)
Example handleBootstrapping_populated_without_voyage_key :
  handleBootstrapping
    (withVoyageKeyRequired
       (sampleServices true [page "text"] [] embed_ok upsert_ok))
    envWithoutVoyageKey "cases" [] =
  (Done (json BSuccess 200),
   [EvConsole log (MsgRunning "cases"); EvCreateIndex "cases";
    EvHasVectors "cases"; EvConsole log (MsgAlreadyHasVectors "cases")]).
Proof. reflexivity. Qed.

(** The one test of PINECONE_API_KEY in [handleBootstrapping] is inside the
    batch, after the embedding request.  In a world where the requests about
    the index are answered although the key is unset, the error is thrown
    after that request, is caught with the batch, and the answer is
    success. *)
Example handleBootstrapping_without_pinecone_key :
  handleBootstrapping (sampleServices false [page "text"] [] embed_ok upsert_ok)
    envWithoutPineconeKey "cases" [] =
  (Done (json BSuccess 200),
   [EvConsole log (MsgRunning "cases"); EvCreateIndex "cases";
    EvHasVectors "cases"; EvConsole log MsgLoading; EvLoad; EvReadFile;
    EvConsole log (MsgFound 1 1); EvSplit 1000 200 [page "text"];
    EvConsole log (MsgSplit 1 1); EvConsole log (MsgProcessingBatch 1 1);
    EvUuid; EvConsole log (MsgGeneratingEmbeddings 1); EvEmbed ["text"];
    EvConsole log (MsgGenerated 1);
    EvConsole error
      (MsgBatchError 1 (Error "PINECONE_API_KEY environment variable is not set"));
    EvSleep 2000; EvConsole log MsgCompleted]).
Proof. vm_compute. reflexivity. Qed.

(** ** The ingest route *)

(** Whatever [handleBootstrapping] returns, the ingest route answers success. *)
Lemma POST_ingest_discards_response svc env targetIndex tr resp tr' :
  handleBootstrapping svc env targetIndex tr = (Done resp, tr') ->
  POST_ingest svc env targetIndex tr = (Done (json BSuccess 200), tr').
Proof.
  intros Hrun. unfold POST_ingest, mbind, M_bind. rewrite Hrun. reflexivity.
Qed.

(** C1 (defect of the code): with no PDF in the docs directory,
    [handleBootstrapping] builds the answer 400, No documents found in the
    docs directory; the ingest route drops it and answers success, 200. *)
Theorem POST_ingest_answers_200_without_documents :
  handleBootstrapping (sampleServices false [] [] embed_ok upsert_ok)
    fullEnv "cases" [] =
    (Done (json (BError "No documents found in the docs directory") 400),
     [EvConsole log (MsgRunning "cases"); EvCreateIndex "cases";
      EvHasVectors "cases"; EvConsole log MsgLoading; EvLoad;
      EvConsole log MsgNoPdf])
  /\ POST_ingest (sampleServices false [] [] embed_ok upsert_ok)
       fullEnv "cases" [] =
     (Done (json BSuccess 200),
      [EvConsole log (MsgRunning "cases"); EvCreateIndex "cases";
       EvHasVectors "cases"; EvConsole log MsgLoading; EvLoad;
       EvConsole log MsgNoPdf]).
Proof. split; reflexivity. Qed.

(** The ingest route answers success, 200, on every request. *)
Lemma POST_ingest_always_200 svc env targetIndex tr :
  exists evs,
    POST_ingest svc env targetIndex tr = (Done (json BSuccess 200), tr ++ evs).
Proof.
  destruct (handleBootstrapping_total svc env targetIndex tr)
    as (resp & evs & Hrun).
  exists evs. by apply (POST_ingest_discards_response _ _ _ _ resp).
Qed.

(** * Further properties *)

(** ** [trim] and [isValidContent] *)

Lemma trimStart_idempotent s : trimStart (trimStart s) = trimStart s.
Proof.
  induction s as [| c s IH]; [reflexivity |].
  cbn. destruct (is_white_space c) eqn:E; [exact IH |].
  cbn. by rewrite E.
Qed.

Lemma trimEnd_idempotent s : trimEnd (trimEnd s) = trimEnd s.
Proof.
  induction s as [| c s IH]; [reflexivity |].
  cbn. destruct (trimEnd s) as [| d t] eqn:E.
  - destruct (is_white_space c) eqn:Ec; [reflexivity |]. cbn. by rewrite Ec.
  - cbn [trimEnd] in *. by rewrite IH.
Qed.

Lemma trimStart_no_leading_space s : no_leading_space (trimStart s).
Proof.
  induction s as [| c s IH]; [done |].
  cbn. by destruct (is_white_space c) eqn:E.
Qed.

Lemma trimStart_fixed s : no_leading_space s -> trimStart s = s.
Proof. destruct s as [| c s]; [done |]. cbn. by intros ->. Qed.

Lemma trimEnd_no_leading_space s :
  no_leading_space s -> no_leading_space (trimEnd s).
Proof.
  destruct s as [| c s]; [done |]. cbn. intros Hc.
  destruct (trimEnd s); [by rewrite Hc | done].
Qed.

Lemma trim_idempotent s : trim (trim s) = trim s.
Proof.
  unfold trim.
  rewrite (trimStart_fixed (trimEnd (trimStart s))).
  - apply trimEnd_idempotent.
  - apply trimEnd_no_leading_space, trimStart_no_leading_space.
Qed.

Lemma isValidContent_trim_eq content :
  isValidContent (trim content) = isValidContent content.
Proof.
  apply Bool.eq_iff_eq_true.
  rewrite !isValidContent_spec, trim_idempotent. reflexivity.
Qed.

(** X1: whether content is valid depends on the trimmed content only, and
    trimming is idempotent: the trimmed text that [castedBatch] keeps of a
    valid chunk is itself valid, and trimming it again, as the embedding
    request does, changes nothing. *)
Theorem isValidContent_trim content :
  isValidContent (trim content) = isValidContent content
  /\ trim (trim content) = trim content.
Proof. split; [apply isValidContent_trim_eq | apply trim_idempotent]. Qed.

(** ** [flattenMetadata] *)

(** ** [flattenMetadata] *)

Lemma flattenMetadata_steps md : flattenMetadata md = flatten_loc (flatten_pdf md).
Proof.
  unfold flattenMetadata, flatten_loc, flatten_pdf.
  destruct (md !! "pdf") as [pdf |]; [| reflexivity].
  destruct (truthy pdf); reflexivity.
Qed.

Lemma flatten_loc_lookup md key :
  flatten_loc md !! key =
  if decide (key = "loc") then
    if truthy_opt (md !! "loc") then None else md !! "loc"
  else md !! key.
Proof.
  unfold flatten_loc.
  destruct (md !! "loc") as [loc |] eqn:Hloc; cbn [truthy_opt].
  - destruct (truthy loc); case_decide; simplify_map_eq; done.
  - case_decide; simplify_map_eq; done.
Qed.

Lemma flatten_pdf_lookup md key :
  flatten_pdf md !! key =
  if decide (key = "pdf") then
    if truthy_opt (md !! "pdf") then None else md !! "pdf"
  else if decide (key = "totalPages") then
    match pdf_pageCount md with
    | Some pageCount => Some pageCount
    | None => md !! "totalPages"
    end
  else md !! key.
Proof.
  unfold flatten_pdf, pdf_pageCount.
  destruct (md !! "pdf") as [pdf |] eqn:Hpdf; cbn [truthy_opt].
  - destruct (truthy pdf).
    + destruct (field pdf "pageCount") as [pc |]; [destruct (truthy pc) |];
        repeat case_decide; simplify_map_eq; done.
    + repeat case_decide; simplify_map_eq; done.
  - repeat case_decide; simplify_map_eq; done.
Qed.

Lemma flattenMetadata_lookup md key :
  flattenMetadata md !! key = flattened_lookup md key.
Proof.
  rewrite flattenMetadata_steps, flatten_loc_lookup, !flatten_pdf_lookup.
  unfold flattened_lookup.
  destruct (decide (key = "loc")) as [-> | Hloc].
  - rewrite !(decide_False (P := "loc" = "pdf")) by done.
    rewrite !(decide_False (P := "loc" = "totalPages")) by done.
    reflexivity.
  - reflexivity.
Qed.

(** X2: [flattenMetadata] touches three keys only: every key other than
    [pdf], [loc] and [totalPages] keeps its value, or stays absent. *)
Theorem flattenMetadata_keeps_other_keys md key :
  key <> "pdf" -> key <> "loc" -> key <> "totalPages" ->
  flattenMetadata md !! key = md !! key.
Proof.
  intros Hpdf Hloc Htotal. rewrite flattenMetadata_lookup. unfold flattened_lookup.
  by rewrite !decide_False.
Qed.

Lemma flattenMetadata_keeps_other_keys_witness :
  flattenMetadata
    {[ "pdf" := JObj [("pageCount", JNum 12)]; "loc" := JObj [];
       "source" := JStr "docs/case.pdf" ]} !! "source" =
  ({[ "pdf" := JObj [("pageCount", JNum 12)]; "loc" := JObj [];
      "source" := JStr "docs/case.pdf" ]} : gmap string JsVal) !! "source".
Proof.
  apply (flattenMetadata_keeps_other_keys
           {[ "pdf" := JObj [("pageCount", JNum 12)]; "loc" := JObj [];
              "source" := JStr "docs/case.pdf" ]} "source");
    discriminate.
Defined.

Lemma flattenMetadata_falsy md :
  truthy_opt (flattenMetadata md !! "pdf") = false
  /\ truthy_opt (flattenMetadata md !! "loc") = false.
Proof.
  rewrite !flattenMetadata_lookup. unfold flattened_lookup.
  rewrite decide_True by done.
  rewrite (decide_False (P := "loc" = "pdf")) by done.
  rewrite decide_True by done.
  split.
  - by destruct (truthy_opt (md !! "pdf")) eqn:E.
  - by destruct (truthy_opt (md !! "loc")) eqn:E.
Qed.

Lemma pdf_pageCount_falsy md :
  truthy_opt (md !! "pdf") = false -> pdf_pageCount md = None.
Proof.
  unfold pdf_pageCount. destruct (md !! "pdf") as [pdf |]; [| done].
  cbn. by intros ->.
Qed.

(** X3: flattening twice is flattening once; [flattenMetadata] leaves no
    truthy [pdf] and no truthy [loc]; and it removes nothing else under
    these keys: a [pdf] or [loc] that is falsy, or absent, is left as it
    is. *)
Theorem flattenMetadata_idempotent md :
  flattenMetadata (flattenMetadata md) = flattenMetadata md
  /\ truthy_opt (flattenMetadata md !! "pdf") = false
  /\ truthy_opt (flattenMetadata md !! "loc") = false
  /\ flattenMetadata md !! "pdf" =
     (if truthy_opt (md !! "pdf") then None else md !! "pdf")
  /\ flattenMetadata md !! "loc" =
     (if truthy_opt (md !! "loc") then None else md !! "loc").
Proof.
  destruct (flattenMetadata_falsy md) as [Hpdf Hloc].
  split; [| split; [done | split; [done |]]].
  - apply map_eq. intros key.
    rewrite (flattenMetadata_lookup (flattenMetadata md)). unfold flattened_lookup.
    rewrite Hpdf, Hloc, (pdf_pageCount_falsy _ Hpdf).
    repeat case_decide; by subst.
  - rewrite !flattenMetadata_lookup. unfold flattened_lookup.
    rewrite decide_True by done.
    rewrite (decide_False (P := "loc" = "pdf")) by done.
    rewrite decide_True by done. done.
Qed.

(** A [pdf] that is [null] stays, a [loc] that is an object goes. *)
Example flattenMetadata_null_pdf :
  flattenMetadata {[ "pdf" := JNull; "loc" := JObj [] ]} = {[ "pdf" := JNull ]}.
Proof. by vm_compute. Qed.

(** X4: when [metadata.pdf] is truthy and has a truthy [pageCount], the
    flattened metadata has that page count under [totalPages], whatever was
    there before, and has no [pdf]. *)
Theorem flattenMetadata_totalPages md pdf pageCount :
  md !! "pdf" = Some pdf -> truthy pdf = true ->
  field pdf "pageCount" = Some pageCount -> truthy pageCount = true ->
  flattenMetadata md !! "totalPages" = Some pageCount
  /\ flattenMetadata md !! "pdf" = None.
Proof.
  intros Hpdf Hpt Hpc Hpct.
  rewrite !flattenMetadata_lookup. unfold flattened_lookup, pdf_pageCount.
  rewrite Hpdf. cbn [truthy_opt]. rewrite Hpt, Hpc, Hpct.
  repeat case_decide; by simplify_eq.
Qed.

Lemma flattenMetadata_totalPages_witness :
  flattenMetadata
    {[ "pdf" := JObj [("pageCount", JNum 12)]; "totalPages" := JNum 1 ]}
    !! "totalPages" = Some (JNum 12)
  /\ flattenMetadata
       {[ "pdf" := JObj [("pageCount", JNum 12)]; "totalPages" := JNum 1 ]}
       !! "pdf" = None.
Proof.
  apply (flattenMetadata_totalPages
           {[ "pdf" := JObj [("pageCount", JNum 12)]; "totalPages" := JNum 1 ]}
           (JObj [("pageCount", JNum 12)]) (JNum 12));
    reflexivity.
Defined.

(** ** More on the deduplication *)

Lemma Map_set_fresh {K V} `{EqDecision K} (m : list (K * V)) k v :
  k ∉ m.*1 -> Map_set k v m = m ++ [(k, v)].
Proof.
  induction m as [| [k' v'] m IH]; cbn [Map_set]; intros Hk; [reflexivity |].
  cbn in Hk. apply not_elem_of_cons in Hk as [Hne Hk].
  rewrite decide_False by done. cbn. by rewrite IH.
Qed.

Lemma Map_new_distinct {K V} `{EqDecision K} (es : list (K * V)) :
  NoDup es.*1 -> Map_new es = es.
Proof.
  induction es as [| [k v] es IH] using rev_ind; [reflexivity |].
  rewrite fmap_app. intros Hnd. apply NoDup_app in Hnd as (Hnd & Hdisj & _).
  rewrite Map_new_snoc, IH by done.
  apply Map_set_fresh. intros Hin. apply (Hdisj _ Hin). cbn. left.
Qed.

Lemma title_entries_values (l : list Document) : (map title_entry l).*2 = l.
Proof. induction l; cbn; congruence. Qed.

(** X5: on a retrieved list whose titles are all different the
    deduplication changes nothing: no result is dropped and the order is
    kept. *)
Theorem uniqueResults_distinct_titles (retrieved : list Document) :
  NoDup (map title retrieved) -> uniqueResults retrieved = retrieved.
Proof.
  intros Hnd. rewrite uniqueResults_unfold, Map_new_distinct.
  - apply title_entries_values.
  - by rewrite title_entries_keys.
Qed.

Lemma uniqueResults_distinct_titles_witness :
  uniqueResults [smith1; titled "other chunk" "Doe v. Roe"] =
  [smith1; titled "other chunk" "Doe v. Roe"].
Proof.
  apply (uniqueResults_distinct_titles [smith1; titled "other chunk" "Doe v. Roe"]).
  apply NoDup_ListNoDup. repeat constructor; cbn; intuition discriminate.
Defined.

Lemma first_seen_length {K} `{EqDecision K} (l : list K) :
  length (first_seen l) <= length l.
Proof.
  induction l as [| x l IH]; cbn; [lia |].
  pose proof (List.filter_length_le
                (fun y => negb (bool_decide (y = x))) (first_seen l)). lia.
Qed.

(** X6: the deduplication invents nothing and is stable: every result it
    keeps is one of the retrieved results, there are at most as many, and
    deduplicating a second time changes nothing. *)
Theorem uniqueResults_subset_idempotent (retrieved : list Document) :
  Forall (fun r => r ∈ retrieved) (uniqueResults retrieved)
  /\ length (uniqueResults retrieved) <= length retrieved
  /\ uniqueResults (uniqueResults retrieved) = uniqueResults retrieved.
Proof.
  split; [| split].
  - apply Forall_forall. intros r Hr. rewrite uniqueResults_unfold in Hr.
    apply list_elem_of_fmap in Hr as ([k r'] & -> & Hin).
    by apply Map_new_title_entries in Hin as [_ Hin].
  - rewrite <- (length_map title (uniqueResults retrieved)), uniqueResults_titles.
    rewrite <- (length_map title retrieved). apply first_seen_length.
  - apply uniqueResults_distinct_titles, uniqueResults_NoDup.
Qed.

(** ** More on the search route *)

(** X7: the search route throws in two cases only, both before its [try]:
    the body of the request is not JSON, or it is [null].  On every other
    body it returns a response: 400 with nothing done; or 500 with the
    generic message and the error written to the console; or 200 with
    results that are all among the retrieved ones, and are the deduplicated
    list when the retrieved titles are primitive values or absent.  At most
    one request goes to the provider, for the configured index, with k = 20,
    fetchK = 100 and lambda = 1/2. *)
Theorem POST_search_request_answers svc env body tr :
  match body with
  | inl e => POST_search_request svc env body tr = (Throw e, tr)
  | inr JNull => exists e, POST_search_request svc env body tr = (Throw e, tr)
  | inr v =>
      exists resp evs,
        POST_search_request svc env body tr = (Done resp, tr ++ evs)
        /\ ((resp = json (BError "Query is required") 400 /\ evs = [])
            \/ (resp = json (BError "Error searching for query") 500
                /\ exists e,
                     evs = [EvConsole error (MsgSearchError e)]
                     \/ exists q,
                          field v "query" = Some q /\
                          evs = [EvConsole log (MsgSearching q);
                                 EvSearch (default "" (PINECONE_INDEX env)) q
                                   searchOptions;
                                 EvConsole error (MsgSearchError e)])
            \/ (exists q retrieved results,
                  field v "query" = Some q
                  /\ maxMarginalRelevanceSearch svc
                       (tr ++ [EvConsole log (MsgSearching q)])
                       (default "" (PINECONE_INDEX env)) q searchOptions
                     = inr retrieved
                  /\ resp = json (BResults results) 200
                  /\ Forall (fun r => r ∈ retrieved) results
                  /\ (Forall primitive_title retrieved ->
                      results = uniqueResults retrieved)
                  /\ evs = [EvConsole log (MsgSearching q);
                            EvSearch (default "" (PINECONE_INDEX env)) q
                              searchOptions]))
  end.
Proof.
  assert (Hsearch : forall query, exists resp evs,
    POST_search svc env query tr = (Done resp, tr ++ evs)
    /\ ((resp = json (BError "Query is required") 400 /\ evs = [])
        \/ (resp = json (BError "Error searching for query") 500
            /\ exists e,
                 evs = [EvConsole error (MsgSearchError e)]
                 \/ exists q,
                      query = Some q /\
                      evs = [EvConsole log (MsgSearching q);
                             EvSearch (default "" (PINECONE_INDEX env)) q
                               searchOptions;
                             EvConsole error (MsgSearchError e)])
        \/ (exists q retrieved results,
              query = Some q
              /\ maxMarginalRelevanceSearch svc
                   (tr ++ [EvConsole log (MsgSearching q)])
                   (default "" (PINECONE_INDEX env)) q searchOptions
                 = inr retrieved
              /\ resp = json (BResults results) 200
              /\ Forall (fun r => r ∈ retrieved) results
              /\ (Forall primitive_title retrieved ->
                  results = uniqueResults retrieved)
              /\ evs = [EvConsole log (MsgSearching q);
                        EvSearch (default "" (PINECONE_INDEX env)) q
                          searchOptions]))).
  { intros query. unfold POST_search. destruct query as [q |].
    2: { eexists _, []. rewrite app_nil_r. split; [reflexivity | by left]. }
    destruct (truthy q); cbn [negb].
    2: { eexists _, []. rewrite app_nil_r. split; [reflexivity | by left]. }
    unfold try_catch, search_try, search_catch, throw_if, construct, console,
      emit, call, throw, mbind, M_bind, mret, M_ret.
    destruct (unset (PINECONE_API_KEY env));
      [eexists _, [_]; split; [reflexivity | right; left; split; [done |]; eexists; by left] |].
    destruct (unset (PINECONE_INDEX env));
      [eexists _, [_]; split; [reflexivity | right; left; split; [done |]; eexists; by left] |].
    destruct (unset (VOYAGE_API_KEY env));
      [eexists _, [_]; split; [reflexivity | right; left; split; [done |]; eexists; by left] |].
    destruct (newVoyageEmbeddings svc _);
      [eexists _, [_]; split; [reflexivity | right; left; split; [done |]; eexists; by left] |].
    destruct (template_throws q);
      [eexists _, [_]; split; [reflexivity | right; left; split; [done |]; eexists; by left] |].
    destruct (maxMarginalRelevanceSearch svc _ _ _ _) as [e | retrieved] eqn:Hmmr.
    - eexists _, [_; _; _]. rewrite <- !app_assoc. split; [reflexivity |].
      right; left. split; [done |]. exists e. right. by exists q.
    - eexists _, [_; _]. rewrite <- !app_assoc. split; [reflexivity |].
      right; right. exists q, retrieved, (uniqueResults retrieved).
      repeat split; try done.
      apply Forall_forall. intros r Hr. rewrite uniqueResults_unfold in Hr.
      apply list_elem_of_fmap in Hr as ([k r'] & -> & Hin).
      by apply Map_new_title_entries in Hin as [_ Hin]. }
  destruct body as [e | v]; [reflexivity |].
  destruct v; try (by eexists); apply Hsearch.
Qed.

(** X8: when the similarity search fails on a query string, the request is
    answered by 500 and the generic message; the error is written to the
    console and is not part of the response. *)
Theorem POST_search_provider_failure svc env q tr e :
  q <> "" ->
  missing_configuration env = false ->
  newVoyageEmbeddings svc (VOYAGE_API_KEY env) = None ->
  maxMarginalRelevanceSearch svc (tr ++ [EvConsole log (MsgSearching (JStr q))])
    (default "" (PINECONE_INDEX env)) (JStr q) searchOptions = inl e ->
  POST_search svc env (Some (JStr q)) tr =
    (Done (json (BError "Error searching for query") 500),
     tr ++ [EvConsole log (MsgSearching (JStr q));
            EvSearch (default "" (PINECONE_INDEX env)) (JStr q) searchOptions;
            EvConsole error (MsgSearchError e)]).
Proof.
  intros Hq Hconf Hctor Hsearch.
  apply missing_configuration_false in Hconf as (Hpk & Hpi & Hvk).
  apply truthy_JStr in Hq.
  unfold POST_search. rewrite Hq. cbn [negb].
  unfold try_catch, search_try, search_catch, throw_if, construct, console,
    emit, call, mbind, M_bind, mret, M_ret.
  cbn [template_throws].
  rewrite Hpk, Hpi, Hvk, Hctor, Hsearch, <- !app_assoc. reflexivity.
Qed.

Lemma POST_search_provider_failure_witness :
  POST_search
    (withSearch (sampleServices true [] [] embed_ok upsert_ok)
       (fun _ _ _ _ => inl timeoutError))
    fullEnv (Some (JStr "breach of contract")) [] =
    (Done (json (BError "Error searching for query") 500),
     [] ++ [EvConsole log (MsgSearching (JStr "breach of contract"));
            EvSearch (default "" (PINECONE_INDEX fullEnv))
              (JStr "breach of contract") searchOptions;
            EvConsole error (MsgSearchError timeoutError)]).
Proof.
  apply (POST_search_provider_failure
           (withSearch (sampleServices true [] [] embed_ok upsert_ok)
              (fun _ _ _ _ => inl timeoutError))
           fullEnv "breach of contract" [] timeoutError);
    [discriminate | reflexivity ..].
Defined.

(** An object with a property [toString] of its own cannot be written into
    the log line: the route answers 500 and sends no request. *)
Example POST_search_query_with_toString :
  POST_search_request (sampleServices true [] [smith1] embed_ok upsert_ok)
    fullEnv (inr (JObj [("query", JObj [("toString", JNum 1)])])) [] =
  (Done (json (BError "Error searching for query") 500),
   [EvConsole error
      (MsgSearchError (Error "Cannot convert object to primitive value"))]).
Proof. reflexivity. Qed.

(** ** The bootstrap trigger *)

(** X9: the bootstrap route answers success, 200, when the response to
    the request of [initiateBootstrapping] has a status in 200..299;
    otherwise [initiateBootstrapping] throws an error that names the status
    and the route throws with it.  Nothing is done after the request. *)
Theorem POST_bootstrap_status fetch PRODUCTION_URL env tr response tr1 :
  fetch (baseURL PRODUCTION_URL +:+ "/api/ingest") (PINECONE_INDEX env) tr
    = (Done response, tr1) ->
  initiateBootstrapping fetch PRODUCTION_URL (PINECONE_INDEX env) tr =
    (if (200 <=? status response) && (status response <=? 299)
     then Done tt
     else Throw (Error ("API request failed with status "
                        +:+ pretty (status response))),
     tr1)
  /\ POST_bootstrap fetch PRODUCTION_URL env tr =
    (if (200 <=? status response) && (status response <=? 299)
     then Done (json BSuccess 200)
     else Throw (Error ("API request failed with status "
                        +:+ pretty (status response))),
     tr1).
Proof.
  intros Hfetch.
  unfold POST_bootstrap, initiateBootstrapping, throw_if, throw, response_ok,
    mbind, M_bind, mret, M_ret.
  rewrite Hfetch. by destruct (_ && _).
Qed.

Lemma POST_bootstrap_status_witness :
  initiateBootstrapping (fetchStatus 504) None (PINECONE_INDEX fullEnv) [] =
    (if (200 <=? status (json (BError "failed") 504))
        && (status (json (BError "failed") 504) <=? 299)
     then Done tt
     else Throw (Error ("API request failed with status "
                        +:+ pretty (status (json (BError "failed") 504)))),
     [])
  /\ POST_bootstrap (fetchStatus 504) None fullEnv [] =
    (if (200 <=? status (json (BError "failed") 504))
        && (status (json (BError "failed") 504) <=? 299)
     then Done (json BSuccess 200)
     else Throw (Error ("API request failed with status "
                        +:+ pretty (status (json (BError "failed") 504)))),
     []).
Proof.
  apply (POST_bootstrap_status (fetchStatus 504) None fullEnv []
           (json (BError "failed") 504) []).
  reflexivity.
Defined.

(** The message for a gateway timeout. *)
Example POST_bootstrap_504 :
  POST_bootstrap (fetchStatus 504) None fullEnv [] =
  (Throw (Error "API request failed with status 504"), []).
Proof. vm_compute. reflexivity. Qed.

(** X10: when the request of the bootstrap trigger is served by the ingest
    route of this application, the bootstrap route answers success, 200, and
    never throws, whatever the ingestion did: its trace is the trace of the
    ingestion and nothing more. *)
Theorem POST_bootstrap_served_by_ingest svc env fetch PRODUCTION_URL
    targetIndex tr :
  served_by_ingest svc env fetch ->
  PINECONE_INDEX env = Some targetIndex ->
  exists resp evs,
    handleBootstrapping svc env targetIndex tr = (Done resp, tr ++ evs)
    /\ POST_bootstrap fetch PRODUCTION_URL env tr =
         (Done (json BSuccess 200), tr ++ evs).
Proof.
  intros Hserved Hindex.
  destruct (handleBootstrapping_total svc env targetIndex tr)
    as (resp & evs & Hrun).
  exists resp, evs. split; [exact Hrun |].
  unfold POST_bootstrap, initiateBootstrapping, throw_if, response_ok,
    mbind, M_bind, mret, M_ret.
  rewrite Hindex, Hserved.
  by rewrite (POST_ingest_discards_response _ _ _ _ _ _ Hrun).
Qed.

Lemma POST_bootstrap_served_by_ingest_witness :
  exists resp evs,
    handleBootstrapping (sampleServices false [] [] embed_ok upsert_ok)
      fullEnv "cases" [] = (Done resp, [] ++ evs)
    /\ POST_bootstrap
         (fetchIngest (sampleServices false [] [] embed_ok upsert_ok) fullEnv)
         None fullEnv [] = (Done (json BSuccess 200), [] ++ evs).
Proof.
  apply (POST_bootstrap_served_by_ingest
           (sampleServices false [] [] embed_ok upsert_ok) fullEnv
           (fetchIngest (sampleServices false [] [] embed_ok upsert_ok) fullEnv)
           None "cases" []).
  - intros url targetIndex tr. reflexivity.
  - reflexivity.
Defined.

(** ** More on the bootstrap service *)

(** X11: when the side file has an entry for the file of a document, the
    document keeps its text and gets the merged metadata: under
    [pageContent] its own text, under any other key the value of the entry
    if the entry has one (the entry overrides the loader, [source]
    included), else its own value.  The entry used is the first whose
    [filename] is the base name of the source; the trace is untouched. *)
Theorem mergeFileMetadata_merges svc metadataList doc tr source fileMetadata key :
  metadata doc !! "source" = Some (JStr source) ->
  List.find
    (fun meta => bool_decide
       (meta !! "filename" = Some (JStr (path_basename svc source))))
    metadataList = Some fileMetadata ->
  exists doc',
    mergeFileMetadata svc metadataList doc tr = (Done doc', tr)
    /\ pageContent doc' = pageContent doc
    /\ metadata doc' !! key =
       if decide (key = "pageContent") then Some (JStr (pageContent doc))
       else match fileMetadata !! key with
            | Some v => Some v
            | None => metadata doc !! key
            end.
Proof.
  intros Hsource Hfind. unfold mergeFileMetadata.
  destruct metadataList as [| meta metas]; [discriminate |].
  rewrite Hsource, Hfind. eexists. split; [reflexivity |]. split; [reflexivity |].
  cbn [metadata]. case_decide as Hkey.
  - subst. apply lookup_insert_eq.
  - rewrite lookup_insert_ne by done. rewrite lookup_union.
    destruct (fileMetadata !! key), (metadata doc !! key); reflexivity.
Qed.

Lemma mergeFileMetadata_merges_witness :
  exists doc',
    mergeFileMetadata (sampleServices false [] [] embed_ok upsert_ok)
      [caseMetadata] (page "text") [] = (Done doc', [])
    /\ pageContent doc' = pageContent (page "text")
    /\ metadata doc' !! "source" =
       if decide ("source" = "pageContent")
       then Some (JStr (pageContent (page "text")))
       else match caseMetadata !! "source" with
            | Some v => Some v
            | None => metadata (page "text") !! "source"
            end.
Proof.
  apply (mergeFileMetadata_merges
           (sampleServices false [] [] embed_ok upsert_ok)
           [caseMetadata] (page "text") [] "docs/case.pdf" caseMetadata "source");
    reflexivity.
Defined.

(** X12: a chunk of [castedBatch] has the trimmed text of its split, both
    as its text and under [pageContent]; under [id] the identifier that was
    generated for it; and under every other key what [flattenMetadata]
    leaves of the metadata of the split.  An [id] or a [pageContent] that
    the split already had is overwritten. *)
Theorem castSplit_metadata svc split tr key :
  key <> "id" -> key <> "pageContent" ->
  exists c,
    castSplit svc split tr = (Done c, tr ++ [EvUuid])
    /\ pageContent c = trim (pageContent split)
    /\ metadata c !! "id" = Some (JStr (uuidv4 svc tr))
    /\ metadata c !! "pageContent" = Some (JStr (trim (pageContent split)))
    /\ metadata c !! key = flattenMetadata (metadata split) !! key.
Proof.
  intros Hid Hpc. rewrite castSplit_run. eexists. split; [reflexivity |].
  cbn [pageContent metadata]. split; [reflexivity |].
  split; [| split].
  - rewrite lookup_insert_ne by done. apply lookup_insert_eq.
  - apply lookup_insert_eq.
  - by rewrite !lookup_insert_ne.
Qed.

Lemma castSplit_metadata_witness :
  exists c,
    castSplit (sampleServices false [] [] embed_ok upsert_ok)
      (mkDocument "  text  " {[ "id" := JStr "old"; "title" := JStr "T" ]}) []
      = (Done c, [] ++ [EvUuid])
    /\ pageContent c =
       trim (pageContent (mkDocument "  text  "
                            {[ "id" := JStr "old"; "title" := JStr "T" ]}))
    /\ metadata c !! "id" =
       Some (JStr (uuidv4 (sampleServices false [] [] embed_ok upsert_ok) []))
    /\ metadata c !! "pageContent" =
       Some (JStr (trim (pageContent (mkDocument "  text  "
                            {[ "id" := JStr "old"; "title" := JStr "T" ]}))))
    /\ metadata c !! "title" =
       flattenMetadata
         (metadata (mkDocument "  text  "
                      {[ "id" := JStr "old"; "title" := JStr "T" ]})) !! "title".
Proof.
  apply (castSplit_metadata (sampleServices false [] [] embed_ok upsert_ok)
           (mkDocument "  text  " {[ "id" := JStr "old"; "title" := JStr "T" ]})
           [] "title");
    discriminate.
Defined.

(** X13: when the index holds no vectors and the loader finds no document,
    [handleBootstrapping] answers 400, No documents found in the docs
    directory, at once: the side file is not read, nothing is split,
    embedded or upserted. *)
Theorem handleBootstrapping_no_documents svc env targetIndex tr :
  createIndexIfNecessary svc (tr ++ [EvConsole log (MsgRunning targetIndex)])
    targetIndex = inr tt ->
  pineconeIndexHasVectors svc
    (tr ++ [EvConsole log (MsgRunning targetIndex); EvCreateIndex targetIndex])
    targetIndex = inr false ->
  loaderLoad svc
    (tr ++ [EvConsole log (MsgRunning targetIndex); EvCreateIndex targetIndex;
            EvHasVectors targetIndex; EvConsole log MsgLoading]) = inr [] ->
  handleBootstrapping svc env targetIndex tr =
    (Done (json (BError "No documents found in the docs directory") 400),
     tr ++ [EvConsole log (MsgRunning targetIndex); EvCreateIndex targetIndex;
            EvHasVectors targetIndex; EvConsole log MsgLoading; EvLoad;
            EvConsole log MsgNoPdf]).
Proof.
  intros Hcreate Hhas Hload.
  unfold handleBootstrapping, try_catch, bootstrap_try, console, emit, call,
    mbind, M_bind, mret, M_ret.
  rewrite Hcreate. rewrite <- !app_assoc. cbn [app]. rewrite Hhas.
  rewrite <- !app_assoc. cbn [app]. rewrite Hload.
  unfold bootstrap_loaded, console, emit, mbind, M_bind, mret, M_ret.
  cbn [length Nat.eqb]. rewrite <- !app_assoc. reflexivity.
Qed.

Lemma handleBootstrapping_no_documents_witness :
  handleBootstrapping (sampleServices false [] [] embed_ok upsert_ok)
    fullEnv "cases" [] =
    (Done (json (BError "No documents found in the docs directory") 400),
     [] ++ [EvConsole log (MsgRunning "cases"); EvCreateIndex "cases";
            EvHasVectors "cases"; EvConsole log MsgLoading; EvLoad;
            EvConsole log MsgNoPdf]).
Proof.
  apply (handleBootstrapping_no_documents
           (sampleServices false [] [] embed_ok upsert_ok) fullEnv "cases" []);
    reflexivity.
Defined.

Lemma bootstrap_loaded_response svc env targetIndex documents tr resp tr' :
  bootstrap_loaded svc env targetIndex documents tr = (Done resp, tr') ->
  resp = json BSuccess 200
  \/ resp = json (BError "No documents found in the docs directory") 400.
Proof.
  unfold bootstrap_loaded.
  destruct (length documents =? 0).
  { unfold console, emit, mbind, M_bind, mret, M_ret. intros [= <- <-]. by right. }
  unfold mbind at 1, M_bind at 1.
  destruct (readMetadata svc tr) as [[metadataList | e |] tr1]; [| done | done].
  unfold mbind at 1, M_bind at 1.
  destruct (mapM _ _ tr1) as [[merged | e |] tr2]; [| done | done].
  unfold console, emit, call, mbind, M_bind, mret, M_ret.
  destruct (splitDocuments svc _ merged) as [e | splits]; [done |].
  destruct (for_step _ _ _ _ _ _) as [[[] | e |] tr3]; [| done | done].
  intros [= <- <-]. by left.
Qed.

Lemma bootstrap_try_response svc env targetIndex tr resp tr' :
  bootstrap_try svc env targetIndex tr = (Done resp, tr') ->
  resp = json BSuccess 200
  \/ resp = json (BError "No documents found in the docs directory") 400.
Proof.
  unfold bootstrap_try, console, emit, call, mbind, M_bind, mret, M_ret.
  destruct (createIndexIfNecessary svc _ _) as [e | []]; [done |].
  destruct (pineconeIndexHasVectors svc _ _) as [e | [|]]; [done | |].
  { intros [= <- <-]. by left. }
  destruct (loaderLoad svc _) as [e | documents]; [done |].
  apply bootstrap_loaded_response.
Qed.

(** X14: [handleBootstrapping] never throws and always returns one of four
    responses: success (200), no documents (400), timed out (504) or failed
    (500). *)
Theorem handleBootstrapping_responses svc env targetIndex tr :
  exists resp evs,
    handleBootstrapping svc env targetIndex tr = (Done resp, tr ++ evs)
    /\ bootstrap_response resp.
Proof.
  destruct (handleBootstrapping_total svc env targetIndex tr)
    as (resp & evs & Hrun).
  exists resp, evs. split; [exact Hrun |].
  unfold handleBootstrapping, try_catch in Hrun.
  destruct (bootstrap_try svc env targetIndex tr) as [[r | e |] tr1] eqn:Htry.
  - injection Hrun as -> _.
    destruct (bootstrap_try_response _ _ _ _ _ _ Htry) as [-> | ->];
      unfold bootstrap_response; auto.
  - destruct (bootstrap_catch_run e tr1) as (r & Hcatch & [-> | ->]);
      rewrite Hcatch in Hrun; injection Hrun as <- _;
      unfold bootstrap_response; auto.
  - discriminate.
Qed.

(** X15: when the first request, [createIndexIfNecessary], fails, nothing
    else is attempted: the error is written to the console and the answer is
    504 when the code of the error is UND_ERR_CONNECT_TIMEOUT, 500
    otherwise. *)
Theorem handleBootstrapping_index_failure svc env targetIndex tr e :
  createIndexIfNecessary svc (tr ++ [EvConsole log (MsgRunning targetIndex)])
    targetIndex = inl e ->
  handleBootstrapping svc env targetIndex tr =
    (Done (if bool_decide (code e = Some "UND_ERR_CONNECT_TIMEOUT")
           then json (BError "Operation timed out - please try again") 504
           else json (BError "Bootstrap procedure failed") 500),
     tr ++ [EvConsole log (MsgRunning targetIndex); EvCreateIndex targetIndex;
            EvConsole error (MsgBootstrapError e)]).
Proof.
  intros Hcreate.
  unfold handleBootstrapping, try_catch, bootstrap_try, bootstrap_catch,
    console, emit, call, mbind, M_bind, mret, M_ret.
  rewrite Hcreate. rewrite <- !app_assoc. cbn [app].
  by destruct (bool_decide _).
Qed.

Lemma handleBootstrapping_index_failure_witness :
  handleBootstrapping
    (withCreateIndex (sampleServices false [page "text"] [] embed_ok upsert_ok)
       (fun _ _ => inl timeoutError))
    fullEnv "cases" [] =
    (Done (if bool_decide (code timeoutError = Some "UND_ERR_CONNECT_TIMEOUT")
           then json (BError "Operation timed out - please try again") 504
           else json (BError "Bootstrap procedure failed") 500),
     [] ++ [EvConsole log (MsgRunning "cases"); EvCreateIndex "cases";
            EvConsole error (MsgBootstrapError timeoutError)]).
Proof.
  apply (handleBootstrapping_index_failure
           (withCreateIndex (sampleServices false [page "text"] [] embed_ok upsert_ok)
              (fun _ _ => inl timeoutError))
           fullEnv "cases" [] timeoutError).
  reflexivity.
Defined.

(** ** Every event of an ingestion run *)

(** A property [Q] of events that holds of whatever the code can do holds
    of every event of a run.  An upsert needs a provider that has returned
    embeddings and a vector-store key that is set. *)
Section EventInvariant.
Variables (svc : Services) (env : Env) (targetIndex : string).
Variable Q : Event -> Prop.
Hypothesis Qconsole : forall lvl msg, Q (EvConsole lvl msg).
Hypothesis Qcreate : Q (EvCreateIndex targetIndex).
Hypothesis Qhas : Q (EvHasVectors targetIndex).
Hypothesis Qload : Q EvLoad.
Hypothesis Qread : Q EvReadFile.
Hypothesis Qsplit : forall docs, Q (EvSplit 1000 200 docs).
Hypothesis Quuid : Q EvUuid.
Hypothesis Qembed :
  forall texts, 0 < length texts <= BATCH_SIZE -> Q (EvEmbed texts).
Hypothesis Qupsert :
  forall h texts emb embs batch,
    embedDocuments svc h texts = inr (Some (emb :: embs)) ->
    unset (PINECONE_API_KEY env) = false ->
    0 < length batch <= 2 ->
    Q (EvUpsert targetIndex batch).
Hypothesis Qsleep1 : Q (EvSleep 1000).
Hypothesis Qsleep2 : Q (EvSleep 2000).

Lemma batchUpserts_events vectors :
  (forall batch, 0 < length batch <= 2 -> Q (EvUpsert targetIndex batch)) ->
  forall fuel i tr, length vectors - i < fuel ->
  exists o evs,
    for_step fuel (length vectors) 2
      (batchUpserts_body svc targetIndex vectors 2) i tr = (o, tr ++ evs)
    /\ o <> OutOfFuel /\ Forall Q evs.
Proof.
  intros Qup. induction fuel as [| fuel IH]; intros i tr Hfuel; [lia |].
  cbn [for_step]. destruct (i <? length vectors) eqn:Hi.
  - apply Nat.ltb_lt in Hi.
    unfold mbind, M_bind. rewrite batchUpserts_body_run. cbn zeta.
    assert (Hev : Q (EvUpsert targetIndex (slice vectors i (i + 2)))).
    { apply Qup. apply slice_length; lia. }
    destruct (upsert svc _ targetIndex _) as [e | []].
    + exists (Throw e). eexists [_; _]. split; [reflexivity |].
      split; [done |]. by repeat constructor.
    + edestruct (IH (i + 2)) as (o & evs & -> & Ho & Hall); [lia |].
      exists o. eexists ([_; _] ++ evs).
      split; [rewrite <- !app_assoc; reflexivity |].
      split; [done |]. by repeat constructor.
  - exists (Done tt), []. rewrite app_nil_r. by repeat split.
Qed.

Lemma batch_try_events castedBatch i tr :
  0 < length castedBatch <= BATCH_SIZE ->
  exists o evs,
    batch_try svc env targetIndex castedBatch i tr = (o, tr ++ evs)
    /\ o <> OutOfFuel /\ Forall Q evs.
Proof.
  intros Hlen.
  assert (Hemb : Q (EvEmbed (map trim (map pageContent castedBatch)))).
  { apply Qembed. by rewrite !length_map. }
  unfold batch_try, throw_if, throw, sleep, console, emit, call, mbind, M_bind,
    mret, M_ret. cbn zeta.
  destruct (embedDocuments svc _ _) as [e | [[| emb embs] |]] eqn:Hembed.
  - eexists _, [_; _]. rewrite <- app_assoc.
    split; [reflexivity |]. split; [done |]. by repeat constructor.
  - eexists _, [_; _; _]. rewrite <- !app_assoc.
    split; [reflexivity |]. split; [done |]. by repeat constructor.
  - destruct (unset (PINECONE_API_KEY env)) eqn:Hpk.
    + eexists _, [_; _; _]. rewrite <- !app_assoc.
      split; [reflexivity |]. split; [done |]. by repeat constructor.
    + unfold batchUpserts.
      match goal with
      | |- context [for_step (S (length ?vs)) _ _ _ _ ?t] =>
          destruct (batchUpserts_events vs
                      (fun batch Hb => Qupsert _ _ _ _ batch Hembed eq_refl Hb)
                      (S (length vs)) 0 t ltac:(lia))
            as (o & evs & -> & Ho & Hall)
      end.
      destruct o as [[] | e |]; [| | done].
      * eexists _, ([_; _; _] ++ evs ++ [_]). rewrite <- !app_assoc.
        split; [reflexivity |]. split; [done |].
        repeat (constructor; [done |]). apply Forall_app. by repeat constructor.
      * eexists _, ([_; _; _] ++ evs). rewrite <- !app_assoc.
        split; [reflexivity |]. split; [done |].
        by repeat (constructor; [done |]).
  - eexists _, [_; _; _]. rewrite <- !app_assoc.
    split; [reflexivity |]. split; [done |]. by repeat constructor.
Qed.

Lemma processBatch_events splits i tr :
  exists o evs,
    processBatch svc env targetIndex splits i tr = (o, tr ++ evs)
    /\ o <> OutOfFuel /\ Forall Q evs.
Proof.
  unfold processBatch. cbn zeta.
  set (validBatch := List.filter _ (slice splits i (i + BATCH_SIZE))).
  assert (Hle : length validBatch <= BATCH_SIZE).
  { subst validBatch. etrans; [apply List.filter_length_le |].
    unfold slice. rewrite length_take. lia. }
  unfold console, emit, construct, throw, try_catch, mbind, M_bind, mret, M_ret.
  destruct (length validBatch =? 0) eqn:Hlen.
  - eexists _, [_; _]. rewrite <- app_assoc.
    split; [reflexivity |]. split; [done |]. by repeat constructor.
  - apply Nat.eqb_neq in Hlen.
    edestruct (mapM_castSplit_run svc validBatch)
      as (casted & evs1 & -> & Huuid & Hcasted).
    apply Forall2_length in Hcasted.
    assert (Hok1 : Forall Q evs1).
    { eapply Forall_impl; [exact Huuid |]. by intros ev ->. }
    destruct (newVoyageEmbeddings svc (VOYAGE_API_KEY env)) as [e |].
    + eexists _, (_ :: evs1). rewrite <- app_assoc.
      split; [reflexivity |]. split; [done |]. by constructor.
    + edestruct (batch_try_events casted i) as (o & evs2 & -> & Ho & Hok2); [lia |].
      destruct o as [[] | e |]; [| | done].
      * eexists _, ([_] ++ evs1 ++ evs2). rewrite <- !app_assoc.
        split; [reflexivity |]. split; [done |].
        constructor; [done |]. by apply Forall_app.
      * rewrite batch_catch_run.
        eexists _, ([_] ++ evs1 ++ evs2 ++ [_; _]). rewrite <- !app_assoc.
        split; [reflexivity |]. split; [done |].
        constructor; [done |]. apply Forall_app. split; [done |].
        apply Forall_app. split; [done | by repeat constructor].
Qed.

Lemma processBatch_loop_events splits :
  forall fuel i tr, length splits - i < fuel ->
  exists o evs,
    for_step fuel (length splits) BATCH_SIZE
      (processBatch svc env targetIndex splits) i tr = (o, tr ++ evs)
    /\ o <> OutOfFuel /\ Forall Q evs.
Proof.
  induction fuel as [| fuel IH]; intros i tr Hfuel; [lia |].
  cbn [for_step]. destruct (i <? length splits) eqn:Hi.
  - apply Nat.ltb_lt in Hi. unfold mbind, M_bind.
    destruct (processBatch_events splits i tr) as (o1 & evs1 & -> & Ho1 & Hok1).
    destruct o1 as [[] | e |]; [| | done].
    + edestruct (IH (i + BATCH_SIZE)) as (o & evs & -> & Ho & Hok);
        [unfold BATCH_SIZE; lia |].
      exists o, (evs1 ++ evs). rewrite <- app_assoc.
      split; [reflexivity |]. split; [done |]. by apply Forall_app.
    + exists (Throw e), evs1. by repeat split.
  - exists (Done tt), []. rewrite app_nil_r. by repeat split.
Qed.

Lemma bootstrap_loaded_events documents tr :
  exists o evs,
    bootstrap_loaded svc env targetIndex documents tr = (o, tr ++ evs)
    /\ o <> OutOfFuel /\ Forall Q evs.
Proof.
  unfold bootstrap_loaded.
  destruct (length documents =? 0).
  { unfold console, emit, mbind, M_bind, mret, M_ret.
    eexists _, [_]. split; [reflexivity |]. split; [done | by repeat constructor]. }
  unfold mbind at 1, M_bind at 1.
  assert (Hread : exists metadataList evs1,
             readMetadata svc tr = (Done metadataList, tr ++ evs1)
             /\ Forall Q evs1).
  { unfold readMetadata, try_catch, call, console, emit, mbind, M_bind, mret, M_ret.
    destruct (readDbJson svc tr) as [e | parsed].
    - eexists _, [_; _]. rewrite <- app_assoc. split; [reflexivity |].
      by repeat constructor.
    - eexists _, [_]. split; [reflexivity |]. by repeat constructor. }
  destruct Hread as (metadataList & evs1 & -> & Hok1).
  unfold mbind at 1, M_bind at 1.
  destruct (mapM_mergeFileMetadata_run svc metadataList
              (List.filter (fun doc => isValidContent (pageContent doc)) documents)
              (tr ++ evs1)) as [(merged & -> & Hmerged) | (e & ->)].
  2: { exists (Throw e), evs1. by repeat split. }
  unfold console, emit, call, mbind, M_bind, mret, M_ret.
  destruct (splitDocuments svc _ merged) as [e | splits].
  { eexists _, (evs1 ++ [_; _]). rewrite <- !app_assoc.
    split; [reflexivity |]. split; [done |].
    apply Forall_app. split; [done | by repeat constructor]. }
  edestruct (processBatch_loop_events splits (S (length splits)) 0)
    as (o & evs2 & -> & Ho & Hok2); [lia |].
  destruct o as [[] | e |]; [| | done].
  - eexists _, (evs1 ++ [_; _; _] ++ evs2 ++ [_]). rewrite <- !app_assoc.
    split; [reflexivity |]. split; [done |].
    apply Forall_app. split; [done |].
    repeat (constructor; [done |]). apply Forall_app. by repeat constructor.
  - eexists _, (evs1 ++ [_; _; _] ++ evs2). rewrite <- !app_assoc.
    split; [reflexivity |]. split; [done |].
    apply Forall_app. split; [done |]. by repeat (constructor; [done |]).
Qed.

Lemma handleBootstrapping_events tr :
  exists resp evs,
    handleBootstrapping svc env targetIndex tr = (Done resp, tr ++ evs)
    /\ Forall Q evs.
Proof.
  unfold handleBootstrapping, try_catch, bootstrap_try, console, emit, call,
    mbind, M_bind, mret, M_ret.
  destruct (createIndexIfNecessary svc _ _) as [e | []].
  { destruct (bootstrap_catch_run e ((tr ++ [EvConsole log (MsgRunning targetIndex)])
                                       ++ [EvCreateIndex targetIndex]))
      as (resp & -> & _).
    eexists _, [_; _; _]. rewrite <- !app_assoc.
    split; [reflexivity | by repeat constructor]. }
  destruct (pineconeIndexHasVectors svc _ _) as [e | [|]].
  { edestruct (bootstrap_catch_run e) as (resp & -> & _).
    eexists _, [_; _; _; _]. rewrite <- !app_assoc.
    split; [reflexivity | by repeat constructor]. }
  { eexists _, [_; _; _; _]. rewrite <- !app_assoc.
    split; [reflexivity | by repeat constructor]. }
  destruct (loaderLoad svc _) as [e | documents].
  { edestruct (bootstrap_catch_run e) as (resp & -> & _).
    eexists _, [_; _; _; _; _; _]. rewrite <- !app_assoc.
    split; [reflexivity | by repeat constructor]. }
  edestruct (bootstrap_loaded_events documents) as (o & evs & -> & Ho & Hok).
  destruct o as [resp | e |]; [| | done].
  - eexists _, ([_; _; _; _; _] ++ evs). rewrite <- !app_assoc.
    split; [reflexivity |]. by repeat (constructor; [done |]).
  - edestruct (bootstrap_catch_run e) as (resp & -> & _).
    eexists _, ([_; _; _; _; _] ++ evs ++ [_]). rewrite <- !app_assoc.
    split; [reflexivity |]. repeat (constructor; [done |]).
    apply Forall_app. by repeat constructor.
Qed.
End EventInvariant.

Lemma Forall_embedded (P : list string -> Prop) (evs : Trace) :
  Forall (fun ev => match ev with EvEmbed texts => P texts | _ => True end) evs ->
  Forall P (embedded evs).
Proof.
  induction 1 as [| ev evs Hev _ IH]; [constructor |].
  destruct ev; cbn; try exact IH. by constructor.
Qed.

Lemma Forall_upserted (P : list Vector -> Prop) (evs : Trace) :
  Forall (fun ev => match ev with EvUpsert _ batch => P batch | _ => True end) evs ->
  Forall P (upserted evs).
Proof.
  induction 1 as [| ev evs Hev _ IH]; [constructor |].
  destruct ev; cbn; try exact IH. by constructor.
Qed.

(** X16: in every run of [handleBootstrapping], whatever the services
    answer: an embedding request carries between 1 and 5 texts; an upsert
    carries 1 or 2 vectors and goes to the target index, as do the two
    requests about the index; the splitter is set to 1000 and 200; a pause
    lasts 1 or 2 seconds; no similarity search is made. *)
Theorem handleBootstrapping_event_shapes svc env targetIndex tr :
  exists resp evs,
    handleBootstrapping svc env targetIndex tr = (Done resp, tr ++ evs)
    /\ Forall (ingest_event_shape targetIndex) evs
    /\ Forall (fun texts => 0 < length texts <= BATCH_SIZE) (embedded evs)
    /\ Forall (fun batch => 0 < length batch <= 2) (upserted evs).
Proof.
  destruct (handleBootstrapping_events svc env targetIndex
              (ingest_event_shape targetIndex)) with (tr := tr)
    as (resp & evs & Hrun & Hall); cbn; auto.
  exists resp, evs. split; [exact Hrun |]. split; [exact Hall |]. split.
  - apply Forall_embedded. eapply Forall_impl; [exact Hall |].
    by intros [].
  - apply Forall_upserted. eapply Forall_impl; [exact Hall |].
    intros []; cbn; tauto.
Qed.

(** X17: when the vector-store key is unset, or the provider never returns
    an embedding, a run of [handleBootstrapping] upserts nothing. *)
Theorem handleBootstrapping_upserts_nothing svc env targetIndex tr :
  unset (PINECONE_API_KEY env) = true
  \/ (forall h texts emb embs,
        embedDocuments svc h texts <> inr (Some (emb :: embs))) ->
  exists resp evs,
    handleBootstrapping svc env targetIndex tr = (Done resp, tr ++ evs)
    /\ upserted evs = [].
Proof.
  intros Hnone.
  destruct (handleBootstrapping_events svc env targetIndex not_upsert)
    with (tr := tr) as (resp & evs & Hrun & Hall); cbn; auto.
  { intros h texts emb embs batch Hembed Hpk _.
    destruct Hnone as [Hunset | Hprov]; [congruence | by apply Hprov in Hembed]. }
  exists resp, evs. split; [exact Hrun |].
  clear Hrun. induction Hall as [| ev evs Hev _ IH]; [reflexivity |].
  destruct ev; cbn in *; done.
Qed.

Lemma handleBootstrapping_upserts_nothing_witness :
  exists resp evs,
    handleBootstrapping
      (sampleServices false sevenPages [] embed_ok upsert_ok)
      envWithoutPineconeKey "cases" [] = (Done resp, [] ++ evs)
    /\ upserted evs = [].
Proof.
  apply (handleBootstrapping_upserts_nothing
           (sampleServices false sevenPages [] embed_ok upsert_ok)
           envWithoutPineconeKey "cases" []).
  left. reflexivity.
Defined.

Lemma mapM_mergeFileMetadata_ok svc metadataList (l : list Document) tr :
  Forall has_string_source l ->
  exists merged,
    mapM (mergeFileMetadata svc metadataList) l tr = (Done merged, tr).
Proof.
  induction 1 as [| doc l [source Hsource] _ [merged IH]]; [by exists [] |].
  cbn [mapM]. unfold mbind, M_bind, mret, M_ret.
  assert (Hdoc : exists doc', mergeFileMetadata svc metadataList doc tr = (Done doc', tr)).
  { unfold mergeFileMetadata, mret, M_ret.
    destruct metadataList; [by eexists |]. rewrite Hsource.
    destruct (List.find _ _); by eexists. }
  destruct Hdoc as [doc' ->]. rewrite IH. by eexists.
Qed.

(** X18: once the index is there and empty, at least one document is
    loaded, every document has a source, the splitter returns and the
    embeddings client can be built, [handleBootstrapping] answers success,
    200, whatever happens to the batches: a provider that fails or times
    out, an upsert that fails, a vector-store key that is unset. *)
Theorem handleBootstrapping_succeeds_despite_batch_failures
    svc env targetIndex tr documents :
  (forall h, createIndexIfNecessary svc h targetIndex = inr tt) ->
  (forall h, pineconeIndexHasVectors svc h targetIndex = inr false) ->
  (forall h, loaderLoad svc h = inr documents) ->
  documents <> [] ->
  Forall has_string_source documents ->
  (forall h docs, exists splits, splitDocuments svc h docs = inr splits) ->
  newVoyageEmbeddings svc (VOYAGE_API_KEY env) = None ->
  exists evs,
    handleBootstrapping svc env targetIndex tr =
      (Done (json BSuccess 200), tr ++ evs).
Proof.
  intros Hcreate Hhas Hload Hne Hsrc Hsplit Hctor.
  unfold handleBootstrapping, try_catch, bootstrap_try, console, emit, call,
    mbind, M_bind, mret, M_ret.
  rewrite Hcreate, Hhas, Hload.
  unfold bootstrap_loaded.
  destruct documents as [| doc0 documents0] eqn:Hdocs; [done |].
  cbn [length Nat.eqb]. rewrite <- Hdocs in *.
  unfold mbind at 1, M_bind at 1.
  edestruct (readMetadata_run svc documents) as (metadataList & evs1 & -> & _).
  unfold mbind at 1, M_bind at 1.
  edestruct (mapM_mergeFileMetadata_ok svc metadataList) as [merged ->].
  { apply Forall_forall. intros d Hd.
    apply list_elem_of_In, List.filter_In in Hd as [Hd _].
    rewrite Forall_forall in Hsrc. by apply Hsrc, list_elem_of_In. }
  unfold console, emit, call, mbind, M_bind, mret, M_ret.
  match goal with
  | |- context [splitDocuments svc ?h merged] =>
      destruct (Hsplit h merged) as [splits ->]
  end.
  edestruct (processBatch_loop_run svc env targetIndex splits (S (length splits)) 0)
    as (o & evs2 & -> & _ & _ & Hc); [lia |].
  destruct (Hc Hctor) as [-> _].
  eexists ([_; _; _; _; _] ++ evs1 ++ [_; _; _] ++ evs2 ++ [_]).
  rewrite <- !app_assoc. reflexivity.
Qed.

Lemma handleBootstrapping_succeeds_despite_batch_failures_witness :
  exists evs,
    handleBootstrapping
      (sampleServices false sevenPages [] embed_timeout upsert_ok)
      envWithoutPineconeKey "cases" [] =
      (Done (json BSuccess 200), [] ++ evs).
Proof.
  apply (handleBootstrapping_succeeds_despite_batch_failures
           (sampleServices false sevenPages [] embed_timeout upsert_ok)
           envWithoutPineconeKey "cases" [] sevenPages).
  - reflexivity.
  - reflexivity.
  - reflexivity.
  - discriminate.
  - repeat constructor; by eexists.
  - intros h docs. by eexists.
  - reflexivity.
Defined.

(** The run behind the witness: the provider times out on both batches, the
    answer is success and not 504. *)
Example handleBootstrapping_provider_timeout :
  let run :=
    handleBootstrapping
      (sampleServices false sevenPages [] embed_timeout upsert_ok)
      fullEnv "cases" [] in
  run.1 = Done (json BSuccess 200)
  /\ upserted run.2 = []
  /\ batch_errors run.2 = [(1, timeoutError); (2, timeoutError)].
Proof. vm_compute. done. Qed.

(** ** A run in which nothing fails *)

Lemma batch_errors_app (t1 t2 : Trace) :
  batch_errors (t1 ++ t2) = batch_errors t1 ++ batch_errors t2.
Proof. apply omap_app. Qed.

Lemma batchUpserts_loop_quiet svc index vectors batchSize :
  (forall h b, upsert svc h index b = inr tt) ->
  forall fuel i tr, length vectors - i < fuel -> 0 < batchSize ->
  exists evs,
    for_step fuel (length vectors) batchSize
      (batchUpserts_body svc index vectors batchSize) i tr = (Done tt, tr ++ evs)
    /\ upserted evs = batches fuel batchSize vectors i
    /\ embedded evs = [] /\ batch_errors evs = [].
Proof.
  intros Hok. induction fuel as [| fuel IH]; intros i tr Hfuel Hstep; [lia |].
  cbn [for_step batches]. destruct (i <? length vectors) eqn:Hi.
  - apply Nat.ltb_lt in Hi.
    unfold mbind, M_bind. rewrite batchUpserts_body_run. cbn zeta. rewrite Hok.
    edestruct (IH (i + batchSize)) as (evs & -> & Hevs & Hemb & Herr); [lia | done |].
    eexists ([_; _] ++ evs). split; [rewrite <- !app_assoc; reflexivity |].
    rewrite upserted_app, embedded_app, batch_errors_app, Hevs, Hemb, Herr.
    done.
  - exists []. by rewrite app_nil_r.
Qed.

Lemma batch_try_success svc env targetIndex castedBatch i tr emb embs :
  unset (PINECONE_API_KEY env) = false ->
  (forall h b, upsert svc h targetIndex b = inr tt) ->
  embedDocuments svc
    (tr ++ [EvConsole log (MsgGeneratingEmbeddings (i / BATCH_SIZE + 1))])
    (map trim (map pageContent castedBatch)) = inr (Some (emb :: embs)) ->
  exists evs,
    batch_try svc env targetIndex castedBatch i tr = (Done tt, tr ++ evs)
    /\ embedded evs = [map trim (map pageContent castedBatch)]
    /\ concat (upserted evs) = batchVectors castedBatch (emb :: embs)
    /\ batch_errors evs = [].
Proof.
  intros Hpk Hok Hembed.
  unfold batch_try, throw_if, throw, sleep, console, emit, call, mbind, M_bind,
    mret, M_ret. cbn zeta.
  rewrite Hembed, Hpk. unfold batchUpserts.
  fold (batchVectors castedBatch (emb :: embs)).
  match goal with
  | |- context [for_step (S (length ?vs)) _ _ _ _ ?t] =>
      destruct (batchUpserts_loop_quiet svc targetIndex vs 2 Hok
                  (S (length vs)) 0 t ltac:(lia) ltac:(lia))
        as (evs & -> & Hups & Hemb & Herr)
  end.
  eexists ([_; _; _] ++ evs ++ [_]). rewrite <- !app_assoc.
  split; [reflexivity |].
  rewrite !embedded_app, !upserted_app, !batch_errors_app, Hups, Hemb, Herr.
  split; [reflexivity |]. split; [| reflexivity].
  rewrite app_nil_r.
  match goal with
  | |- concat (?a ++ _) = _ => change a with (@nil (list Vector))
  end.
  cbn [app]. rewrite batches_concat by lia. reflexivity.
Qed.

Lemma batchVectors_lookup castedBatch embeddings j :
  batchVectors castedBatch embeddings !! j =
  (fun split => mkVector (metadata split !! "id") (embeddings !! j)
                  (metadata split)) <$> castedBatch !! j.
Proof. unfold batchVectors. apply list_lookup_imap. Qed.

(** X19: when the provider returns at least one embedding and no upsert
    fails, a batch is upserted whole, one vector for each chunk in order,
    whatever the number of embeddings: the vector of the chunk at position
    [j] has the identifier and the metadata of the chunk and the embedding
    at position [j]; it has no values when the provider returned fewer
    embeddings than texts, and embeddings beyond the last chunk are not
    used. *)
Theorem batch_try_upserts_every_chunk
    svc env targetIndex castedBatch i tr emb embs :
  unset (PINECONE_API_KEY env) = false ->
  (forall h b, upsert svc h targetIndex b = inr tt) ->
  embedDocuments svc
    (tr ++ [EvConsole log (MsgGeneratingEmbeddings (i / BATCH_SIZE + 1))])
    (map trim (map pageContent castedBatch)) = inr (Some (emb :: embs)) ->
  exists evs,
    batch_try svc env targetIndex castedBatch i tr = (Done tt, tr ++ evs)
    /\ length (concat (upserted evs)) = length castedBatch
    /\ forall j,
         concat (upserted evs) !! j =
         (fun split => mkVector (metadata split !! "id") ((emb :: embs) !! j)
                         (metadata split)) <$> castedBatch !! j.
Proof.
  intros Hpk Hok Hembed.
  destruct (batch_try_success svc env targetIndex castedBatch i tr emb embs
              Hpk Hok Hembed) as (evs & Hrun & _ & Hups & _).
  exists evs. split; [exact Hrun |]. rewrite Hups. split.
  - unfold batchVectors. apply length_imap.
  - intros j. apply batchVectors_lookup.
Qed.

Lemma batch_try_upserts_every_chunk_witness :
  exists evs,
    batch_try (sampleServices false [] [] embed_first_only upsert_ok)
      fullEnv "cases" castedPair 0 [] = (Done tt, [] ++ evs)
    /\ length (concat (upserted evs)) = length castedPair
    /\ forall j,
         concat (upserted evs) !! j =
         (fun split => mkVector (metadata split !! "id") (([7%Z] :: []) !! j)
                         (metadata split)) <$> castedPair !! j.
Proof.
  apply (batch_try_upserts_every_chunk
           (sampleServices false [] [] embed_first_only upsert_ok)
           fullEnv "cases" castedPair 0 [] [7%Z] []);
    reflexivity.
Defined.

(** Two chunks, one embedding: the second vector is upserted without
    values. *)
Example batch_try_short_embeddings :
  map values
    (concat (upserted (batch_try
                         (sampleServices false [] [] embed_first_only upsert_ok)
                         fullEnv "cases" castedPair 0 []).2)) =
  [Some [7%Z]; None].
Proof. vm_compute. reflexivity. Qed.

Lemma batchVectors_contents (l casted : list Document) embeddings :
  Forall2 casted_from l casted ->
  map vector_content (batchVectors casted embeddings) =
  map (fun split => Some (JStr (chunk_text split))) l
  /\ map trim (map pageContent casted) = map chunk_text l.
Proof.
  unfold batchVectors. intros Hc.
  assert (Hgen : forall (f : nat -> nat),
    map vector_content
      (imap (fun index split =>
               mkVector (metadata split !! "id") (embeddings !! f index)
                 (metadata split)) casted) =
    map (fun split => Some (JStr (chunk_text split))) l
    /\ map trim (map pageContent casted) = map chunk_text l).
  { induction Hc as [| split c l casted [Hpc Hmd] _ IH]; intros f; [done |].
    cbn. destruct (IH (f ∘ S)) as [IH1 IH2]. split.
    - unfold vector_content at 1. cbn. rewrite Hmd. f_equal. exact IH1.
    - rewrite Hpc, IH2. unfold chunk_text. by rewrite trim_idempotent. }
  apply (Hgen (fun n => n)).
Qed.

Lemma processBatch_success svc env targetIndex splits i tr :
  unset (PINECONE_API_KEY env) = false ->
  newVoyageEmbeddings svc (VOYAGE_API_KEY env) = None ->
  provider_answers svc ->
  (forall h b, upsert svc h targetIndex b = inr tt) ->
  exists evs,
    processBatch svc env targetIndex splits i tr = (Done tt, tr ++ evs)
    /\ concat (embedded evs) =
       map chunk_text (valid_splits (slice splits i (i + BATCH_SIZE)))
    /\ map vector_content (concat (upserted evs)) =
       map (fun split => Some (JStr (chunk_text split)))
         (valid_splits (slice splits i (i + BATCH_SIZE)))
    /\ batch_errors evs = [].
Proof.
  intros Hpk Hctor Hprov Hok.
  unfold processBatch, valid_splits. cbn zeta.
  set (validBatch := List.filter _ (slice splits i (i + BATCH_SIZE))).
  unfold console, emit, construct, throw, try_catch, mbind, M_bind, mret, M_ret.
  destruct (length validBatch =? 0) eqn:Hlen.
  - apply Nat.eqb_eq, length_zero_iff_nil in Hlen. rewrite Hlen.
    eexists [_; _]. rewrite <- app_assoc. by split.
  - apply Nat.eqb_neq in Hlen.
    edestruct (mapM_castSplit_run svc validBatch)
      as (casted & evs1 & -> & Huuid & Hcasted).
    assert (Hevs1 : embedded evs1 = [] /\ upserted evs1 = [] /\ batch_errors evs1 = []).
    { clear -Huuid. induction Huuid as [| ev evs -> _ IH]; done. }
    destruct Hevs1 as (Hemb1 & Hups1 & Herr1).
    rewrite Hctor.
    assert (Htexts : map trim (map pageContent casted) <> []).
    { apply Forall2_length in Hcasted. intros Hnil.
      apply (f_equal length) in Hnil. rewrite !length_map in Hnil. cbn in Hnil. lia. }
    match goal with
    | |- context [batch_try svc env targetIndex casted i ?t] =>
        destruct (Hprov (t ++ [EvConsole log (MsgGeneratingEmbeddings (i / BATCH_SIZE + 1))])
                    _ Htexts) as (emb & embs & Hembed);
        destruct (batch_try_success svc env targetIndex casted i t emb embs
                    Hpk Hok Hembed) as (evs2 & -> & Hemb2 & Hups2 & Herr2)
    end.
    destruct (batchVectors_contents validBatch casted (emb :: embs) Hcasted)
      as [Hvc Htx].
    eexists ([_] ++ evs1 ++ evs2). rewrite <- !app_assoc.
    split; [reflexivity |].
    rewrite !embedded_app, !upserted_app, !batch_errors_app.
    rewrite Hemb1, Hups1, Herr1, Hemb2, Herr2.
    split; [| split; [| done]].
    + cbn. by rewrite app_nil_r, Htx.
    + cbn [app]. 
      match goal with
      | |- map _ (concat (?a ++ _)) = _ => change a with (@nil (list Vector))
      end.
      cbn [app]. by rewrite Hups2, Hvc.
Qed.

Lemma valid_splits_drop (splits : list Document) i :
  valid_splits (slice splits i (i + BATCH_SIZE))
    ++ valid_splits (drop (i + BATCH_SIZE) splits) =
  valid_splits (drop i splits).
Proof.
  unfold valid_splits. rewrite <- List.filter_app. f_equal. apply slice_drop.
Qed.

Lemma processBatch_loop_success svc env targetIndex splits :
  unset (PINECONE_API_KEY env) = false ->
  newVoyageEmbeddings svc (VOYAGE_API_KEY env) = None ->
  provider_answers svc ->
  (forall h b, upsert svc h targetIndex b = inr tt) ->
  forall fuel i tr, length splits - i < fuel ->
  exists evs,
    for_step fuel (length splits) BATCH_SIZE
      (processBatch svc env targetIndex splits) i tr = (Done tt, tr ++ evs)
    /\ concat (embedded evs) = map chunk_text (valid_splits (drop i splits))
    /\ map vector_content (concat (upserted evs)) =
       map (fun split => Some (JStr (chunk_text split)))
         (valid_splits (drop i splits))
    /\ batch_errors evs = [].
Proof.
  intros Hpk Hctor Hprov Hok.
  induction fuel as [| fuel IH]; intros i tr Hfuel; [lia |].
  cbn [for_step]. destruct (i <? length splits) eqn:Hi.
  - apply Nat.ltb_lt in Hi. unfold mbind, M_bind.
    destruct (processBatch_success svc env targetIndex splits i tr Hpk Hctor Hprov Hok)
      as (evs1 & -> & He1 & Hu1 & Hr1).
    edestruct (IH (i + BATCH_SIZE)) as (evs & -> & He & Hu & Hr);
      [unfold BATCH_SIZE; lia |].
    exists (evs1 ++ evs). rewrite <- app_assoc. split; [reflexivity |].
    rewrite embedded_app, upserted_app, batch_errors_app, !concat_app, !map_app.
    rewrite He1, He, Hu1, Hu, Hr1, Hr, <- !map_app, valid_splits_drop. done.
  - apply Nat.ltb_ge in Hi. exists []. rewrite app_nil_r.
    rewrite drop_ge by done. done.
Qed.

Lemma split_calls_app (t1 t2 : Trace) :
  split_calls (t1 ++ t2) = split_calls t1 ++ split_calls t2.
Proof. apply omap_app. Qed.

Lemma readMetadata_quiet svc tr :
  exists metadataList evs,
    readMetadata svc tr = (Done metadataList, tr ++ evs)
    /\ split_calls evs = [] /\ embedded evs = []
    /\ upserted evs = [] /\ batch_errors evs = [].
Proof.
  unfold readMetadata, try_catch, call, console, emit, mbind, M_bind, mret, M_ret.
  destruct (readDbJson svc tr) as [e | parsed].
  - eexists _, [_; _]. rewrite <- app_assoc. by split.
  - eexists _, [_]. by split.
Qed.

Lemma processBatch_loop_no_split svc env targetIndex splits fuel i tr o tr' :
  length splits - i < fuel ->
  for_step fuel (length splits) BATCH_SIZE
    (processBatch svc env targetIndex splits) i tr = (o, tr') ->
  exists evs, tr' = tr ++ evs /\ split_calls evs = [].
Proof.
  intros Hfuel Hrun.
  destruct (processBatch_loop_run svc env targetIndex splits fuel i tr Hfuel)
    as (o' & evs & Hrun' & _ & Hok & _).
  rewrite Hrun in Hrun'. injection Hrun' as _ ->.
  exists evs. split; [reflexivity |].
  clear -Hok. induction Hok as [| ev evs Hev _ IH]; [reflexivity |].
  destruct ev; cbn in *; done.
Qed.

Lemma bootstrap_loaded_success svc env targetIndex documents tr :
  documents <> [] ->
  Forall has_string_source documents ->
  (forall h docs, exists splits, splitDocuments svc h docs = inr splits) ->
  newVoyageEmbeddings svc (VOYAGE_API_KEY env) = None ->
  unset (PINECONE_API_KEY env) = false ->
  provider_answers svc ->
  (forall h b, upsert svc h targetIndex b = inr tt) ->
  exists h docs splits evs,
    splitDocuments svc h docs = inr splits
    /\ map pageContent docs =
       List.filter isValidContent (map pageContent documents)
    /\ bootstrap_loaded svc env targetIndex documents tr =
         (Done (json BSuccess 200), tr ++ evs)
    /\ split_calls evs = [docs]
    /\ concat (embedded evs) = map chunk_text (valid_splits splits)
    /\ map vector_content (concat (upserted evs)) =
       map (fun split => Some (JStr (chunk_text split))) (valid_splits splits)
    /\ batch_errors evs = [].
Proof.
  intros Hne Hsrc Hsplit Hctor Hpk Hprov Hok.
  unfold bootstrap_loaded.
  destruct documents as [| doc0 documents0] eqn:Hdocs; [done |].
  cbn [length Nat.eqb]. rewrite <- Hdocs in *.
  unfold mbind at 1, M_bind at 1.
  destruct (readMetadata_quiet svc tr)
    as (metadataList & evs1 & -> & Hs1 & He1 & Hu1 & Hr1).
  unfold mbind at 1, M_bind at 1.
  assert (Hvalid : Forall has_string_source
            (List.filter (fun doc => isValidContent (pageContent doc)) documents)).
  { apply Forall_forall. intros d Hd.
    apply list_elem_of_In, List.filter_In in Hd as [Hd _].
    rewrite Forall_forall in Hsrc. by apply Hsrc, list_elem_of_In. }
  destruct (mapM_mergeFileMetadata_ok svc metadataList _ (tr ++ evs1) Hvalid)
    as [merged Hmerge].
  destruct (mapM_mergeFileMetadata_run svc metadataList
              (List.filter (fun doc => isValidContent (pageContent doc)) documents)
              (tr ++ evs1)) as [(merged' & Hmerge' & Hmerged) | (e & Hthrow)];
    [| congruence].
  rewrite Hmerge' in Hmerge. injection Hmerge as <-.
  rewrite Hmerge'. rewrite filter_map_pageContent in Hmerged.
  unfold console, emit, call, mbind, M_bind, mret, M_ret.
  match goal with
  | |- context [splitDocuments svc ?h merged'] =>
      destruct (Hsplit h merged') as [splits Hsplits]; rewrite Hsplits;
      exists h, merged', splits
  end.
  edestruct (processBatch_loop_success svc env targetIndex splits Hpk Hctor Hprov Hok
               (S (length splits)) 0) as (evs2 & Hloop & He2 & Hu2 & Hr2); [lia |].
  rewrite Hloop.
  destruct (processBatch_loop_no_split svc env targetIndex splits
              (S (length splits)) 0 _ _ _ ltac:(lia) Hloop)
    as (evs2' & Heq & Hs2).
  apply app_inv_head in Heq as <-.
  rewrite drop_0 in He2, Hu2.
  eexists (evs1 ++ [_; _; _] ++ evs2 ++ [_]).
  split; [exact Hsplits |]. split; [exact Hmerged |].
  split; [rewrite <- !app_assoc; reflexivity |].
  rewrite !split_calls_app, !embedded_app, !upserted_app, !batch_errors_app.
  rewrite Hs1, He1, Hu1, Hr1, Hs2, Hr2.
  split; [reflexivity |]. split; [| split; [| reflexivity]].
  - cbn [app]. change (embedded [_; _; _]) with (@nil (list string)).
    cbn [app]. change (embedded [_]) with (@nil (list string)).
    by rewrite app_nil_r.
  - cbn [app]. change (upserted [_; _; _]) with (@nil (list Vector)).
    cbn [app]. change (upserted [_]) with (@nil (list Vector)).
    by rewrite app_nil_r.
Qed.

(** X20: when nothing fails, every chunk with valid content is embedded
    and upserted exactly once, in the order in which the splitter returned
    the chunks: the texts sent to the provider, batch after batch, and the
    texts in the metadata of the upserted vectors are the trimmed contents
    of the valid chunks; no batch error is logged and the answer is success.
    The splitter was called once, on the loaded documents with valid
    content. *)
Theorem handleBootstrapping_ingests_every_valid_chunk
    svc env targetIndex tr documents :
  (forall h, createIndexIfNecessary svc h targetIndex = inr tt) ->
  (forall h, pineconeIndexHasVectors svc h targetIndex = inr false) ->
  (forall h, loaderLoad svc h = inr documents) ->
  documents <> [] ->
  Forall has_string_source documents ->
  (forall h docs, exists splits, splitDocuments svc h docs = inr splits) ->
  newVoyageEmbeddings svc (VOYAGE_API_KEY env) = None ->
  unset (PINECONE_API_KEY env) = false ->
  provider_answers svc ->
  (forall h b, upsert svc h targetIndex b = inr tt) ->
  exists h docs splits evs,
    splitDocuments svc h docs = inr splits
    /\ map pageContent docs =
       List.filter isValidContent (map pageContent documents)
    /\ handleBootstrapping svc env targetIndex tr =
         (Done (json BSuccess 200), tr ++ evs)
    /\ split_calls evs = [docs]
    /\ concat (embedded evs) = map chunk_text (valid_splits splits)
    /\ map vector_content (concat (upserted evs)) =
       map (fun split => Some (JStr (chunk_text split))) (valid_splits splits)
    /\ batch_errors evs = [].
Proof.
  intros Hcreate Hhas Hload Hne Hsrc Hsplit Hctor Hpk Hprov Hok.
  unfold handleBootstrapping, try_catch, bootstrap_try, console, emit, call,
    mbind, M_bind, mret, M_ret.
  rewrite Hcreate, Hhas, Hload.
  match goal with
  | |- context [bootstrap_loaded svc env targetIndex documents ?t] =>
      destruct (bootstrap_loaded_success svc env targetIndex documents t
                  Hne Hsrc Hsplit Hctor Hpk Hprov Hok)
        as (h & docs & splits & evs & Hsplits & Hdocs & -> & Hs & He & Hu & Hr)
  end.
  exists h, docs, splits. eexists ([_; _; _; _; _] ++ evs).
  split; [exact Hsplits |]. split; [exact Hdocs |].
  split; [rewrite <- !app_assoc; reflexivity |].
  rewrite split_calls_app, embedded_app, upserted_app, batch_errors_app.
  change (split_calls [_; _; _; _; _]) with (@nil (list Document)).
  change (embedded [_; _; _; _; _]) with (@nil (list string)).
  change (upserted [_; _; _; _; _]) with (@nil (list Vector)).
  change (batch_errors [_; _; _; _; _]) with (@nil (nat * JsError)).
  cbn [app]. by rewrite Hs, He, Hu, Hr.
Qed.

Lemma handleBootstrapping_ingests_every_valid_chunk_witness :
  exists h docs splits evs,
    splitDocuments (sampleServices false sevenPages [] embed_ok upsert_ok)
      h docs = inr splits
    /\ map pageContent docs =
       List.filter isValidContent (map pageContent sevenPages)
    /\ handleBootstrapping (sampleServices false sevenPages [] embed_ok upsert_ok)
         fullEnv "cases" [] = (Done (json BSuccess 200), [] ++ evs)
    /\ split_calls evs = [docs]
    /\ concat (embedded evs) = map chunk_text (valid_splits splits)
    /\ map vector_content (concat (upserted evs)) =
       map (fun split => Some (JStr (chunk_text split))) (valid_splits splits)
    /\ batch_errors evs = [].
Proof.
  apply (handleBootstrapping_ingests_every_valid_chunk
           (sampleServices false sevenPages [] embed_ok upsert_ok)
           fullEnv "cases" [] sevenPages).
  - reflexivity.
  - reflexivity.
  - reflexivity.
  - discriminate.
  - repeat constructor; by eexists.
  - intros h docs. by eexists.
  - reflexivity.
  - reflexivity.
  - intros h [| text texts] Hne; [done |]. by eexists _, _.
  - reflexivity.
Defined.

(** ** The progress lines of [batchUpserts] *)

Lemma ceil_div_step m d :
  0 < d -> 0 < m -> ceil_div m d = S (ceil_div (m - d) d).
Proof.
  intros Hd Hm. unfold ceil_div. destruct (le_lt_dec d m) as [Hle | Hlt].
  - replace (m + d - 1) with ((m - d + d - 1) + 1 * d) by lia.
    rewrite Nat.div_add by lia. lia.
  - replace (m - d) with 0 by lia.
    replace (m + d - 1) with ((m - 1) + 1 * d) by lia.
    rewrite Nat.div_add by lia.
    rewrite (Nat.div_small (m - 1)) by lia.
    rewrite (Nat.div_small (0 + d - 1)) by lia. reflexivity.
Qed.

Lemma batches_length {A} (l : list A) step :
  0 < step ->
  forall fuel i, length l - i < fuel ->
  length (batches fuel step l i) = ceil_div (length l - i) step.
Proof.
  intros Hstep. induction fuel as [| fuel IH]; intros i Hfuel; [lia |].
  cbn [batches]. destruct (i <? length l) eqn:Hi.
  - apply Nat.ltb_lt in Hi. cbn [length]. rewrite IH by lia.
    rewrite (ceil_div_step (length l - i)) by lia. do 2 f_equal. lia.
  - apply Nat.ltb_ge in Hi. replace (length l - i) with 0 by lia.
    unfold ceil_div. cbn [length]. symmetry. apply Nat.div_small. lia.
Qed.

Lemma upsert_progress_app (t1 t2 : Trace) :
  upsert_progress (t1 ++ t2) = upsert_progress t1 ++ upsert_progress t2.
Proof. apply omap_app. Qed.

Lemma batchUpserts_loop_progress svc index vectors batchSize :
  (forall h b, upsert svc h index b = inr tt) ->
  0 < batchSize ->
  forall fuel j tr, length vectors - j * batchSize < fuel ->
  exists evs,
    for_step fuel (length vectors) batchSize
      (batchUpserts_body svc index vectors batchSize) (j * batchSize) tr
      = (Done tt, tr ++ evs)
    /\ upserted evs = batches fuel batchSize vectors (j * batchSize)
    /\ upsert_progress evs =
       map (fun k => (k, ceil_div (length vectors) batchSize))
         (seq (S j) (length (batches fuel batchSize vectors (j * batchSize)))).
Proof.
  intros Hok Hstep. induction fuel as [| fuel IH]; intros j tr Hfuel; [lia |].
  cbn [for_step batches]. destruct (j * batchSize <? length vectors) eqn:Hi.
  - apply Nat.ltb_lt in Hi.
    unfold mbind, M_bind. rewrite batchUpserts_body_run. cbn zeta. rewrite Hok.
    replace (j * batchSize + batchSize) with (S j * batchSize) by lia.
    edestruct (IH (S j)) as (evs & -> & Hups & Hprog); [lia |].
    eexists ([_; _] ++ evs). split; [rewrite <- !app_assoc; reflexivity |].
    rewrite upserted_app, upsert_progress_app, Hups, Hprog.
    split; [reflexivity |].
    cbn [length seq map]. rewrite Nat.div_mul by lia.
    replace (j + 1) with (S j) by lia. reflexivity.
  - exists []. by rewrite app_nil_r.
Qed.

(** X21: when no upsert fails, [batchUpserts] makes as many upserts as its
    progress lines announce: the number of upserts is the number of vectors
    divided by the sub-batch size, rounded up, and the lines count from 1 to
    that number.  On an empty list it does nothing. *)
Theorem batchUpserts_progress svc index vectors batchSize fuel tr :
  0 < batchSize ->
  length vectors < fuel ->
  (forall h b, upsert svc h index b = inr tt) ->
  exists evs,
    batchUpserts svc fuel index vectors batchSize tr = (Done tt, tr ++ evs)
    /\ length (upserted evs) = ceil_div (length vectors) batchSize
    /\ upsert_progress evs =
       map (fun k => (k, ceil_div (length vectors) batchSize))
         (seq 1 (ceil_div (length vectors) batchSize))
    /\ (vectors = [] -> evs = []).
Proof.
  intros Hstep Hfuel Hok. unfold batchUpserts.
  destruct (batchUpserts_loop_progress svc index vectors batchSize Hok Hstep
              fuel 0 tr) as (evs & Hrun & Hups & Hprog); [cbn; lia |].
  cbn [Nat.mul] in *. exists evs. split; [exact Hrun |].
  rewrite Hprog, Hups, batches_length by lia.
  rewrite Nat.sub_0_r. split; [reflexivity |]. split; [reflexivity |].
  intros ->. destruct fuel; [lia |]. cbn in Hrun.
  injection Hrun as Hrun. rewrite <- (app_nil_r tr) in Hrun at 1.
  by apply app_inv_head in Hrun.
Qed.

Lemma batchUpserts_progress_witness :
  exists evs,
    batchUpserts (sampleServices false [] [] embed_ok upsert_ok) 6 "cases"
      (map sampleVector [1; 2; 3; 4; 5]%Z) 2 [] = (Done tt, [] ++ evs)
    /\ length (upserted evs) =
       ceil_div (length (map sampleVector [1; 2; 3; 4; 5]%Z)) 2
    /\ upsert_progress evs =
       map (fun k => (k, ceil_div (length (map sampleVector [1; 2; 3; 4; 5]%Z)) 2))
         (seq 1 (ceil_div (length (map sampleVector [1; 2; 3; 4; 5]%Z)) 2))
    /\ (map sampleVector [1; 2; 3; 4; 5]%Z = [] -> evs = []).
Proof.
  apply (batchUpserts_progress
           (sampleServices false [] [] embed_ok upsert_ok) "cases"
           (map sampleVector [1; 2; 3; 4; 5]%Z) 2 6 []).
  - lia.
  - simpl. lia.
  - reflexivity.
Defined.

(** ** Ingestion without a side file *)

Lemma mapM_mergeFileMetadata_nil svc (l : list Document) tr :
  mapM (mergeFileMetadata svc []) l tr = (Done l, tr).
Proof.
  induction l as [| doc l IH]; [reflexivity |].
  cbn [mapM]. unfold mbind, M_bind, mret, M_ret. cbn [mergeFileMetadata].
  unfold mret, M_ret. by rewrite IH.
Qed.

Lemma readMetadata_no_entries svc tr :
  no_metadata_entries (readDbJson svc tr) ->
  exists evs,
    readMetadata svc tr = (Done [], tr ++ evs) /\ split_calls evs = [].
Proof.
  unfold readMetadata, try_catch, call, console, emit, mbind, M_bind, mret, M_ret.
  destruct (readDbJson svc tr) as [e | [[| meta metas] |]]; cbn; intros Hno.
  - eexists [_; _]. by rewrite <- app_assoc.
  - by eexists [_].
  - done.
  - by eexists [_].
Qed.

Lemma bootstrap_loaded_without_metadata svc env targetIndex documents tr :
  documents <> [] ->
  no_metadata_entries (readDbJson svc tr) ->
  exists o evs,
    bootstrap_loaded svc env targetIndex documents tr = (o, tr ++ evs)
    /\ o <> OutOfFuel
    /\ split_calls evs =
       [List.filter (fun doc => isValidContent (pageContent doc)) documents].
Proof.
  intros Hne Hno. unfold bootstrap_loaded.
  destruct documents as [| doc0 documents0] eqn:Hdocs; [done |].
  cbn [length Nat.eqb]. rewrite <- Hdocs in *.
  unfold mbind at 1, M_bind at 1.
  destruct (readMetadata_no_entries svc tr Hno) as (evs1 & -> & Hs1).
  unfold mbind at 1, M_bind at 1. rewrite mapM_mergeFileMetadata_nil.
  unfold console, emit, call, mbind, M_bind, mret, M_ret.
  destruct (splitDocuments svc _ _) as [e | splits].
  { eexists _, (evs1 ++ [_; _]). rewrite <- !app_assoc.
    split; [reflexivity |]. split; [done |].
    by rewrite split_calls_app, Hs1. }
  destruct (for_step _ _ _ _ _ _) as [o tr2] eqn:Hloop.
  match type of Hloop with
  | for_step _ _ _ _ _ ?t = _ =>
      destruct (processBatch_loop_run svc env targetIndex splits
                  (S (length splits)) 0 t ltac:(lia))
        as (o' & evs2' & Hrun' & Ho' & _)
  end.
  destruct (processBatch_loop_no_split svc env targetIndex splits
              (S (length splits)) 0 _ _ _ ltac:(lia) Hloop) as (evs2 & -> & Hs2).
  rewrite Hloop in Hrun'. injection Hrun' as <- _.
  destruct o as [[] | e |]; [| | done].
  - eexists _, (evs1 ++ [_; _; _] ++ evs2 ++ [_]). rewrite <- !app_assoc.
    split; [reflexivity |]. split; [done |].
    rewrite !split_calls_app, Hs1, Hs2. reflexivity.
  - eexists _, (evs1 ++ [_; _; _] ++ evs2). rewrite <- !app_assoc.
    split; [reflexivity |]. split; [done |].
    rewrite !split_calls_app, Hs1, Hs2. reflexivity.
Qed.

(** X22: a side file that cannot be read, or that lists no document, does
    not stop the ingestion: the splitter is called once, on the loaded
    documents with valid content, as the loader returned them, none of them
    changed. *)
Theorem handleBootstrapping_without_metadata svc env targetIndex tr documents :
  createIndexIfNecessary svc (tr ++ [EvConsole log (MsgRunning targetIndex)])
    targetIndex = inr tt ->
  pineconeIndexHasVectors svc
    (tr ++ [EvConsole log (MsgRunning targetIndex); EvCreateIndex targetIndex])
    targetIndex = inr false ->
  loaderLoad svc
    (tr ++ [EvConsole log (MsgRunning targetIndex); EvCreateIndex targetIndex;
            EvHasVectors targetIndex; EvConsole log MsgLoading]) = inr documents ->
  documents <> [] ->
  (forall h, no_metadata_entries (readDbJson svc h)) ->
  exists resp evs,
    handleBootstrapping svc env targetIndex tr = (Done resp, tr ++ evs)
    /\ split_calls evs =
       [List.filter (fun doc => isValidContent (pageContent doc)) documents].
Proof.
  intros Hcreate Hhas Hload Hne Hno.
  unfold handleBootstrapping, try_catch, bootstrap_try, console, emit, call,
    mbind, M_bind, mret, M_ret.
  rewrite Hcreate. rewrite <- !app_assoc. cbn [app]. rewrite Hhas.
  rewrite <- !app_assoc. cbn [app]. rewrite Hload.
  edestruct (bootstrap_loaded_without_metadata svc env targetIndex documents)
    as (o & evs & -> & Ho & Hs); [done | apply Hno |].
  destruct o as [resp | e |]; [| | done].
  - eexists _, ([_; _; _; _; _] ++ evs). rewrite <- !app_assoc.
    split; [reflexivity |]. by rewrite split_calls_app, Hs.
  - edestruct (bootstrap_catch_run e) as (resp & -> & _).
    eexists _, ([_; _; _; _; _] ++ evs ++ [_]). rewrite <- !app_assoc.
    split; [reflexivity |]. by rewrite !split_calls_app, Hs.
Qed.

Lemma handleBootstrapping_without_metadata_witness :
  exists resp evs,
    handleBootstrapping
      (withReadDbJson
         (sampleServices false [page "text"; blankPage] [] embed_ok upsert_ok)
         (fun _ => inl (Error "ENOENT: no such file or directory")))
      fullEnv "cases" [] = (Done resp, [] ++ evs)
    /\ split_calls evs =
       [List.filter (fun doc => isValidContent (pageContent doc))
          [page "text"; blankPage]].
Proof.
  apply (handleBootstrapping_without_metadata
           (withReadDbJson
              (sampleServices false [page "text"; blankPage] [] embed_ok upsert_ok)
              (fun _ => inl (Error "ENOENT: no such file or directory")))
           fullEnv "cases" [] [page "text"; blankPage]).
  - reflexivity.
  - reflexivity.
  - reflexivity.
  - discriminate.
  - intros h. exact I.
Defined.

(** * Failures inside a batch *)

Lemma no_failed_call_app svc evs1 :
  forall h evs2,
    no_failed_call svc h evs1 -> no_failed_call svc (h ++ evs1) evs2 ->
    no_failed_call svc h (evs1 ++ evs2).
Proof.
  induction evs1 as [| ev evs1 IH]; intros h evs2 H1 H2; cbn.
  - by rewrite app_nil_r in H2.
  - destruct H1 as [Hev H1]. split; [done |].
    apply IH; [done |]. by rewrite <- app_assoc.
Qed.

Lemma no_failed_call_split svc pre :
  forall h evs ev post,
    no_failed_call svc h evs -> evs = pre ++ ev :: post ->
    call_failed svc (h ++ pre) ev = None.
Proof.
  induction pre as [| p pre IH]; intros h evs ev post Hq ->; cbn in Hq.
  - rewrite app_nil_r. tauto.
  - destruct Hq as [_ Hq].
    specialize (IH _ _ _ _ Hq eq_refl). by rewrite <- app_assoc in IH.
Qed.

Lemma failures_followed_by_split svc after pre :
  forall h evs ev post e,
    failures_followed_by svc after h evs -> evs = pre ++ ev :: post ->
    call_failed svc (h ++ pre) ev = Some e -> after e post.
Proof.
  induction pre as [| p pre IH]; intros h evs ev post e Hc -> Hfail; cbn in Hc.
  - rewrite app_nil_r in Hfail. rewrite Hfail in Hc. tauto.
  - destruct Hc as [_ Hc]. apply (IH _ _ _ _ _ Hc eq_refl).
    by rewrite <- app_assoc.
Qed.

Lemma no_failed_call_followed svc after evs :
  forall h, no_failed_call svc h evs -> failures_followed_by svc after h evs.
Proof.
  induction evs as [| ev evs IH]; intros h Hq; cbn; [done |].
  destruct Hq as [-> Hq]. split; [done | by apply IH].
Qed.

Lemma failures_followed_by_app svc after q :
  forall h r,
    no_failed_call svc h q -> failures_followed_by svc after (h ++ q) r ->
    failures_followed_by svc after h (q ++ r).
Proof.
  induction q as [| ev q IH]; intros h r Hq Hr; cbn.
  - by rewrite app_nil_r in Hr.
  - destruct Hq as [-> Hq]. split; [done |].
    apply IH; [done |]. by rewrite <- app_assoc.
Qed.

Lemma failures_followed_by_skipped svc k pre ev e h :
  no_failed_call svc h pre -> call_failed svc (h ++ pre) ev = Some e ->
  failures_followed_by svc (skipped k) h
    (pre ++ [ev; EvConsole error (MsgBatchError k e); EvSleep 2000]).
Proof.
  intros Hq Hfail. apply failures_followed_by_app; [done |].
  cbn. rewrite Hfail. by repeat split.
Qed.

Lemma failures_followed_by_loop svc k evs1 :
  forall h evs2,
    failures_followed_by svc (skipped k) h evs1 ->
    failures_followed_by svc skipped_in_loop (h ++ evs1) evs2 ->
    next_batch_or_end k evs2 ->
    failures_followed_by svc skipped_in_loop h (evs1 ++ evs2).
Proof.
  induction evs1 as [| ev evs1 IH]; intros h evs2 H1 H2 Hnext; cbn.
  - by rewrite app_nil_r in H2.
  - destruct H1 as [Hev H1]. split.
    + destruct (call_failed svc h ev) as [e |]; [| done].
      rewrite Hev. by exists k, evs2.
    + apply IH; [done | | done]. by rewrite <- app_assoc.
Qed.

Lemma stops_at_failure_app {A} svc tr q (o : Outcome A) evs :
  no_failed_call svc tr q -> stops_at_failure svc (tr ++ q) o evs ->
  stops_at_failure svc tr o (q ++ evs).
Proof.
  intros Hq. destruct o as [a | e |]; cbn; [| | done].
  - by apply no_failed_call_app.
  - intros [Hquiet | (pre & ev & -> & Hpre & Hfail)].
    + left. by apply no_failed_call_app.
    + right. exists (q ++ pre), ev. rewrite <- !app_assoc.
      split; [done |]. split; [by apply no_failed_call_app |].
      by rewrite <- app_assoc in Hfail.
Qed.

Lemma no_failed_call_uuids svc evs :
  Forall (fun ev => ev = EvUuid) evs ->
  forall h, no_failed_call svc h evs /\ upserted evs = [].
Proof.
  induction 1 as [| ev evs -> _ IH]; intros h; [done |].
  destruct (IH (h ++ [EvUuid])) as [IH1 IH2]. by repeat split.
Qed.

Lemma prefix_concat {A} (l1 l2 : list (list A)) :
  l1 `prefix_of` l2 -> concat l1 `prefix_of` concat l2.
Proof. intros [k ->]. rewrite concat_app. by eexists. Qed.

Lemma prefix_map {A B} (f : A -> B) (l1 l2 : list A) :
  l1 `prefix_of` l2 -> map f l1 `prefix_of` map f l2.
Proof. intros [k ->]. rewrite map_app. by eexists. Qed.

Lemma batchUpserts_loop_stops svc index vectors batchSize :
  0 < batchSize ->
  forall fuel i tr, length vectors - i < fuel ->
  exists o evs,
    for_step fuel (length vectors) batchSize
      (batchUpserts_body svc index vectors batchSize) i tr = (o, tr ++ evs)
    /\ stops_at_failure svc tr o evs
    /\ upserted evs `prefix_of` batches fuel batchSize vectors i
    /\ (o = Done tt -> upserted evs = batches fuel batchSize vectors i).
Proof.
  intros Hstep. induction fuel as [| fuel IH]; intros i tr Hfuel; [lia |].
  cbn [for_step batches]. destruct (i <? length vectors) eqn:Hi.
  - unfold mbind, M_bind. rewrite batchUpserts_body_run. cbn zeta.
    destruct (upsert svc _ index _) as [e | []] eqn:Hup.
    + exists (Throw e). eexists [_; _]. split; [reflexivity |].
      split; [| split; [| done]].
      * right. eexists [_], _. split; [reflexivity |].
        split; [by split |]. cbn [call_failed]. by rewrite Hup.
      * cbn. apply prefix_cons, prefix_nil.
    + apply Nat.ltb_lt in Hi.
      edestruct (IH (i + batchSize)) as (o & evs & -> & Hstop & Hpre & Hall); [lia |].
      exists o. eexists ([_; _] ++ evs).
      split; [rewrite <- !app_assoc; reflexivity |].
      split; [| split].
      * apply stops_at_failure_app; [| done].
        split; [done |]. split; [| done]. cbn [call_failed]. by rewrite Hup.
      * rewrite upserted_app. cbn [upserted omap app]. by apply prefix_cons.
      * intros Hdone. rewrite upserted_app. cbn [upserted omap app].
        by rewrite (Hall Hdone).
  - exists (Done tt), []. rewrite app_nil_r. by repeat split.
Qed.

Lemma batch_try_stops svc env targetIndex l castedBatch i tr :
  Forall2 casted_from l castedBatch ->
  exists o evs,
    batch_try svc env targetIndex castedBatch i tr = (o, tr ++ evs)
    /\ stops_at_failure svc tr o evs
    /\ map vector_content (concat (upserted evs)) `prefix_of` map chunk_content l
    /\ (o = Done tt ->
        EvConsole error MsgNoEmbeddings ∈ evs
        \/ map vector_content (concat (upserted evs)) = map chunk_content l).
Proof.
  intros Hcasted.
  unfold batch_try, throw_if, throw, sleep, console, emit, call, mbind, M_bind,
    mret, M_ret. cbn zeta.
  destruct (embedDocuments svc _ _) as [e | [[| emb embs] |]] eqn:Hembed.
  - eexists _, [_; _]. rewrite <- app_assoc. split; [reflexivity |].
    split; [| split; [apply prefix_nil | done]].
    right. eexists [_], _. split; [reflexivity |]. split; [by split |].
    cbn [call_failed]. by rewrite Hembed.
  - eexists _, [_; _; _]. rewrite <- !app_assoc. split; [reflexivity |].
    split; [| split; [apply prefix_nil |]].
    + split; [done |]. split; [cbn [call_failed]; by rewrite Hembed | done].
    + intros _. left. set_solver.
  - destruct (unset (PINECONE_API_KEY env)).
    + eexists _, [_; _; _]. rewrite <- !app_assoc. split; [reflexivity |].
      split; [| split; [apply prefix_nil | done]].
      left. split; [done |]. split; [cbn [call_failed]; by rewrite Hembed | done].
    + unfold batchUpserts. fold (batchVectors castedBatch (emb :: embs)).
      assert (Hstart : forall h,
        h = tr ++ [EvConsole log (MsgGeneratingEmbeddings (i / BATCH_SIZE + 1));
                   EvEmbed (map trim (map pageContent castedBatch));
                   EvConsole log (MsgGenerated (length (emb :: embs)))] ->
        no_failed_call svc tr
          [EvConsole log (MsgGeneratingEmbeddings (i / BATCH_SIZE + 1));
           EvEmbed (map trim (map pageContent castedBatch));
           EvConsole log (MsgGenerated (length (emb :: embs)))]).
      { intros _ _. split; [done |]. split; [cbn [call_failed]; by rewrite Hembed | done]. }
      match goal with
      | |- context [for_step (S (length ?vs)) _ _ _ _ ?t] =>
          destruct (batchUpserts_loop_stops svc targetIndex vs 2 ltac:(lia)
                      (S (length vs)) 0 t ltac:(lia))
            as (o & evs & Hrun & Hstop & Hpre & Hall)
      end.
      rewrite Hrun.
      assert (Hcontents :
        map vector_content
          (concat (batches (S (length (batchVectors castedBatch (emb :: embs)))) 2
                     (batchVectors castedBatch (emb :: embs)) 0)) =
        map chunk_content l).
      { rewrite batches_concat by lia. rewrite drop_0.
        apply (batchVectors_contents l castedBatch (emb :: embs) Hcasted). }
      assert (Hprefix :
        map vector_content (concat (upserted evs)) `prefix_of` map chunk_content l).
      { rewrite <- Hcontents. by apply prefix_map, prefix_concat. }
      destruct o as [[] | e |]; [| | done].
      * eexists _, ([_; _; _] ++ evs ++ [_]). rewrite <- !app_assoc.
        split; [reflexivity |].
        assert (Hups : upserted ([EvConsole log (MsgGeneratingEmbeddings (i / BATCH_SIZE + 1));
           EvEmbed (map trim (map pageContent castedBatch));
           EvConsole log (MsgGenerated (length (emb :: embs)))] ++ evs ++ [EvSleep 1000])
           = upserted evs).
        { rewrite !upserted_app. cbn. by rewrite app_nil_r. }
        split; [| split].
        -- change (no_failed_call svc tr
                     ([EvConsole log (MsgGeneratingEmbeddings (i / BATCH_SIZE + 1));
                       EvEmbed (map trim (map pageContent castedBatch));
                       EvConsole log (MsgGenerated (length (emb :: embs)))]
                        ++ evs ++ [EvSleep 1000])).
           apply no_failed_call_app; [by apply (Hstart _ eq_refl) |].
           apply no_failed_call_app; [| by split].
           rewrite <- !app_assoc in Hstop. exact Hstop.
        -- by rewrite Hups.
        -- intros _. right. rewrite Hups, (Hall eq_refl). exact Hcontents.
      * eexists _, ([_; _; _] ++ evs). rewrite <- !app_assoc.
        split; [reflexivity |].
        split; [| split; [| done]].
        -- apply (stops_at_failure_app svc tr _ (Throw e) evs);
             [by apply (Hstart _ eq_refl) |].
           rewrite <- !app_assoc in Hstop. exact Hstop.
        -- rewrite upserted_app. exact Hprefix.
  - eexists _, [_; _; _]. rewrite <- !app_assoc. split; [reflexivity |].
    split; [| split; [apply prefix_nil |]].
    + split; [done |]. split; [cbn [call_failed]; by rewrite Hembed | done].
    + intros _. left. set_solver.
Qed.

Lemma processBatch_contained svc env targetIndex splits i tr :
  newVoyageEmbeddings svc (VOYAGE_API_KEY env) = None ->
  exists rest,
    let evs :=
      EvConsole log (MsgProcessingBatch (i / BATCH_SIZE + 1)
                       (ceil_div (length splits) BATCH_SIZE)) :: rest in
    processBatch svc env targetIndex splits i tr = (Done tt, tr ++ evs)
    /\ failures_followed_by svc (skipped (i / BATCH_SIZE + 1)) tr evs
    /\ map vector_content (concat (upserted evs)) `prefix_of`
         map chunk_content (valid_splits (slice splits i (i + BATCH_SIZE)))
    /\ (batch_errors evs = [] -> EvConsole error MsgNoEmbeddings ∉ evs ->
        map vector_content (concat (upserted evs)) =
        map chunk_content (valid_splits (slice splits i (i + BATCH_SIZE)))).
Proof.
  intros Hctor. unfold processBatch, valid_splits. cbn zeta.
  set (validBatch := List.filter _ (slice splits i (i + BATCH_SIZE))).
  set (P := EvConsole log (MsgProcessingBatch (i / BATCH_SIZE + 1)
                             (ceil_div (length splits) BATCH_SIZE))).
  unfold console, emit, construct, throw, try_catch, mbind, M_bind, mret, M_ret.
  fold P.
  destruct (length validBatch =? 0) eqn:Hlen.
  - apply Nat.eqb_eq, length_zero_iff_nil in Hlen. rewrite Hlen.
    exists [EvConsole log MsgNoValidContent]. rewrite <- app_assoc.
    split; [reflexivity |]. split; [by repeat split |].
    split; [apply prefix_nil | done].
  - edestruct (mapM_castSplit_run svc validBatch)
      as (casted & evs1 & -> & Huuid & Hcasted).
    rewrite Hctor.
    destruct (no_failed_call_uuids svc evs1 Huuid (tr ++ [P])) as [Hq1 Hu1].
    edestruct (batch_try_stops svc env targetIndex validBatch casted i)
      as (o & evs2 & -> & Hstop & Hpre & Hwhole); [exact Hcasted |].
    assert (Hall : stops_at_failure svc tr o ([P] ++ evs1 ++ evs2)).
    { apply stops_at_failure_app; [by split |].
      by apply stops_at_failure_app. }
    destruct o as [[] | e |]; [| | done].
    + exists (evs1 ++ evs2). rewrite <- !app_assoc.
      split; [reflexivity |].
      split; [by apply no_failed_call_followed |].
      assert (Hups : upserted (P :: evs1 ++ evs2) = upserted evs2).
      { change (P :: evs1 ++ evs2) with ([P] ++ evs1 ++ evs2).
        by rewrite !upserted_app, Hu1. }
      rewrite Hups. split; [done |].
      intros _ Hno. destruct (Hwhole eq_refl) as [Hin | Heq]; [| done].
      exfalso. apply Hno. right. apply elem_of_app. by right.
    + rewrite batch_catch_run.
      exists (evs1 ++ evs2 ++ [EvConsole error (MsgBatchError (i / BATCH_SIZE + 1) e);
                               EvSleep 2000]).
      rewrite <- !app_assoc. split; [reflexivity |].
      assert (Heq : P :: evs1 ++ evs2 ++
                      [EvConsole error (MsgBatchError (i / BATCH_SIZE + 1) e);
                       EvSleep 2000] =
                    ([P] ++ evs1 ++ evs2) ++
                      [EvConsole error (MsgBatchError (i / BATCH_SIZE + 1) e);
                       EvSleep 2000]).
      { by rewrite <- !app_assoc. }
      rewrite Heq. split; [| split].
      * destruct Hall as [Hquiet | (pre & ev & -> & Hquiet & Hfail)].
        -- apply no_failed_call_followed, no_failed_call_app; [done | by repeat split].
        -- rewrite <- app_assoc. by apply failures_followed_by_skipped.
      * by rewrite !upserted_app, Hu1, app_nil_r.
      * rewrite batch_errors_app. intros Herr.
        destruct (batch_errors ([P] ++ evs1 ++ evs2)); discriminate Herr.
Qed.

Lemma processBatch_loop_contained svc env targetIndex splits :
  newVoyageEmbeddings svc (VOYAGE_API_KEY env) = None ->
  forall fuel i tr, length splits - i < fuel ->
  exists evs,
    for_step fuel (length splits) BATCH_SIZE
      (processBatch svc env targetIndex splits) i tr = (Done tt, tr ++ evs)
    /\ failures_followed_by svc skipped_in_loop tr evs
    /\ (evs = [] \/
        exists n rest,
          evs = EvConsole log (MsgProcessingBatch (i / BATCH_SIZE + 1) n) :: rest)
    /\ map vector_content (concat (upserted evs)) `sublist_of`
         map chunk_content (valid_splits (drop i splits)).
Proof.
  intros Hctor. induction fuel as [| fuel IH]; intros i tr Hfuel; [lia |].
  cbn [for_step]. destruct (i <? length splits) eqn:Hi.
  - apply Nat.ltb_lt in Hi. unfold mbind, M_bind.
    destruct (processBatch_contained svc env targetIndex splits i tr Hctor)
      as (rest1 & Hrun1 & Hf1 & Hpre1 & _).
    cbn zeta in Hrun1, Hf1, Hpre1. rewrite Hrun1.
    edestruct (IH (i + BATCH_SIZE)) as (evs2 & -> & Hf2 & Hstart2 & Hsub2);
      [unfold BATCH_SIZE; lia |].
    eexists (_ ++ evs2). rewrite <- app_assoc. split; [reflexivity |].
    split; [| split].
    + apply (failures_followed_by_loop svc (i / BATCH_SIZE + 1)); [done | done |].
      destruct Hstart2 as [-> | (n & rest & ->)]; [by left |].
      right. exists n, rest. do 3 f_equal.
      unfold BATCH_SIZE. replace (i + 5) with (i + 1 * 5) by lia.
      rewrite Nat.div_add by lia. lia.
    + right. by eexists _, _.
    + rewrite upserted_app, concat_app, map_app, <- valid_splits_drop, map_app.
      apply sublist_app; [| done].
      destruct Hpre1 as [k ->]. apply sublist_inserts_r. reflexivity.
  - exists []. rewrite app_nil_r. split; [done |]. split; [done |].
    split; [by left | apply sublist_nil_l].
Qed.

(** C8: with an embeddings client that can be built, whatever the provider
    and the store answer:

    (1) Every pass of the batch loop ends normally.  When a request of the
    pass, to [embedDocuments] or to [index.upsert], is answered with an
    error, what follows it in the pass is the error line of that batch on
    the console and a pause of two seconds, and nothing else: no request is
    repeated and the slices after a failed one are not sent.  The vectors
    the pass has handed to [index.upsert] are those of an initial segment of
    the batch's chunks with valid content, in order; they are those of all
    these chunks when the pass wrote no error line.

    (2) The loop ends normally.  It has sent one embedding request for each
    batch with valid content, in order, whatever failed before.  A request
    answered with an error is followed by the error line and the pause, and
    then by the next batch or the end of the loop.  No vector is sent
    twice or out of order: the texts of the vectors handed to
    [index.upsert], in the order sent, are a sublist of the texts of the
    chunks with valid content.  The trace only grows: what was upserted
    before a failure stays upserted. *)
Theorem batch_failure_is_skipped svc env targetIndex splits :
  newVoyageEmbeddings svc (VOYAGE_API_KEY env) = None ->
  (forall i tr, exists evs,
     processBatch svc env targetIndex splits i tr = (Done tt, tr ++ evs)
     /\ (forall pre ev post e,
           evs = pre ++ ev :: post ->
           call_failed svc (tr ++ pre) ev = Some e ->
           post = [EvConsole error (MsgBatchError (i / BATCH_SIZE + 1) e);
                   EvSleep 2000])
     /\ map vector_content (concat (upserted evs)) `prefix_of`
          map chunk_content (valid_splits (slice splits i (i + BATCH_SIZE)))
     /\ (batch_errors evs = [] -> EvConsole error MsgNoEmbeddings ∉ evs ->
         map vector_content (concat (upserted evs)) =
         map chunk_content (valid_splits (slice splits i (i + BATCH_SIZE)))))
  /\ (forall tr, exists evs,
        for_step (S (length splits)) (length splits) BATCH_SIZE
          (processBatch svc env targetIndex splits) 0 tr = (Done tt, tr ++ evs)
        /\ embedded evs =
           embed_requests (batches (S (length splits)) BATCH_SIZE splits 0)
        /\ (forall pre ev post e,
              evs = pre ++ ev :: post ->
              call_failed svc (tr ++ pre) ev = Some e ->
              exists k rest,
                post = EvConsole error (MsgBatchError k e) :: EvSleep 2000 :: rest
                /\ next_batch_or_end k rest)
        /\ map vector_content (concat (upserted evs)) `sublist_of`
             map chunk_content (valid_splits splits)).
Proof.
  intros Hctor. split.
  - intros i tr.
    destruct (processBatch_contained svc env targetIndex splits i tr Hctor)
      as (rest & Hrun & Hf & Hpre & Hwhole).
    cbn zeta in Hrun, Hf, Hpre, Hwhole.
    eexists. split; [exact Hrun |]. split; [| by split].
    intros pre ev post e Hsplit Hfail.
    exact (failures_followed_by_split svc _ pre tr _ ev post e Hf Hsplit Hfail).
  - intros tr.
    destruct (processBatch_loop_contained svc env targetIndex splits Hctor
                (S (length splits)) 0 tr) as (evs & Hrun & Hf & _ & Hsub); [lia |].
    destruct (processBatch_loop_run svc env targetIndex splits
                (S (length splits)) 0 tr) as (o & evs' & Hrun' & _ & _ & Hc); [lia |].
    destruct (Hc Hctor) as [-> Hemb].
    rewrite Hrun in Hrun'. injection Hrun' as Heq. apply app_inv_head in Heq.
    subst evs'.
    exists evs. split; [exact Hrun |]. split; [exact Hemb |].
    split; [| by rewrite drop_0 in Hsub].
    intros pre ev post e Hsplit Hfail.
    exact (failures_followed_by_split svc _ pre tr _ ev post e Hf Hsplit Hfail).
Qed.

Lemma batch_failure_is_skipped_witness :
  let svc := sampleServices false sevenPages [] embed_ok upsert_second_fails in
  (forall i tr, exists evs,
     processBatch svc fullEnv "cases" sevenPages i tr = (Done tt, tr ++ evs)
     /\ (forall pre ev post e,
           evs = pre ++ ev :: post ->
           call_failed svc (tr ++ pre) ev = Some e ->
           post = [EvConsole error (MsgBatchError (i / BATCH_SIZE + 1) e);
                   EvSleep 2000])
     /\ map vector_content (concat (upserted evs)) `prefix_of`
          map chunk_content (valid_splits (slice sevenPages i (i + BATCH_SIZE)))
     /\ (batch_errors evs = [] -> EvConsole error MsgNoEmbeddings ∉ evs ->
         map vector_content (concat (upserted evs)) =
         map chunk_content (valid_splits (slice sevenPages i (i + BATCH_SIZE)))))
  /\ (forall tr, exists evs,
        for_step (S (length sevenPages)) (length sevenPages) BATCH_SIZE
          (processBatch svc fullEnv "cases" sevenPages) 0 tr = (Done tt, tr ++ evs)
        /\ embedded evs =
           embed_requests (batches (S (length sevenPages)) BATCH_SIZE sevenPages 0)
        /\ (forall pre ev post e,
              evs = pre ++ ev :: post ->
              call_failed svc (tr ++ pre) ev = Some e ->
              exists k rest,
                post = EvConsole error (MsgBatchError k e) :: EvSleep 2000 :: rest
                /\ next_batch_or_end k rest)
        /\ map vector_content (concat (upserted evs)) `sublist_of`
             map chunk_content (valid_splits sevenPages)).
Proof.
  apply (batch_failure_is_skipped
           (sampleServices false sevenPages [] embed_ok upsert_second_fails)
           fullEnv "cases" sevenPages).
  reflexivity.
Defined.

(** The first batch of the run of seven chunks in which the second upsert
    fails: the request at position 12 is the slice of the third and fourth
    chunks, it is answered with an error, and the pass ends with the error
    line and the pause; the fifth chunk is not sent. *)
Example processBatch_second_upsert_fails :
  let svc := sampleServices false sevenPages [] embed_ok upsert_second_fails in
  let evs := (processBatch svc fullEnv "cases" sevenPages 0 []).2 in
  exists b,
    evs !! 12 = Some (EvUpsert "cases" b)
    /\ call_failed svc (take 12 evs) (EvUpsert "cases" b) =
       Some (Error "upsert failed")
    /\ drop 13 evs =
       [EvConsole error (MsgBatchError 1 (Error "upsert failed")); EvSleep 2000]
    /\ map vector_content (concat (upserted evs)) =
       [Some (JStr "c1"); Some (JStr "c2"); Some (JStr "c3"); Some (JStr "c4")].
Proof. vm_compute. eexists. repeat split. Qed.
